(** * Bulk WhatsApp campaign bot: a shallow embedding of [src/app.ts]

    The development follows the TypeScript source function by function:
    the string primitives the source relies on (module [JS]), the
    identifier normaliser and extractor, the per-session store, the
    throttled dispatch loop and the conversation handlers [cancelFlow],
    [spamFlow] and [catchAllFlow].  The handler of uploaded documents and
    the HTTP routes are not modelled; console output is left out.  A
    JavaScript string is a [string] whose characters are its code units
    (the model covers code units below 256). *)

From Stdlib Require Import Ascii.
From stdpp Require Import gmap strings list pretty.

Set Warnings "-clear-no-such-hyp".

Local Open Scope char_scope.

(** ** JavaScript string primitives used by the source *)
Module JS.

(** [\d] : the ASCII decimal digits. *)
Definition isDigit (c : ascii) : bool :=
  match c with
  | "0" | "1" | "2" | "3" | "4" | "5" | "6" | "7" | "8" | "9" => true
  | _ => false
  end.

(** [\s] and the characters removed by [trim]: TAB, LF, VT, FF, CR,
    space and the no-break space U+00A0. *)
Definition isSpace (c : ascii) : bool :=
  match c with
  | "009" | "010" | "011" | "012" | "013" | " " | "160" => true
  | _ => false
  end.

(** [s.replace(/[class]/g, "")] : drop every character of the class. *)
Fixpoint removeChars (p : ascii -> bool) (s : string) : string :=
  match s with
  | EmptyString => EmptyString
  | String c r => if p c then removeChars p r else String c (removeChars p r)
  end.

Fixpoint allChars (p : ascii -> bool) (s : string) : bool :=
  match s with
  | EmptyString => true
  | String c r => p c && allChars p r
  end.

(** [/^\d+$/.test(s)] *)
Definition testDigits (s : string) : bool :=
  match s with
  | EmptyString => false
  | _ => allChars isDigit s
  end.

Definition startsWith (s pre : string) : bool := String.prefix pre s.

(** [s.charAt(i) === c] ; [charAt] out of range is the empty string. *)
Definition charAtIs (s : string) (i : nat) (c : ascii) : bool :=
  match String.get i s with
  | Some d => bool_decide (d = c)
  | None => false
  end.

Definition isEmpty (s : string) : bool :=
  match s with EmptyString => true | _ => false end.

Fixpoint trimStart (s : string) : string :=
  match s with
  | EmptyString => EmptyString
  | String c r => if isSpace c then trimStart r else s
  end.

Fixpoint trimEnd (s : string) : string :=
  match s with
  | EmptyString => EmptyString
  | String c r =>
      let r' := trimEnd r in
      if isSpace c && isEmpty r' then EmptyString else String c r'
  end.

Definition trim (s : string) : string := trimEnd (trimStart s).

(** [toLowerCase] on code units below 256: the letters A-Z and the
    capital letters U+00C0 to U+00DE (without the multiplication sign
    U+00D7) move up by 32, everything else stays. *)
Definition lowerChar (c : ascii) : ascii :=
  let n := nat_of_ascii c in
  if ((65 <=? n) && (n <=? 90) || (192 <=? n) && (n <=? 214)
      || (216 <=? n) && (n <=? 222))%nat
  then ascii_of_nat (n + 32) else c.

Fixpoint toLowerCase (s : string) : string :=
  match s with
  | EmptyString => EmptyString
  | String c r => String (lowerChar c) (toLowerCase r)
  end.

(** [arr.includes(x)] on an array of strings. *)
Definition includes (arr : list string) (x : string) : bool :=
  bool_decide (x ∈ arr).

(** [arr.join(sep)] *)
Definition join (sep : string) (arr : list string) : string :=
  String.concat sep arr.

(** [s.split(/[class]+/)] : the pieces between maximal runs of separator
    characters; a run at the very start or end leaves an empty piece
    there, and the empty string splits into one empty piece. *)
Fixpoint splitRuns (p : ascii -> bool) (cur : string) (inRun : bool)
    (s : string) : list string :=
  match s with
  | EmptyString => [cur]
  | String c r =>
      if p c then
        if inRun then splitRuns p cur true r
        else cur :: splitRuns p EmptyString true r
      else splitRuns p (cur +:+ String c EmptyString) false r
  end.

Definition split (p : ascii -> bool) (s : string) : list string :=
  splitRuns p EmptyString false s.

(** *** Backtracking regular expressions

    The fragment of the regular-expression language the source uses.
    [matches r s] lists, in the priority order of a backtracking matcher
    (greedy quantifiers first), what is left of [s] after each way [r]
    can match a prefix of it; the matcher takes the first one. *)
Inductive regex : Type :=
| Lit (c : ascii)
| Class (p : ascii -> bool)
| Seq (r1 r2 : regex)
| Opt (r : regex)
| Star (p : ascii -> bool)
| Rep (p : ascii -> bool) (lo hi : nat).

Fixpoint repClass (p : ascii -> bool) (lo hi : nat) (s : string)
    : list string :=
  match hi with
  | O => match lo with O => [s] | _ => [] end
  | S hi' =>
      match s with
      | String c r => if p c then repClass p (Nat.pred lo) hi' r else []
      | EmptyString => []
      end ++ match lo with O => [s] | _ => [] end
  end.

Fixpoint matches (r : regex) (s : string) : list string :=
  match r with
  | Lit c =>
      match s with
      | String d t => if bool_decide (d = c) then [t] else []
      | EmptyString => []
      end
  | Class p =>
      match s with
      | String d t => if p d then [t] else []
      | EmptyString => []
      end
  | Seq r1 r2 => flat_map (matches r2) (matches r1 s)
  | Opt r1 => matches r1 s ++ [s]
  | Star p => repClass p 0 (String.length s) s
  | Rep p lo hi => repClass p lo hi s
  end.

(** One [exec] at the start of [s]: the matched text and the rest. *)
Definition execAt (r : regex) (s : string) : option (string * string) :=
  match matches r s with
  | rest :: _ =>
      Some (String.substring 0 (String.length s - String.length rest) s, rest)
  | [] => None
  end.

(** [s.match(/r/g) || []] : all matches, left to right, each search
    resuming where the previous match ended ([skip] characters of [s]
    are still covered by it); an empty match advances by one. *)
Fixpoint matchAllFrom (r : regex) (skip : nat) (s : string) : list string :=
  match skip with
  | S k =>
      match s with
      | String _ t => matchAllFrom r k t
      | EmptyString => []
      end
  | O =>
      match execAt r s with
      | Some (m, _) =>
          m :: match s with
               | String _ t => matchAllFrom r (Nat.pred (String.length m)) t
               | EmptyString => []
               end
      | None =>
          match s with
          | String _ t => matchAllFrom r 0 t
          | EmptyString => []
          end
      end
  end.

Definition matchAll (r : regex) (s : string) : list string :=
  matchAllFrom r 0 s.

End JS.

(** ** Identifier normalisation and extraction *)

(** [normalizePeruNumber] of [src/app.ts]. *)
Definition normalizePeruNumber (number : string) : option string :=
  let cleaned := JS.removeChars (λ c, negb (JS.isDigit c)) number in
  if negb (JS.testDigits cleaned) then None
  else if JS.startsWith cleaned "9" && (String.length cleaned =? 9)%nat
  then Some ("51" +:+ cleaned)
  else if JS.startsWith cleaned "51" && (String.length cleaned =? 11)%nat
          && JS.charAtIs cleaned 2 "9"
  then Some cleaned
  else None.

(** The earlier revision of the same file strips only white space,
    hyphens, parentheses and the plus sign. *)
Module Lenient.

Definition isStripped (c : ascii) : bool :=
  JS.isSpace c ||
  match c with "-" | "(" | ")" | "+" => true | _ => false end.

Definition normalizePeruNumber (number : string) : option string :=
  let cleaned := JS.removeChars isStripped number in
  if negb (JS.testDigits cleaned) then None
  else if JS.startsWith cleaned "9" && (String.length cleaned =? 9)%nat
  then Some ("51" +:+ cleaned)
  else if JS.startsWith cleaned "51" && (String.length cleaned =? 11)%nat
  then if JS.charAtIs cleaned 2 "9" then Some cleaned else None
  else None.

End Lenient.

(** [/[\r\n,;]+/] *)
Definition isLineSeparator (c : ascii) : bool :=
  match c with
  | "013" | "010" | "," | ";" => true
  | _ => false
  end.

(** [[\d\s\-().]] *)
Definition isNumberBody (c : ascii) : bool :=
  JS.isDigit c || JS.isSpace c ||
  match c with "-" | "(" | ")" | "." => true | _ => false end.

(** The fallback pattern, written with the constructors of [JS.regex]:
    an optional group (optional plus sign, white space, the literal 51,
    white space), then a 9 followed by 8 to 20 characters of the class
    [isNumberBody]. *)
Definition phonePattern : JS.regex :=
  JS.Seq
    (JS.Opt
       (JS.Seq (JS.Opt (JS.Lit "+"))
          (JS.Seq (JS.Star JS.isSpace)
             (JS.Seq (JS.Lit "5") (JS.Seq (JS.Lit "1") (JS.Star JS.isSpace))))))
    (JS.Seq (JS.Lit "9") (JS.Rep isNumberBody 8 20)).

(** The two local variables of [extractNumbers]: the result array and the
    [seen] set. *)
Record Collected : Type := mkCollected {
  validNumbers : list string;
  seen : gset string
}.

(** [if (normalized && !seen.has(normalized)) { seen.add; push }] *)
Definition collect (acc : Collected) (normalized : option string) : Collected :=
  match normalized with
  | Some n =>
      if negb (JS.isEmpty n) && negb (bool_decide (n ∈ seen acc))
      then mkCollected (validNumbers acc ++ [n]) ({[ n ]} ∪ seen acc)
      else acc
  | None => acc
  end.

(** The body of the first loop of [extractNumbers]. *)
Definition collectLine (acc : Collected) (line : string) : Collected :=
  let trimmed := JS.trim line in
  if JS.isEmpty trimmed then acc
  else collect acc (normalizePeruNumber trimmed).

Definition collectPattern (acc : Collected) (pattern : string) : Collected :=
  collect acc (normalizePeruNumber pattern).

Definition extractNumbers (text : string) : list string :=
  let lines := JS.split isLineSeparator text in
  let acc := foldl collectLine (mkCollected [] ∅) lines in
  if (length (validNumbers acc) =? 0)%nat then
    let patterns := JS.matchAll phonePattern text in
    validNumbers (foldl collectPattern acc patterns)
  else validNumbers acc.

Local Close Scope char_scope.

(** ** The session store *)

Inductive Step : Type :=
| idle
| waiting_numbers
| confirming_numbers
| waiting_messages
| confirming_messages.

#[global] Instance Step_eq_dec : EqDecision Step.
Proof. solve_decision. Defined.

Record UserState : Type := mkUserState {
  step : Step;
  numbers : list string;
  messages : list string
}.

#[global] Instance UserState_eq_dec : EqDecision UserState.
Proof. solve_decision. Defined.

(** The record [{ step: "idle", numbers: [], messages: [] }]. *)
Definition freshState : UserState := mkUserState idle [] [].

(** The locals of [addNumbersToState]: the array being pushed to, the
    [existing] set and the counter. *)
Record Merge : Type := mkMerge {
  merged : list string;
  existing : gset string;
  added : nat
}.

Definition addOne (m : Merge) (num : string) : Merge :=
  if bool_decide (num ∈ existing m) then m
  else mkMerge (merged m ++ [num]) ({[ num ]} ∪ existing m) (S (added m)).

(** [addNumbersToState]: the state after the pushes, and the count
    returned. *)
Definition addNumbersToState (state : UserState) (newNumbers : list string)
    : UserState * nat :=
  let m := foldl addOne
             (mkMerge (numbers state) (list_to_set (numbers state)) 0)
             newNumbers in
  (mkUserState (step state) (merged m) (messages state), added m).

(** [[...new Set(arr)]] : the elements in order of first insertion. *)
Definition arrayFromSet (arr : list string) : list string :=
  merged (foldl addOne (mkMerge [] ∅ 0) arr).

(** ** Effects: the world, its trace and a state-and-exception monad *)

Inductive Outcome (A : Type) : Type :=
| Ret (a : A)
| Throw.
Arguments Ret {A} a.
Arguments Throw {A}.

#[global] Instance Outcome_eq_dec {A} `{EqDecision A} : EqDecision (Outcome A).
Proof. solve_decision. Defined.

Definition returned {A} (o : Outcome A) : bool :=
  match o with Ret _ => true | Throw => false end.

(** One element of the array [vendor.onWhatsApp] resolves to. *)
Record OnWhatsAppEntry : Type := mkEntry {
  entry_jid : string;
  entry_exists : bool
}.

#[global] Instance OnWhatsAppEntry_eq_dec : EqDecision OnWhatsAppEntry.
Proof. solve_decision. Defined.

(** What the program does to the outside, in order, each call to a
    collaborator with how it ended: the answer of the existence check,
    and whether a send resolved. *)
Inductive Event : Type :=
| EvSleep (ms : nat)
| EvOnWhatsApp (number : string)
    (answer : Outcome (option (list OnWhatsAppEntry)))
| EvSendMessage (jid message : string) (delivered : bool)
| EvProgress (sent total : nat)
| EvReply (to text : string).

#[global] Instance Event_eq_dec : EqDecision Event.
Proof. solve_decision. Defined.

(** The collaborators of the dispatch loop, over a state [Ext] of their
    own: the optional existence check (absent when [provider.vendor] or
    its [onWhatsApp] function is), [provider.sendMessage], and
    [Math.floor(Math.random() * n)]. *)
Record Transport (Ext : Type) : Type := mkTransport {
  vendor_onWhatsApp :
    option (string -> Ext -> Outcome (option (list OnWhatsAppEntry)) * Ext);
  sendMessage : string -> string -> Ext -> Outcome unit * Ext;
  randomBelow : nat -> Ext -> nat * Ext
}.
Arguments vendor_onWhatsApp {Ext} _.
Arguments sendMessage {Ext} _ _ _ _.
Arguments randomBelow {Ext} _ _ _.

(** The optional [onProgress] callback. *)
Definition ProgressSink (Ext : Type) : Type :=
  option (nat -> nat -> Ext -> Outcome unit * Ext).

Record World (Ext : Type) : Type := mkWorld {
  authenticatedUsers : gset string;
  userStates : gmap string UserState;
  ext : Ext;
  trace : list Event
}.
Arguments mkWorld {Ext} _ _ _ _.
Arguments authenticatedUsers {Ext} _.
Arguments userStates {Ext} _.
Arguments ext {Ext} _.
Arguments trace {Ext} _.

Definition M (Ext A : Type) : Type := World Ext -> Outcome A * World Ext.

Definition ret {Ext A} (a : A) : M Ext A := λ w, (Ret a, w).

Definition bind {Ext A B} (c : M Ext A) (k : A -> M Ext B) : M Ext B :=
  λ w, match c w with
       | (Ret a, w') => k a w'
       | (Throw, w') => (Throw, w')
       end.

(** [try { body } catch { handler }] *)
Definition tryCatch {Ext A} (body handler : M Ext A) : M Ext A :=
  λ w, match body w with
       | (Ret a, w') => (Ret a, w')
       | (Throw, w') => handler w'
       end.

Declare Scope js_scope.
Delimit Scope js_scope with js.
Notation "x <- c ;; k" := (bind c (λ x, k))
  (at level 20, c at level 99, k at level 200, only parsing) : js_scope.
Notation "c ;; k" := (bind c (λ _, k))
  (at level 100, k at level 200, only parsing) : js_scope.

Definition emit {Ext} (e : Event) : M Ext unit :=
  λ w, (Ret tt,
        mkWorld (authenticatedUsers w) (userStates w) (ext w) (trace w ++ [e])).

(** A call to a collaborator: run on the collaborators' state, and
    logged with its outcome. *)
Definition call {Ext A} (e : Outcome A -> Event) (f : Ext -> Outcome A * Ext)
    : M Ext A :=
  λ w, let '(o, x) := f (ext w) in
       (o, mkWorld (authenticatedUsers w) (userStates w) x (trace w ++ [e o])).

Definition draw {Ext} (f : Ext -> nat * Ext) : M Ext nat :=
  λ w, let '(n, x) := f (ext w) in
       (Ret n, mkWorld (authenticatedUsers w) (userStates w) x (trace w)).

Definition when {Ext} (b : bool) (c : M Ext unit) : M Ext unit :=
  if b then c else ret tt.

(** ** The dispatch loop and the conversation handlers *)

Record Counters : Type := mkCounters {
  success : nat;
  failed : nat;
  notOnWhatsApp : nat
}.

#[global] Instance Counters_eq_dec : EqDecision Counters.
Proof. solve_decision. Defined.

(** How the [try] block of one loop iteration ends: by falling through
    to the statement after it, or by [continue]. *)
Inductive Completion : Type := Normal | Continue.

Definition nl : string := String "010" EmptyString.
Definition dquote : string := String "034" EmptyString.

Section Program.

Context {Ext : Type}.
Variable provider : Transport Ext.
Variable BOT_SECRET_KEY : string.

Local Open Scope js_scope.

(** [await new Promise(r => setTimeout(r, Math.floor(Math.random() * n) + base))] *)
Definition randomDelay (n base : nat) : M Ext unit :=
  r <- draw (randomBelow provider n) ;;
  emit (EvSleep (r + base)).

(** The inner [try] of the loop: [hasWhatsApp]. *)
Definition checkWhatsApp (number : string) : M Ext bool :=
  tryCatch
    match vendor_onWhatsApp provider with
    | Some onWhatsApp =>
        result <- call (EvOnWhatsApp number) (onWhatsApp number) ;;
        match result with
        | Some (first :: _) => ret (entry_exists first)
        | _ => ret true
        end
    | None => ret true
    end
    (ret true).

(** The loop over [messages] for one recipient, from index [msgIndex]. *)
Fixpoint sendMessages (jid : string) (total msgIndex : nat)
    (rest : list string) : M Ext unit :=
  match rest with
  | [] => ret tt
  | message :: rest' =>
      call (λ o, EvSendMessage jid message (returned o))
        (sendMessage provider jid message) ;;
      when (msgIndex <? total - 1)%nat (randomDelay 2000 1000) ;;
      sendMessages jid total (S msgIndex) rest'
  end.

(** The outer [try] statement of the loop body for one recipient: the
    counters after it, and whether it left by [continue]. *)
Definition attempt (messages : list string) (number : string) (c : Counters)
    : M Ext (Counters * Completion) :=
  let jid := number +:+ "@s.whatsapp.net" in
  tryCatch
    (hasWhatsApp <- checkWhatsApp number ;;
     if negb hasWhatsApp then
       ret (mkCounters (success c) (failed c) (S (notOnWhatsApp c)), Continue)
     else
       sendMessages jid (length messages) 0 messages ;;
       ret (mkCounters (S (success c)) (failed c) (notOnWhatsApp c), Normal))
    (ret (mkCounters (success c) (S (failed c)) (notOnWhatsApp c), Normal)).

(** [if (onProgress) onProgress(index + 1, numbers.length)] *)
Definition reportProgress (total : nat) (onProgress : ProgressSink Ext)
    (index : nat) : M Ext unit :=
  match onProgress with
  | Some sink =>
      call (λ _, EvProgress (index + 1) total) (sink (index + 1) total)
  | None => ret tt
  end.

(** One iteration of the loop over [numbers]. *)
Definition iteration (total : nat) (messages : list string)
    (onProgress : ProgressSink Ext) (index : nat) (number : string)
    (c : Counters) : M Ext Counters :=
  when (0 <? index)%nat (randomDelay 5000 3000) ;;
  r <- attempt messages number c ;;
  match r with
  | (c', Continue) => ret c'
  | (c', Normal) => reportProgress total onProgress index ;; ret c'
  end.

Fixpoint dispatchFrom (total : nat) (messages : list string)
    (onProgress : ProgressSink Ext) (index : nat) (rest : list string)
    (c : Counters) : M Ext Counters :=
  match rest with
  | [] => ret c
  | number :: rest' =>
      c' <- iteration total messages onProgress index number c ;;
      dispatchFrom total messages onProgress (S index) rest' c'
  end.

Definition sendBulkWhatsApp (numbers messages : list string)
    (onProgress : ProgressSink Ext) : M Ext Counters :=
  dispatchFrom (length numbers) messages onProgress 0 numbers
    (mkCounters 0 0 0).

(** *** The session map and the authorised set *)

Definition getState (from : string) : M Ext UserState :=
  λ w, match userStates w !! from with
       | Some st => (Ret st, w)
       | None =>
           (Ret freshState,
            mkWorld (authenticatedUsers w)
              (<[from := freshState]> (userStates w)) (ext w) (trace w))
       end.

Definition resetState (from : string) : M Ext unit :=
  λ w, (Ret tt,
        mkWorld (authenticatedUsers w)
          (<[from := freshState]> (userStates w)) (ext w) (trace w)).

(** The handlers keep the object [getState] returned in a local
    [state] and assign to its fields; no handler touches [state] after
    a [resetState], so the object is the map's entry throughout and its
    reads and writes are reads and writes of that entry. *)
Definition readState (from : string) : M Ext UserState :=
  λ w, (Ret (default freshState (userStates w !! from)), w).

Definition writeState (from : string) (st : UserState) : M Ext unit :=
  λ w, (Ret tt,
        mkWorld (authenticatedUsers w) (<[from := st]> (userStates w))
          (ext w) (trace w)).

Definition isAuthenticated (from : string) : M Ext bool :=
  λ w, (Ret (bool_decide (from ∈ authenticatedUsers w)), w).

Definition authenticate (from : string) : M Ext unit :=
  λ w, (Ret tt,
        mkWorld ({[ from ]} ∪ authenticatedUsers w) (userStates w) (ext w)
          (trace w)).

Definition revoke (from : string) : M Ext unit :=
  λ w, (Ret tt,
        mkWorld (authenticatedUsers w ∖ {[ from ]}) (userStates w) (ext w)
          (trace w)).

Definition flowDynamic (to text : string) : M Ext unit :=
  emit (EvReply to text).

Definition cancelNotice : string :=
  "*Operacion cancelada.* Sesion cerrada. Escribe la clave para empezar de nuevo.".

Definition noMessagesPrompt : string :=
  "No tienes mensajes guardados todavia. Envia al menos un mensaje.".

Definition accessGranted : string :=
  JS.join nl [
    "*Acceso concedido!*";
    "";
    "Ahora puedes usar el bot.";
    "Escribe *spam* para empezar a enviar mensajes.";
    "";
    "Escribe *Cancel* para cerrar sesion."].

(** The body shared by [cancelFlow] and the cancel branch of
    [catchAllFlow]. *)
Definition cancelIfAuthenticated (from : string) : M Ext unit :=
  auth <- isAuthenticated from ;;
  if negb auth then ret tt
  else
    resetState from ;;
    revoke from ;;
    flowDynamic from cancelNotice.

(** The action of [cancelFlow]. *)
Definition cancelFlow (from : string) : M Ext unit :=
  cancelIfAuthenticated from.

(** The action of [spamFlow]. *)
Definition spamFlow (from : string) : M Ext unit :=
  auth <- isAuthenticated from ;;
  if negb auth then ret tt
  else
    state <- getState from ;;
    writeState from (mkUserState waiting_numbers [] []) ;;
    flowDynamic from (JS.join nl [
      "*Vamos a enviar mensajes!*";
      "";
      "*Paso 1:* Enviame la lista de numeros de WhatsApp.";
      "";
      "Los numeros pueden estar en formato:";
      "- 987654321";
      "- 51987654321";
      "- +51 987 654 321";
      "";
      "Puedes enviarlos:";
      "- Uno por linea";
      "- Separados por comas";
      "- *O envia un archivo CSV*";
      "";
      "Escribe *Cancel* para cancelar y cerrar sesion."]).

(** The report after numbers were merged into the session. *)
Definition mergeReport (state : UserState) (added : nat) : string :=
  let preview := take 10 (numbers state) in
  let hasMore := (10 <? length (numbers state))%nat in
  JS.join nl (filter (λ s, s ≠ "") [
    "*Perfecto!* Se agregaron " +:+ pretty added +:+ " numero(s) nuevo(s).";
    "";
    "*Total actual: " +:+ pretty (length (numbers state)) +:+ " numero(s)*";
    "";
    JS.join nl preview;
    if hasMore
    then "... y " +:+ pretty (length (numbers state) - 10) +:+ " mas"
    else "";
    "";
    "- Envia mas numeros para agregarlos";
    "- Escribe *Confirmar* para pasar a los mensajes";
    "- Escribe *Cancel* para cancelar"]).

(** One line of the echoed queue: the index, and the body cut to 50
    characters. *)
Definition queueLine (i : nat) (m : string) : string :=
  pretty (i + 1) +:+ ". " +:+ dquote +:+ String.substring 0 50 m +:+
  (if (50 <? String.length m)%nat then "..." else "") +:+ dquote.

(** The branch of [catchAllFlow] for the steps [waiting_numbers] and
    [confirming_numbers]. *)
Definition numbersStep (from userMessage : string) (state : UserState)
    : M Ext unit :=
  if JS.includes ["confirmar"; "confirm"; "ok"; "listo"]
       (JS.toLowerCase userMessage)
  then
    if (length (numbers state) =? 0)%nat then
      flowDynamic from
        "No tienes numeros en la lista todavia. Envia numeros primero."
    else
      writeState from (mkUserState waiting_messages (numbers state) []) ;;
      flowDynamic from (JS.join nl [
        "*Lista confirmada!* Total: " +:+ pretty (length (numbers state))
          +:+ " numero(s)";
        "";
        "*Paso 2:* Ahora enviame los mensajes que quieres enviar.";
        "";
        "Puedes enviar varios mensajes. Cada uno se enviara por separado.";
        "Cuando termines, escribe exactamente *Enviar* para iniciar el envio.";
        "";
        "Escribe *Cancel* para cancelar."])
  else
    let extractedNumbers := extractNumbers userMessage in
    if (length extractedNumbers =? 0)%nat then
      flowDynamic from
        (if bool_decide (step state = confirming_numbers)
         then "No encontre numeros validos. Escribe *Confirmar* si ya terminaste o envia mas numeros."
         else "No encontre numeros validos. Formatos: 987654321, 51987654321, +51 987 654 321")
    else
      let '(state1, added) := addNumbersToState state extractedNumbers in
      let state2 :=
        mkUserState confirming_numbers (numbers state1) (messages state1) in
      writeState from state2 ;;
      flowDynamic from (mergeReport state2 added).

(** The branch of [catchAllFlow] for the steps [waiting_messages] and
    [confirming_messages]. *)
Definition messagesStep (from userMessage : string) (state : UserState)
    : M Ext unit :=
  if bool_decide (userMessage = "Enviar") then
    if (length (messages state) =? 0)%nat then
      flowDynamic from noMessagesPrompt
    else
      flowDynamic from (JS.join nl [
        "*Iniciando envio!*";
        "";
        "Destinatarios: " +:+ pretty (length (numbers state));
        "Mensajes por destinatario: " +:+ pretty (length (messages state));
        "";
        "Esto puede tomar un momento..."]) ;;
      let numbers := arrayFromSet (numbers state) in
      let messages := messages state in
      resetState from ;;
      result <- sendBulkWhatsApp numbers messages None ;;
      flowDynamic from (JS.join nl [
        "*Envio completado!*";
        "";
        "*Resultados:*";
        "- Enviados: " +:+ pretty (success result);
        "- Fallidos: " +:+ pretty (failed result);
        "- Sin WhatsApp: " +:+ pretty (notOnWhatsApp result);
        "";
        "Escribe *spam* para enviar mas mensajes."])
  else
    let state1 :=
      mkUserState confirming_messages (numbers state)
        (messages state ++ [userMessage]) in
    writeState from state1 ;;
    flowDynamic from (JS.join nl (
      [ "*Mensaje " +:+ pretty (length (messages state1)) +:+ " guardado!*";
        "";
        "Tienes " +:+ pretty (length (messages state1))
          +:+ " mensaje(s) en cola:" ]
      ++ imap queueLine (messages state1) ++
      [ "";
        "- Envia otro mensaje para agregarlo";
        "- Escribe exactamente *Enviar* para iniciar el envio";
        "- Escribe *Cancel* para cancelar" ])).

(** The action of [catchAllFlow], for an inbound text [body] from the
    session key [from]. *)
Definition catchAllFlow (from body : string) : M Ext unit :=
  getState from ;;
  let userMessage := JS.trim body in
  if JS.includes ["cancel"; "cancelar"] (JS.toLowerCase userMessage) then
    cancelIfAuthenticated from
  else
    auth <- isAuthenticated from ;;
    if negb auth then
      if bool_decide (userMessage = BOT_SECRET_KEY) then
        authenticate from ;;
        flowDynamic from accessGranted
      else ret tt
    else
      state <- readState from ;;
      match step state with
      | waiting_numbers | confirming_numbers =>
          numbersStep from userMessage state
      | waiting_messages | confirming_messages =>
          messagesStep from userMessage state
      | idle =>
          flowDynamic from (JS.join nl [
            "*Sesion activa*";
            "";
            "Comandos disponibles:";
            "- *spam* - Enviar mensajes masivos";
            "- *Cancel* - Cerrar sesion"])
      end.

End Program.

(** ** Shapes of identifiers, as the specification words them *)

(** Exactly nine characters, the first a 9. *)
Definition hasNineDigitShape (d : string) : bool :=
  (String.length d =? 9)%nat && JS.charAtIs d 0 "9".

(** Exactly eleven characters, the country code 51 and then a 9. *)
Definition hasElevenDigitShape (d : string) : bool :=
  (String.length d =? 11)%nat && JS.charAtIs d 0 "5" && JS.charAtIs d 1 "1"
  && JS.charAtIs d 2 "9".

(** The canonical form of an Identifier: eleven digits, of which the
    first three are 5, 1 and 9. *)
Definition isIdentifier (s : string) : bool :=
  JS.allChars JS.isDigit s && hasElevenDigitShape s.

(** Keeping each element at its first occurrence only, and none of
    those in [before]: the order of first sight. *)
Fixpoint firstSeen (before l : list string) : list string :=
  match l with
  | [] => []
  | x :: r =>
      if bool_decide (x ∈ before) then firstSeen before r
      else x :: firstSeen (before ++ [x]) r
  end.

(** Line mode, as the specification words it: split on line breaks,
    commas and semicolons, trim each fragment, normalise it as a whole. *)
Definition lineCandidates (text : string) : list string :=
  omap (λ fragment, normalizePeruNumber (JS.trim fragment))
    (JS.split isLineSeparator text).

(** Pattern-scan mode: normalise each match of the loose pattern. *)
Definition patternCandidates (text : string) : list string :=
  omap normalizePeruNumber (JS.matchAll phonePattern text).

(** ** Outcomes of the dispatch loop, as the specification words them *)

(** What became of one recipient. *)
Inductive Verdict : Type := Delivered | Failed | Unreachable.

#[global] Instance Verdict_eq_dec : EqDecision Verdict.
Proof. solve_decision. Defined.

(** Counting one recipient: exactly one counter moves, by one. *)
Definition bump (v : Verdict) (c : Counters) : Counters :=
  match v with
  | Delivered => mkCounters (S (success c)) (failed c) (notOnWhatsApp c)
  | Failed => mkCounters (success c) (S (failed c)) (notOnWhatsApp c)
  | Unreachable => mkCounters (success c) (failed c) (S (notOnWhatsApp c))
  end.

Definition tallyFrom (c : Counters) (vs : list Verdict) : Counters :=
  foldl (λ c v, bump v c) c vs.

(** An answer of the existence check is a definitive "not reachable"
    only when it has a first entry whose [exists] is not [true]. *)
Definition reachableBy (answer : Outcome (option (list OnWhatsAppEntry)))
    : bool :=
  match answer with
  | Ret (Some (first :: _)) => entry_exists first
  | _ => true
  end.

(** The send attempts of a piece of trace: address, body, delivered. *)
Definition sendsOf (evs : list Event) : list (string * string * bool) :=
  omap (λ e, match e with
             | EvSendMessage jid message ok => Some (jid, message, ok)
             | _ => None
             end) evs.

(** The calls of the progress sink in a piece of trace. *)
Definition progressOf (evs : list Event) : list (nat * nat) :=
  omap (λ e, match e with
             | EvProgress sent total => Some (sent, total)
             | _ => None
             end) evs.

(** A sink that never throws (or no sink at all). *)
Definition sinkReturns {Ext} (onProgress : ProgressSink Ext) : Prop :=
  ∀ sink, onProgress = Some sink ->
    ∀ sent total x, (sink sent total x).1 = Ret tt.

(** The authorised set and the session map are the same in both worlds. *)
Definition sameBot {Ext} (w w' : World Ext) : Prop :=
  authenticatedUsers w' = authenticatedUsers w
  ∧ userStates w' = userStates w.

(** From [w] to [w'] the program touched neither the authorised set nor
    the session map, and logged [evs]. *)
Definition stepsTo {Ext} (w : World Ext) (evs : list Event) (w' : World Ext)
    : Prop :=
  sameBot w w' ∧ trace w' = trace w ++ evs.

(** The sink calls the loop makes for recipients with the verdicts [vs],
    the first of them at [index]. *)
Fixpoint progressFor (total index : nat) (vs : list Verdict)
    : list (nat * nat) :=
  match vs with
  | [] => []
  | v :: r =>
      match v with
      | Unreachable => []
      | _ => [(index + 1, total)]
      end ++ progressFor total (S index) r
  end.

(** How the [try] statement ends for a recipient with verdict [v]. *)
Definition completionOf (v : Verdict) : Completion :=
  match v with Unreachable => Continue | _ => Normal end.


(** ** Scripted collaborators for concrete runs *)
Module Demo.

(** No collaborator state; no existence check available; a send throws
    for the addresses listed in [broken]; every random draw is 0. *)
Definition bare (broken : list string) : Transport unit :=
  mkTransport unit None
    (λ jid _ x, (if bool_decide (jid ∈ broken) then Throw else Ret tt, x))
    (λ _ x, (0, x)).

(** As [bare], with an existence check that answers "does not exist" for
    the numbers in [absent], throws for those in [unknown] and answers
    "exists" otherwise. *)
Definition scripted (absent unknown broken : list string) : Transport unit :=
  mkTransport unit
    (Some (λ number x,
       (if bool_decide (number ∈ unknown) then Throw
        else Ret (Some [mkEntry (number +:+ "@s.whatsapp.net")
                          (negb (bool_decide (number ∈ absent)))]), x)))
    (λ jid _ x, (if bool_decide (jid ∈ broken) then Throw else Ret tt, x))
    (λ _ x, (0, x)).

(** A sink that records nothing of its own (the call is in the trace). *)
Definition quietSink : ProgressSink unit :=
  Some (λ _ _ x, (Ret tt, x)).

Definition emptyWorld : World unit := mkWorld ∅ ∅ tt [].

Definition secret : string := "clave-whatsapp".

(** Run a handler for its effect on the world. *)
Definition exec (c : M unit unit) (w : World unit) : World unit := (c w).2.

(** A session that authenticated, started a broadcast, gave two numbers
    and confirmed them: it waits for messages and has none. *)
Definition waitingForMessages : World unit :=
  exec (catchAllFlow (bare []) secret "u" "ok")
    (exec (catchAllFlow (bare []) secret "u" "987654321, 912345678")
       (exec (spamFlow "u")
          (exec (catchAllFlow (bare []) secret "u" " clave-whatsapp ")
             emptyWorld))).

End Demo.

(** ** More JavaScript string primitives *)
Module JSText.

(** [s.split(/[class]/)] : every separator character ends a piece. *)
Fixpoint splitEach (p : ascii -> bool) (cur : string) (s : string)
    : list string :=
  match s with
  | EmptyString => [cur]
  | String c r =>
      if p c then cur :: splitEach p EmptyString r
      else splitEach p (cur +:+ String c EmptyString) r
  end.

(** [s.includes(t)] *)
Fixpoint includesText (s t : string) : bool :=
  String.prefix t s ||
  match s with
  | EmptyString => false
  | String _ r => includesText r t
  end.

(** [s.endsWith(t)] *)
Definition endsWith (s t : string) : bool :=
  (String.length t <=? String.length s)%nat
  && bool_decide
       (String.substring (String.length s - String.length t)
          (String.length t) s = t).

(** [x || fallback] for an optional string: the fallback replaces a
    missing and an empty one. *)
Definition orElse (x : option string) (fallback : string) : string :=
  match x with
  | Some s => if JS.isEmpty s then fallback else s
  | None => fallback
  end.

(** A string that is there and not empty, as a condition tests it. *)
Definition truthy (x : option string) : option string :=
  match x with
  | Some s => if JS.isEmpty s then None else Some s
  | None => None
  end.

End JSText.

(** ** Reading identifiers from a file *)

(** A promise that resolves with a value or rejects with an error, of
    which the message is kept. *)
Inductive Result (A : Type) : Type :=
| Ok (a : A)
| Err (message : string).
Arguments Ok {A} a.
Arguments Err {A} message.

(** What the line reader of a file delivers: its lines, and then
    "close", or "error" with a message. *)
Record LineStream : Type := mkLineStream {
  stream_lines : list string;
  stream_error : option string
}.

(** [/[,;\t]/] *)
Definition isColumnSeparator (c : ascii) : bool :=
  match c with
  | ","%char | ";"%char | "009"%char => true
  | _ => false
  end.

(** [line.split(/[,;\t]/)[0]] *)
Definition firstColumnOf (line : string) : string :=
  hd EmptyString (JSText.splitEach isColumnSeparator EmptyString line).

(** The ["line"] listener of [parseCSVFile]. *)
Definition collectCsvLine (acc : Collected) (line : string) : Collected :=
  let firstColumn := JS.trim (firstColumnOf line) in
  if JS.isEmpty firstColumn then acc
  else collect acc (normalizePeruNumber firstColumn).

(** The inbound document of [documentFlow]: the sender, and the two
    fields of [ctx.message?.documentMessage] it reads. *)
Record DocumentCtx : Type := mkDocumentCtx {
  doc_from : string;
  doc_mimetype : option string;
  doc_fileName : option string
}.

(** The file operations of the handlers, over the collaborators' state:
    [existsSync(tmpDir)], [mkdirSync(tmpDir)], [provider.saveFile],
    [existsSync(path)], the line reader of [path], and
    [try { unlinkSync(path) } catch {}]. *)
Record Files (Ext : Type) : Type := mkFiles {
  tmpDirExists : Ext -> bool;
  mkdirTmp : Ext -> Result unit * Ext;
  saveFile : DocumentCtx -> Ext -> Result (option string) * Ext;
  fileExists : string -> Ext -> bool;
  readLines : string -> Ext -> LineStream * Ext;
  unlinkQuietly : string -> Ext -> Ext
}.
Arguments tmpDirExists {Ext} _ _.
Arguments mkdirTmp {Ext} _ _.
Arguments saveFile {Ext} _ _ _.
Arguments fileExists {Ext} _ _ _.
Arguments readLines {Ext} _ _ _.
Arguments unlinkQuietly {Ext} _ _ _.

(** [parseCSVFile]. *)
Definition parseCSVFile {Ext} (files : Files Ext) (filePath : string)
    (x : Ext) : Result (list string) * Ext :=
  if negb (fileExists files filePath x) then (Err "Archivo no encontrado", x)
  else
    let '(stream, x') := readLines files filePath x in
    let numbers :=
      validNumbers (foldl collectCsvLine (mkCollected [] ∅)
                      (stream_lines stream)) in
    match stream_error stream with
    | None => (Ok numbers, x')
    | Some message => (Err message, x')
    end.

(** ** Computations that can reject with a message *)

Definition R (Ext A : Type) : Type := World Ext -> Result A * World Ext.

Definition retR {Ext A} (a : A) : R Ext A := λ w, (Ok a, w).

Definition bindR {Ext A B} (c : R Ext A) (k : A -> R Ext B) : R Ext B :=
  λ w, match c w with
       | (Ok a, w') => k a w'
       | (Err message, w') => (Err message, w')
       end.

Declare Scope jsr_scope.
Delimit Scope jsr_scope with jsr.
Notation "x <- c ;; k" := (bindR c (λ x, k))
  (at level 20, c at level 99, k at level 200, only parsing) : jsr_scope.
Notation "c ;; k" := (bindR c (λ _, k))
  (at level 100, k at level 200, only parsing) : jsr_scope.

(** A computation of the other monad, inside this one. *)
Definition liftR {Ext A} (c : M Ext A) : R Ext A :=
  λ w, match c w with
       | (Ret a, w') => (Ok a, w')
       | (Throw, w') => (Err "", w')
       end.

(** Reading the collaborators' state. *)
Definition readExt {Ext A} (f : Ext -> A) : R Ext A :=
  λ w, (Ok (f (ext w)), w).

(** A file operation: it acts on the collaborators' state. *)
Definition callR {Ext A} (f : Ext -> Result A * Ext) : R Ext A :=
  λ w, let '(o, x) := f (ext w) in
       (o, mkWorld (authenticatedUsers w) (userStates w) x (trace w)).

(** [try { body } catch (error) { handler(error.message) }] *)
Definition catching {Ext} (body : R Ext unit) (handler : string -> M Ext unit)
    : M Ext unit :=
  λ w, match body w with
       | (Ok _, w') => (Ret tt, w')
       | (Err message, w') => handler message w'
       end.

(** ** The handler of uploaded documents *)

Definition validTypes : list string :=
  ["text/csv"; "text/plain"; "application/csv"; "application/vnd.ms-excel"].

(** [isValidType] of [documentFlow]. *)
Definition isValidType (mimeType fileName : string) : bool :=
  existsb (λ t, JSText.includesText mimeType t) validTypes
  || JSText.endsWith (JS.toLowerCase fileName) ".csv"
  || JSText.endsWith (JS.toLowerCase fileName) ".txt".

(** The report after the numbers of a file were merged. *)
Definition fileReport (state : UserState) (added : nat) : string :=
  let preview := take 10 (numbers state) in
  let hasMore := (10 <? length (numbers state))%nat in
  JS.join nl (filter (λ s, s ≠ "") [
    "*Archivo procesado!* Se agregaron " +:+ pretty added
      +:+ " numero(s) nuevo(s).";
    "";
    "*Total actual: " +:+ pretty (length (numbers state)) +:+ " numero(s)*";
    "";
    JS.join nl preview;
    if hasMore
    then "... y " +:+ pretty (length (numbers state) - 10) +:+ " mas"
    else "";
    "";
    "- Envia mas numeros para agregarlos";
    "- Escribe *Confirmar* para pasar a los mensajes";
    "- Escribe *Cancel* para cancelar"]).

Definition notExpectingDocument : string :=
  "Recibi un documento, pero no estoy esperando uno. Escribe *spam* para iniciar.".

Section Documents.

Context {Ext : Type}.
Variable files : Files Ext.

Local Open Scope jsr_scope.

(** The [try] block of [documentFlow], for a session whose record is
    [state]. *)
Definition receiveDocument (ctx : DocumentCtx) (state : UserState)
    : R Ext unit :=
  let from := doc_from ctx in
  let mimeType := JSText.orElse (doc_mimetype ctx) "" in
  let fileName := JSText.orElse (doc_fileName ctx) "documento" in
  if negb (isValidType mimeType fileName) then
    liftR (flowDynamic from
             "El archivo debe ser un CSV o TXT. Intenta de nuevo.")
  else
    liftR (flowDynamic from "Procesando archivo...") ;;
    tmpExists <- readExt (tmpDirExists files) ;;
    (if negb tmpExists then callR (mkdirTmp files) else retR tt) ;;
    savedPath <- callR (saveFile files ctx) ;;
    match JSText.truthy savedPath with
    | None =>
        liftR (flowDynamic from
                 "No pude descargar el archivo. Intenta enviarlo de nuevo.")
    | Some path =>
        extractedNumbers <- callR (parseCSVFile files path) ;;
        callR (λ x, (Ok tt, unlinkQuietly files path x)) ;;
        if (length extractedNumbers =? 0)%nat then
          liftR (flowDynamic from
                   "No encontre numeros validos en el archivo. Intenta de nuevo.")
        else
          let '(state1, added) := addNumbersToState state extractedNumbers in
          let state2 :=
            mkUserState confirming_numbers (numbers state1)
              (messages state1) in
          liftR (writeState from state2) ;;
          liftR (flowDynamic from (fileReport state2 added))
    end.

(** The action of [documentFlow]. *)
Definition documentFlow (ctx : DocumentCtx) : M Ext unit :=
  let from := doc_from ctx in
  (auth <- isAuthenticated from ;;
   if negb auth then ret tt
   else
     state <- getState from ;;
     match step state with
     | waiting_numbers | confirming_numbers =>
         catching (receiveDocument ctx state)
           (λ message, flowDynamic from ("Hubo un error: " +:+ message))
     | _ => flowDynamic from notExpectingDocument
     end)%js.

End Documents.

(** ** Bulk mail *)

(** The argument of [transporter.sendMail]. *)
Record Envelope : Type := mkEnvelope {
  env_from : string;
  env_to : string;
  env_subject : string;
  env_text : string;
  env_html : string
}.

(** The mail transport, over a state [MT] of its own. *)
Record MailTransport (MT : Type) : Type := mkMailTransport {
  sendMail : Envelope -> MT -> Result unit * MT
}.
Arguments sendMail {MT} _ _ _.

Record MailResult : Type := mkMailResult {
  mail_success : nat;
  mail_failed : nat;
  mail_errors : list string
}.

Section Mail.

Context {MT : Type}.
Variable transporter : MailTransport MT.
(** [EMAIL_CONFIG.auth.user] and [EMAIL_CONFIG.auth.pass] *)
Variable EMAIL_USER : string.
Variable EMAIL_PASS : string.

(** The body of the loop of [sendBulkEmails]. *)
Definition mailOne (subject text : string) (html : option string)
    (acc : MailResult * MT) (email : string) : MailResult * MT :=
  let '(r, s) := acc in
  match sendMail transporter
          (mkEnvelope EMAIL_USER email subject text (default text html)) s with
  | (Ok _, s') =>
      (mkMailResult (S (mail_success r)) (mail_failed r) (mail_errors r), s')
  | (Err message, s') =>
      (mkMailResult (mail_success r) (S (mail_failed r))
         (mail_errors r ++ [email +:+ ": " +:+ message]), s')
  end.

Definition sendBulkEmails (emails : list string) (subject text : string)
    (html : option string) (s : MT) : MailResult * MT :=
  foldl (mailOne subject text html) (mkMailResult 0 0 [], s) emails.

(** The fields of the body of a request to [/v1/email/send]: [emails]
    when it is an array, and the three texts. *)
Record MailBody : Type := mkMailBody {
  mb_emails : option (list string);
  mb_subject : option string;
  mb_text : option string;
  mb_html : option string
}.

Inductive MailReply : Type :=
| MailRefused (status : nat) (error : string)
| MailCompleted (result : MailResult).

(** The handler of [/v1/email/send]. *)
Definition emailSendRoute (body : MailBody) (s : MT) : MailReply * MT :=
  match mb_emails body with
  | None | Some [] => (MailRefused 400 "Se requiere un array de emails", s)
  | Some emails =>
      match JSText.truthy (mb_subject body), JSText.truthy (mb_text body) with
      | Some subject, Some text =>
          if JS.isEmpty EMAIL_USER || JS.isEmpty EMAIL_PASS then
            (MailRefused 500 "Configuracion de email incompleta", s)
          else
            let '(result, s') :=
              sendBulkEmails emails subject text (mb_html body) s in
            (MailCompleted result, s')
      | _, _ => (MailRefused 400 "Se requiere subject y text", s)
      end
  end.

End Mail.

(** ** The route for bulk dispatch *)

(** The fields of the body of a request to [/v1/whatsapp/bulk]:
    [numbers] and [messages] when they are arrays, the elements of
    [numbers] as [String] renders them, and [message]. *)
Record BulkBody : Type := mkBulkBody {
  body_numbers : option (list string);
  body_message : option string;
  body_messages : option (list string)
}.

Inductive BulkReply : Type :=
| BulkRefused (error : string) (invalidNumbers : option (list string))
| BulkAccepted (validCount messageCount : nat) (invalidNumbers : list string).

(** The loop that sorts [numbers] into [validNumbers] and
    [invalidNumbers]. *)
Definition sortNumber (acc : list string * list string) (num : string)
    : list string * list string :=
  match JSText.truthy (normalizePeruNumber num) with
  | Some normalized => (acc.1 ++ [normalized], acc.2)
  | None => (acc.1, acc.2 ++ [num])
  end.

Definition sortNumbers (numbers : list string) : list string * list string :=
  foldl sortNumber ([], []) numbers.

(** [messageList] *)
Definition messageListOf (body : BulkBody) : list string :=
  match body_messages body with
  | Some messages => messages
  | None =>
      match JSText.truthy (body_message body) with
      | Some message => [message]
      | None => []
      end
  end.

Section Routes.

Context {Ext : Type}.
Variable provider : Transport Ext.

Local Open Scope js_scope.

(** The handler of [/v1/whatsapp/bulk]: the reply, and the result of
    the dispatch it starts after replying. *)
Definition bulkRoute (body : BulkBody) : M Ext (BulkReply * option Counters) :=
  match body_numbers body with
  | None | Some [] =>
      ret (BulkRefused "Se requiere un array de numeros" None, None)
  | Some numbers =>
      let messageList := messageListOf body in
      if (length messageList =? 0)%nat then
        ret (BulkRefused "Se requiere al menos un mensaje" None, None)
      else
        let '(validNumbers, invalidNumbers) := sortNumbers numbers in
        if (length validNumbers =? 0)%nat then
          ret (BulkRefused "No se encontraron numeros validos"
                 (Some invalidNumbers), None)
        else
          let uniqueNumbers := arrayFromSet validNumbers in
          result <- sendBulkWhatsApp provider uniqueNumbers messageList None ;;
          ret (BulkAccepted (length validNumbers) (length messageList)
                 invalidNumbers, Some result)
  end.

End Routes.

(** ** The dispatch loop of the earlier revision *)
Module Earlier.

Record Sent : Type := mkSent {
  sent_success : nat;
  sent_failed : nat
}.

Section Loop.

Context {Ext : Type}.
Variable provider : Transport Ext.

Local Open Scope js_scope.

(** One iteration of the loop of the earlier [sendBulkWhatsApp], which
    sends one message to each number. *)
Definition iteration (total : nat) (message : string)
    (onProgress : ProgressSink Ext) (index : nat) (number : string)
    (c : Sent) : M Ext Sent :=
  let jid := number +:+ "@s.whatsapp.net" in
  r <- draw (randomBelow provider 5) ;;
  let baseDelay := r + 3 in
  let accumulatedDelay := baseDelay * 1000 * (index + 1) in
  emit (EvSleep (if (index =? 0)%nat then 0
                 else accumulatedDelay - baseDelay * 1000 * index)) ;;
  when (0 <? index)%nat (randomDelay provider 5000 3000) ;;
  c' <- tryCatch
          (call (λ o, EvSendMessage jid message (returned o))
             (sendMessage provider jid message) ;;
           ret (mkSent (S (sent_success c)) (sent_failed c)))
          (ret (mkSent (sent_success c) (S (sent_failed c)))) ;;
  reportProgress total onProgress index ;;
  ret c'.

Fixpoint dispatchFrom (total : nat) (message : string)
    (onProgress : ProgressSink Ext) (index : nat) (rest : list string)
    (c : Sent) : M Ext Sent :=
  match rest with
  | [] => ret c
  | number :: rest' =>
      c' <- iteration total message onProgress index number c ;;
      dispatchFrom total message onProgress (S index) rest' c'
  end.

Definition sendBulkWhatsApp (numbers : list string) (message : string)
    (onProgress : ProgressSink Ext) : M Ext Sent :=
  dispatchFrom (length numbers) message onProgress 0 numbers (mkSent 0 0).

End Loop.

End Earlier.

(** ** Vocabulary for the further properties *)

(** An event a dispatch to [numbers] with [messages] may log: a pause of
    at least a second, a check of one of the numbers, a send of one of
    the messages to the address of one of the numbers, or a call of the
    sink with a position in the list and its length. *)
Definition dispatchEvent (numbers messages : list string) (e : Event) : Prop :=
  match e with
  | EvSleep ms => 1000 ≤ ms
  | EvOnWhatsApp number _ => number ∈ numbers
  | EvSendMessage jid message _ =>
      ∃ number, number ∈ numbers ∧ jid = number +:+ "@s.whatsapp.net"
                ∧ message ∈ messages
  | EvProgress sent total =>
      total = length numbers ∧ 1 ≤ sent ≤ length numbers
  | EvReply _ _ => False
  end.

(** A transport of which every send resolves. *)
Definition deliversAll {Ext} (provider : Transport Ext) : Prop :=
  ∀ jid message x, (sendMessage provider jid message x).1 = Ret tt.

(** A transport of which the existence check, when there is one, never
    answers with a definitive "does not exist". *)
Definition neverAbsent {Ext} (provider : Transport Ext) : Prop :=
  ∀ onWhatsApp, vendor_onWhatsApp provider = Some onWhatsApp ->
    ∀ number x, reachableBy (onWhatsApp number x).1 = true.

(** The record of a session, the default one when the map has none. *)
Definition sessionOf {Ext} (w : World Ext) (from : string) : UserState :=
  default freshState (userStates w !! from).

(** The session is at one of the two steps that collect numbers. *)
Definition collectsNumbers (st : UserState) : Prop :=
  step st = waiting_numbers ∨ step st = confirming_numbers.

(** The session is at one of the two steps that collect messages. *)
Definition collectsMessages (st : UserState) : Prop :=
  step st = waiting_messages ∨ step st = confirming_messages.

(** The text reads as a cancellation in [catchAllFlow]. *)
Definition readsAsCancel (userMessage : string) : bool :=
  JS.includes ["cancel"; "cancelar"] (JS.toLowerCase userMessage).

(** The text reads as a confirmation in [catchAllFlow]. *)
Definition readsAsConfirm (userMessage : string) : bool :=
  JS.includes ["confirmar"; "confirm"; "ok"; "listo"]
    (JS.toLowerCase userMessage).

(** The two replies around a dispatch started from the conversation. *)
Definition dispatchStarting (st : UserState) : string :=
  JS.join nl [
    "*Iniciando envio!*";
    "";
    "Destinatarios: " +:+ pretty (length (numbers st));
    "Mensajes por destinatario: " +:+ pretty (length (messages st));
    "";
    "Esto puede tomar un momento..."].

Definition dispatchSummary (result : Counters) : string :=
  JS.join nl [
    "*Envio completado!*";
    "";
    "*Resultados:*";
    "- Enviados: " +:+ pretty (success result);
    "- Fallidos: " +:+ pretty (failed result);
    "- Sin WhatsApp: " +:+ pretty (notOnWhatsApp result);
    "";
    "Escribe *spam* para enviar mas mensajes."].

(** The session after a text at one of the steps that collect numbers:
    a confirmation moves on when there are numbers, other text adds the
    identifiers found in it. *)
Definition afterNumbersText (st : UserState) (userMessage : string)
    : UserState :=
  if readsAsConfirm userMessage then
    match numbers st with
    | [] => st
    | _ => mkUserState waiting_messages (numbers st) []
    end
  else
    match extractNumbers userMessage with
    | [] => st
    | extracted =>
        mkUserState confirming_numbers
          (numbers st ++ firstSeen (numbers st) extracted) (messages st)
    end.

(** The session after a text at one of the steps that collect messages:
    the send trigger ends the session when there are messages, other
    text is added as a message. *)
Definition afterMessagesText (st : UserState) (userMessage : string)
    : UserState :=
  if bool_decide (userMessage = "Enviar") then
    match messages st with
    | [] => st
    | _ => freshState
    end
  else
    mkUserState confirming_messages (numbers st)
      (messages st ++ [userMessage]).

(** The session after [catchAllFlow] has handled the trimmed text
    [userMessage], as a transition of a state machine: from the session
    [st] of a sender that is authorised or not. *)
Definition nextSession (st : UserState) (authorised : bool)
    (userMessage : string) : UserState :=
  if readsAsCancel userMessage then
    if authorised then freshState else st
  else if negb authorised then st
  else
    match step st with
    | waiting_numbers | confirming_numbers => afterNumbersText st userMessage
    | waiting_messages | confirming_messages =>
        afterMessagesText st userMessage
    | idle => st
    end.

(** Whether the sender is authorised after [catchAllFlow]. *)
Definition nextAuthorised (secret : string) (authorised : bool)
    (userMessage : string) : bool :=
  if readsAsCancel userMessage then false
  else authorised || bool_decide (userMessage = secret).

(** What the steps of a session promise about its lists. *)
Definition coherent (st : UserState) : Prop :=
  NoDup (numbers st)
  ∧ match step st with
    | idle | waiting_numbers => numbers st = [] ∧ messages st = []
    | confirming_numbers | waiting_messages =>
        numbers st ≠ [] ∧ messages st = []
    | confirming_messages => numbers st ≠ [] ∧ messages st ≠ []
    end.

(** Every session record is coherent, and every authorised key has a
    record. *)
Definition wellFormed {Ext} (w : World Ext) : Prop :=
  (∀ k st, userStates w !! k = Some st -> coherent st)
  ∧ (∀ k, k ∈ authenticatedUsers w -> is_Some (userStates w !! k)).

(** The identifiers a file offers: line by line, the first column,
    trimmed and normalised. *)
Definition csvCandidates (lines : list string) : list string :=
  omap (λ line, normalizePeruNumber (JS.trim (firstColumnOf line))) lines.

(** The session after the numbers [extracted] from a file were merged. *)
Definition afterFile (st : UserState) (extracted : list string) : UserState :=
  mkUserState confirming_numbers
    (numbers st ++ firstSeen (numbers st) extracted) (messages st).

(** ** More scripted collaborators *)
Module Samples.

(** A session with two numbers and one message, ready for the send
    trigger. *)
Definition readyToSend : World unit :=
  Demo.exec (catchAllFlow (Demo.bare []) Demo.secret "u" "hola a todos")
    Demo.waitingForMessages.

(** A session that started a broadcast and has given no number yet. *)
Definition waitingForNumbers : World unit :=
  Demo.exec (spamFlow "u")
    (Demo.exec (catchAllFlow (Demo.bare []) Demo.secret "u" "clave-whatsapp")
       Demo.emptyWorld).

(** File operations on a disk that holds the single file [saved] with
    the lines [lines]: the upload is saved there, the reader delivers
    the lines and closes. *)
Definition disk (saved : string) (lines : list string) : Files unit :=
  mkFiles unit (λ _, true) (λ x, (Ok tt, x))
    (λ _ x, (Ok (Some saved), x))
    (λ path _, bool_decide (path = saved))
    (λ _ x, (mkLineStream lines None, x))
    (λ _ x, x).

(** A disk on which the saved upload cannot be found again. *)
Definition lossyDisk : Files unit :=
  mkFiles unit (λ _, true) (λ x, (Ok tt, x))
    (λ _ x, (Ok (Some "tmp/upload.csv"), x))
    (λ _ _, false)
    (λ _ x, (mkLineStream [] None, x))
    (λ _ x, x).

Definition csvUpload : DocumentCtx :=
  mkDocumentCtx "u" (Some "text/csv") (Some "lista.csv").

End Samples.

(** ** Histories of the conversation *)

(** What can reach the four handlers. *)
Inductive Inbound : Type :=
| InText (from body : string)
| InSpam (from : string)
| InCancel (from : string)
| InDocument (ctx : DocumentCtx).

Section Histories.

Context {Ext : Type}.
Variable provider : Transport Ext.
Variable files : Files Ext.
Variable BOT_SECRET_KEY : string.

(** The handler an inbound event runs. *)
Definition handle (event : Inbound) : M Ext unit :=
  match event with
  | InText from body => catchAllFlow provider BOT_SECRET_KEY from body
  | InSpam from => spamFlow from
  | InCancel from => cancelFlow from
  | InDocument ctx => documentFlow files ctx
  end.

(** The world after the events of a history, one after the other. *)
Definition replay (events : list Inbound) (w : World Ext) : World Ext :=
  foldl (λ w event, (handle event w).2) w events.

End Histories.

(** * Properties *)

(** ** Strings *)

Lemma startsWith_one (s : string) (c : ascii) :
  JS.startsWith s (String c EmptyString) = JS.charAtIs s 0 c.
Proof.
  unfold JS.startsWith, JS.charAtIs.
  destruct s as [|a r]; simpl; [done|].
  destruct (ascii_dec c a) as [->|Hne].
  - rewrite bool_decide_true by done. by destruct r.
  - rewrite bool_decide_false by congruence. done.
Qed.

Lemma startsWith_two (s : string) (c d : ascii) :
  JS.startsWith s (String c (String d EmptyString))
  = JS.charAtIs s 0 c && JS.charAtIs s 1 d.
Proof.
  unfold JS.startsWith, JS.charAtIs.
  destruct s as [|a [|b r]]; simpl; try done.
  - destruct (ascii_dec c a); [|by case_bool_decide; [congruence|]].
    by rewrite andb_false_r.
  - destruct (ascii_dec c a) as [->|Hne].
    + rewrite bool_decide_true by done. simpl.
      destruct (ascii_dec d b) as [->|Hne].
      * rewrite bool_decide_true by done. by destruct r.
      * by rewrite bool_decide_false by congruence.
    + by rewrite bool_decide_false by congruence.
Qed.

Lemma removeChars_all (p q : ascii -> bool) (s : string) :
  (∀ c, p c = false -> q c = true) ->
  JS.allChars q (JS.removeChars p s) = true.
Proof.
  intros Hpq. induction s as [|c r IH]; simpl; [done|].
  destruct (p c) eqn:Hp; simpl; [done|].
  by rewrite (Hpq c Hp), IH.
Qed.

Lemma digits_all_digits (s : string) :
  JS.allChars JS.isDigit (JS.removeChars (λ c, negb (JS.isDigit c)) s) = true.
Proof. apply removeChars_all. intros c Hc. by apply negb_false_iff. Qed.

Lemma testDigits_spec (s : string) :
  JS.testDigits s = negb (JS.isEmpty s) && JS.allChars JS.isDigit s.
Proof. by destruct s. Qed.

(** ** The normaliser *)

(** What [normalizePeruNumber] computes, by the shape of the cleaned
    string alone. *)
Lemma normalize_by_shape (raw : string) :
  let cleaned := JS.removeChars (λ c, negb (JS.isDigit c)) raw in
  normalizePeruNumber raw =
    if hasNineDigitShape cleaned then Some ("51" +:+ cleaned)
    else if hasElevenDigitShape cleaned then Some cleaned
    else None.
Proof.
  intros cleaned. pose proof (digits_all_digits raw) as Hd.
  unfold normalizePeruNumber. fold cleaned in Hd |- *. clearbody cleaned.
  rewrite testDigits_spec, Hd, andb_true_r.
  rewrite startsWith_one, startsWith_two.
  unfold hasNineDigitShape, hasElevenDigitShape.
  destruct cleaned as [|c0 r0]; simpl; [done|].
  destruct (String.length r0 =? 8)%nat, (String.length r0 =? 10)%nat;
    simpl; rewrite ?andb_true_r, ?andb_false_r; done.
Qed.

Lemma lenient_by_shape (raw : string) :
  let cleaned := JS.removeChars Lenient.isStripped raw in
  Lenient.normalizePeruNumber raw =
    if negb (JS.allChars JS.isDigit cleaned) then None
    else if hasNineDigitShape cleaned then Some ("51" +:+ cleaned)
    else if hasElevenDigitShape cleaned then Some cleaned
    else None.
Proof.
  intros cleaned. unfold Lenient.normalizePeruNumber.
  fold cleaned. clearbody cleaned.
  rewrite testDigits_spec, startsWith_one, startsWith_two.
  unfold hasNineDigitShape, hasElevenDigitShape.
  destruct cleaned as [|c0 r0]; [done|].
  cbn [JS.isEmpty negb andb].
  destruct (JS.allChars JS.isDigit (String c0 r0)); cbn [negb]; [|done].
  rewrite (andb_comm (JS.charAtIs _ 0 "9")).
  destruct (_ && _); [done|].
  rewrite (andb_comm _ (_ =? 11)%nat), <- andb_assoc.
  destruct (_ =? 11)%nat; cbn [andb]; [|done].
  by destruct (JS.charAtIs _ 0 "5"), (JS.charAtIs _ 1 "1"),
    (JS.charAtIs _ 2 "9").
Qed.

(** Every result of the normaliser is a canonical Identifier. *)
Lemma normalize_identifier (raw r : string) :
  normalizePeruNumber raw = Some r -> isIdentifier r = true.
Proof.
  rewrite normalize_by_shape.
  pose proof (digits_all_digits raw) as Hd.
  set (cleaned := JS.removeChars _ raw) in *. clearbody cleaned.
  unfold isIdentifier.
  destruct (hasNineDigitShape cleaned) eqn:H9.
  - intros [= <-].
    change ("51" +:+ cleaned) with (String "5" (String "1" cleaned)).
    unfold hasNineDigitShape in H9. apply andb_true_iff in H9 as [Hl Hc].
    apply Nat.eqb_eq in Hl. unfold hasElevenDigitShape.
    cbn [JS.allChars JS.isDigit andb String.length]. rewrite Hd, Hl.
    destruct cleaned; [done|]. exact Hc.
  - destruct (hasElevenDigitShape cleaned) eqn:H11; [|done].
    intros [= <-]. by rewrite Hd.
Qed.

(** C3. [normalizePeruNumber] is a total function of its input: with
    nine digits of which the first is 9 it returns them behind the
    country code 51, with eleven digits that start 51 and continue with
    9 it returns them as they are, and it returns nothing for any other
    shape.  The earlier revision does the same on its cleaned string and
    returns nothing as soon as a non-digit remains.  The three scenarios
    of the specification evaluate as it says. *)
Theorem normalize_total_by_shape :
  (∀ raw : string,
     let cleaned := JS.removeChars (λ c, negb (JS.isDigit c)) raw in
     match normalizePeruNumber raw with
     | Some r =>
         (hasNineDigitShape cleaned = true ∧ r = "51" +:+ cleaned)
         ∨ (hasElevenDigitShape cleaned = true ∧ r = cleaned)
     | None =>
         hasNineDigitShape cleaned = false
         ∧ hasElevenDigitShape cleaned = false
     end)
  ∧ (∀ raw : string,
       let cleaned := JS.removeChars Lenient.isStripped raw in
       match Lenient.normalizePeruNumber raw with
       | Some r =>
           JS.allChars JS.isDigit cleaned = true
           ∧ ((hasNineDigitShape cleaned = true ∧ r = "51" +:+ cleaned)
              ∨ (hasElevenDigitShape cleaned = true ∧ r = cleaned))
       | None =>
           JS.allChars JS.isDigit cleaned = false
           ∨ (hasNineDigitShape cleaned = false
              ∧ hasElevenDigitShape cleaned = false)
       end)
  ∧ normalizePeruNumber "987654321" = Some "51987654321"
  ∧ normalizePeruNumber "51987654321" = Some "51987654321"
  ∧ normalizePeruNumber "123456789" = None
  ∧ Lenient.normalizePeruNumber "987654321" = Some "51987654321"
  ∧ Lenient.normalizePeruNumber "51987654321" = Some "51987654321"
  ∧ Lenient.normalizePeruNumber "123456789" = None.
Proof.
  split; [|split; [|by vm_compute]].
  - intros raw cleaned. rewrite normalize_by_shape. fold cleaned.
    destruct (hasNineDigitShape cleaned) eqn:H9; [by left|].
    destruct (hasElevenDigitShape cleaned) eqn:H11; [by right|done].
  - intros raw cleaned. rewrite lenient_by_shape. fold cleaned.
    destruct (JS.allChars JS.isDigit cleaned); cbn [negb]; [|by left].
    destruct (hasNineDigitShape cleaned) eqn:H9; [by split; [|left]|].
    destruct (hasElevenDigitShape cleaned) eqn:H11;
      [by split; [|right]|by right].
Qed.

(** ** First-seen order *)

Lemma firstSeen_elem (l before : list string) (x : string) :
  x ∈ firstSeen before l ↔ x ∈ l ∧ x ∉ before.
Proof.
  revert before. induction l as [|y r IH]; intros before; simpl.
  - set_solver.
  - case_bool_decide as Hy.
    + rewrite IH. set_solver.
    + rewrite elem_of_cons, IH. set_unfold.
      destruct (decide (x = y)) as [->|Hne]; naive_solver.
Qed.

Lemma firstSeen_NoDup (l before : list string) : NoDup (firstSeen before l).
Proof.
  revert before. induction l as [|y r IH]; intros before; simpl.
  - constructor.
  - case_bool_decide; [apply IH|].
    constructor; [|apply IH].
    rewrite firstSeen_elem. set_solver.
Qed.

Lemma firstSeen_sublist (l before : list string) :
  sublist (firstSeen before l) l.
Proof.
  revert before. induction l as [|y r IH]; intros before; simpl; [done|].
  case_bool_decide; [apply sublist_cons|apply sublist_skip]; apply IH.
Qed.

Lemma firstSeen_present (l before : list string) :
  (∀ x, x ∈ l -> x ∈ before) -> firstSeen before l = [].
Proof.
  intros Hin. induction l as [|y r IH]; simpl; [done|].
  rewrite bool_decide_true by (apply Hin; left).
  apply IH. intros x Hx. apply Hin. by right.
Qed.

(** Two lists that were already cleaned stay as they are. *)
Lemma firstSeen_fixed (l : list string) : NoDup l -> firstSeen [] l = l.
Proof.
  cut (∀ before, NoDup l -> (∀ x, x ∈ l -> x ∉ before) ->
                 firstSeen before l = l).
  { intros H Hl. apply H; [done|]. intros x _. apply not_elem_of_nil. }
  induction l as [|y r IH]; intros before Hnd Hdis; simpl; [done|].
  apply NoDup_cons in Hnd as [Hy Hr].
  rewrite bool_decide_false by (apply Hdis; left).
  f_equal. apply IH; [done|].
  intros x Hx. rewrite elem_of_app, list_elem_of_singleton.
  intros [Hb| ->]; [|done]. eapply Hdis; [|exact Hb]. by right.
Qed.

(** ** Merging into a session's numbers *)

Lemma addOne_fold (news : list string) (m : Merge) :
  (∀ x, x ∈ existing m ↔ x ∈ merged m) ->
  let m' := foldl addOne m news in
  merged m' = merged m ++ firstSeen (merged m) news
  ∧ added m' = added m + length (firstSeen (merged m) news)
  ∧ (∀ x, x ∈ existing m' ↔ x ∈ merged m').
Proof.
  revert m. induction news as [|y r IH]; intros m Hinv; simpl.
  - by rewrite app_nil_r, Nat.add_0_r.
  - destruct (decide (y ∈ merged m)) as [Hy|Hy].
    + assert (addOne m y = m) as ->.
      { unfold addOne. by rewrite bool_decide_true by by apply Hinv. }
      rewrite bool_decide_true by done. by apply IH.
    + assert (addOne m y =
              mkMerge (merged m ++ [y]) ({[ y ]} ∪ existing m) (S (added m)))
        as ->.
      { unfold addOne. by rewrite bool_decide_false by by rewrite Hinv. }
      rewrite bool_decide_false by done.
      set (m1 := mkMerge _ _ _).
      destruct (IH m1) as (Hm & Ha & He).
      { intros x. subst m1. simpl. set_unfold. rewrite Hinv. naive_solver. }
      subst m1. simpl in *. split; [|split; [|exact He]].
      * by rewrite Hm, <- app_assoc.
      * rewrite Ha. lia.
Qed.

Lemma arrayFromSet_firstSeen (arr : list string) :
  arrayFromSet arr = firstSeen [] arr.
Proof.
  unfold arrayFromSet.
  destruct (addOne_fold arr (mkMerge [] ∅ 0)) as (Hm & _); [|exact Hm].
  intros x. simpl. set_solver.
Qed.

(** C9. Merging a list into a session's numbers keeps the numbers that
    were there, in their order, and appends each identifier that was not
    there once, at its first occurrence; the count returned is the number
    appended.  When every identifier of the list is already present the
    count is 0 and the state is the one given. *)
Theorem addNumbers_merge_idempotent (state : UserState)
    (newNumbers : list string) :
  let appended := firstSeen (numbers state) newNumbers in
  addNumbersToState state newNumbers
  = (mkUserState (step state) (numbers state ++ appended) (messages state),
     length appended)
  ∧ NoDup appended
  ∧ sublist appended newNumbers
  ∧ (∀ x, x ∈ appended ↔ x ∈ newNumbers ∧ x ∉ numbers state)
  ∧ ((∀ x, x ∈ newNumbers -> x ∈ numbers state) ->
     addNumbersToState state newNumbers = (state, 0)).
Proof.
  intros appended.
  assert (addNumbersToState state newNumbers
          = (mkUserState (step state) (numbers state ++ appended)
               (messages state), length appended)) as Heq.
  { unfold addNumbersToState.
    destruct (addOne_fold newNumbers
                (mkMerge (numbers state) (list_to_set (numbers state)) 0))
      as (Hm & Ha & _).
    { intros x. simpl. apply elem_of_list_to_set. }
    simpl in Hm, Ha. by rewrite Hm, Ha. }
  split; [exact Heq|].
  split; [apply firstSeen_NoDup|].
  split; [apply firstSeen_sublist|].
  split; [intros x; apply firstSeen_elem|].
  intros Hin. rewrite Heq. subst appended.
  rewrite (firstSeen_present _ _ Hin), app_nil_r. by destruct state.
Qed.

(** ** The extractor *)

Lemma collect_fold (g : Collected -> string -> Collected)
    (f : string -> option string) (items : list string) (acc : Collected) :
  (∀ a i, g a i = collect a (f i)) ->
  (∀ i r, f i = Some r -> JS.isEmpty r = false) ->
  (∀ x, x ∈ seen acc ↔ x ∈ validNumbers acc) ->
  let acc' := foldl g acc items in
  validNumbers acc'
  = validNumbers acc ++ firstSeen (validNumbers acc) (omap f items)
  ∧ (∀ x, x ∈ seen acc' ↔ x ∈ validNumbers acc').
Proof.
  intros Hg Hf. revert acc.
  induction items as [|i r IH]; intros acc Hinv; simpl.
  - by rewrite app_nil_r.
  - rewrite Hg. unfold collect.
    destruct (f i) as [n|] eqn:Hn; simpl; [|by apply IH].
    rewrite (Hf _ _ Hn). cbn [negb andb].
    rewrite (bool_decide_ext _ _ (Hinv n)).
    case_bool_decide as Hy; cbn [negb]; [by apply IH|].
    set (a1 := mkCollected _ _).
    destruct (IH a1) as (Hv & Hs).
    { intros x. subst a1. simpl. set_unfold. rewrite Hinv. naive_solver. }
    subst a1. simpl in *. split; [|exact Hs].
    by rewrite Hv, <- app_assoc.
Qed.

Lemma normalize_nonempty (raw r : string) :
  normalizePeruNumber raw = Some r -> JS.isEmpty r = false.
Proof.
  intros H. apply normalize_identifier in H.
  destruct r; [discriminate H|done].
Qed.

Lemma collectLine_collect (acc : Collected) (line : string) :
  collectLine acc line = collect acc (normalizePeruNumber (JS.trim line)).
Proof.
  unfold collectLine. destruct (JS.trim line); [done|done].
Qed.

Lemma firstSeen_nil_inv (l : list string) : firstSeen [] l = [] -> l = [].
Proof.
  destruct l as [|x r]; [done|]. simpl. discriminate.
Qed.

(** The extractor is line mode, or pattern-scan mode when line mode
    finds nothing, each in order of first sight. *)
Lemma extractNumbers_modes (text : string) :
  extractNumbers text =
    match firstSeen [] (lineCandidates text) with
    | [] => firstSeen [] (patternCandidates text)
    | found => found
    end.
Proof.
  unfold extractNumbers.
  destruct (collect_fold collectLine
              (λ fragment, normalizePeruNumber (JS.trim fragment))
              (JS.split isLineSeparator text) (mkCollected [] ∅))
    as (Hv & Hs).
  { apply collectLine_collect. }
  { intros i r. apply normalize_nonempty. }
  { intros x. simpl. set_solver. }
  simpl in Hv. fold (lineCandidates text) in Hv.
  set (acc := foldl collectLine _ _) in *.
  destruct (firstSeen [] (lineCandidates text)) as [|n found] eqn:Hl.
  - rewrite Hv. simpl.
    destruct (collect_fold collectPattern normalizePeruNumber
                (JS.matchAll phonePattern text) acc) as (Hp & _).
    { done. }
    { apply normalize_nonempty. }
    { exact Hs. }
    rewrite Hp, Hv. done.
  - by rewrite Hv.
Qed.

(** C4. [extractNumbers] returns canonical Identifiers without
    duplicates, in order of first sight: those of line mode, and those of
    pattern-scan mode only when line mode finds none.  The scenario of
    the specification extracts as it says, also with repeated inputs. *)
Theorem extractNumbers_first_seen_no_duplicates (text : string) :
  extractNumbers text
  = match firstSeen [] (lineCandidates text) with
    | [] => firstSeen [] (patternCandidates text)
    | found => found
    end
  ∧ NoDup (extractNumbers text)
  ∧ Forall (λ n, isIdentifier n = true) (extractNumbers text)
  ∧ extractNumbers ("987654321, 912345678" +:+ nl +:+ "51999999999")
    = ["51987654321"; "51912345678"; "51999999999"]
  ∧ extractNumbers ("987654321, 912345678, 51987654321" +:+ nl
                    +:+ "51999999999;912345678" +:+ nl +:+ "51999999999")
    = ["51987654321"; "51912345678"; "51999999999"]
  ∧ extractNumbers "llama al +51 987 654 321 o al 912-345-678 hoy"
    = ["51987654321"; "51912345678"].
Proof.
  split; [apply extractNumbers_modes|].
  split; [|split; [|by vm_compute]].
  - rewrite extractNumbers_modes.
    destruct (firstSeen [] (lineCandidates text)) eqn:Hl.
    + apply firstSeen_NoDup.
    + rewrite <- Hl. apply firstSeen_NoDup.
  - assert (∀ l, (∀ n, n ∈ l -> isIdentifier n = true) ->
                 Forall (λ n, isIdentifier n = true) (firstSeen [] l)) as Hall.
    { intros l Hl. apply Forall_forall. intros n Hn.
      apply firstSeen_elem in Hn as [Hn _]. by apply Hl. }
    rewrite extractNumbers_modes.
    destruct (firstSeen [] (lineCandidates text)) eqn:Hl.
    + apply Hall. intros n Hn. unfold patternCandidates in Hn.
      apply list_elem_of_omap in Hn as (raw & _ & Hraw).
      by apply normalize_identifier in Hraw.
    + rewrite <- Hl. apply Hall. intros n Hn. unfold lineCandidates in Hn.
      apply list_elem_of_omap in Hn as (raw & _ & Hraw).
      by apply normalize_identifier in Hraw.
Qed.

(** ** The dispatch loop *)

Section Dispatch.

Context {Ext : Type}.
Variable provider : Transport Ext.

Lemma stepsTo_refl (w : World Ext) : stepsTo w [] w.
Proof. split; [done|]. by rewrite app_nil_r. Qed.

Lemma stepsTo_trans (w1 w2 w3 : World Ext) (e1 e2 : list Event) :
  stepsTo w1 e1 w2 -> stepsTo w2 e2 w3 -> stepsTo w1 (e1 ++ e2) w3.
Proof.
  intros [[Ha1 Hs1] Ht1] [[Ha2 Hs2] Ht2]. split; [split; congruence|].
  by rewrite Ht2, Ht1, app_assoc.
Qed.

Lemma randomDelay_steps (n base : nat) (w : World Ext) :
  ∃ ms w', randomDelay provider n base w = (Ret tt, w')
           ∧ stepsTo w [EvSleep ms] w'.
Proof.
  unfold randomDelay, bind, draw, emit.
  destruct (randomBelow provider n (ext w)) as [r x] eqn:Hr.
  eexists _, _. split; [reflexivity|]. by split.
Qed.

(** The pauses of the loop: they return, and log nothing but a sleep. *)
Lemma pause_steps (b : bool) (n base : nat) (w : World Ext) :
  ∃ evs w', when b (randomDelay provider n base) w = (Ret tt, w')
            ∧ stepsTo w evs w' ∧ sendsOf evs = [] ∧ progressOf evs = [].
Proof.
  destruct b; simpl.
  - destruct (randomDelay_steps n base w) as (ms & w' & Hr & Hs).
    by exists [EvSleep ms], w'.
  - exists [], w. split; [done|]. split; [apply stepsTo_refl|done].
Qed.

Lemma sendsOf_app (e1 e2 : list Event) :
  sendsOf (e1 ++ e2) = sendsOf e1 ++ sendsOf e2.
Proof. apply omap_app. Qed.

Lemma progressOf_app (e1 e2 : list Event) :
  progressOf (e1 ++ e2) = progressOf e1 ++ progressOf e2.
Proof. apply omap_app. Qed.

(** The payload loop for one recipient: the payloads are sent in order;
    it returns when all were delivered, and throws at the first send
    that throws, without sending the payloads after it. *)
Lemma sendMessages_steps (jid : string) (total : nat) (rest : list string)
    (msgIndex : nat) (w : World Ext) :
  ∃ o evs w',
    sendMessages provider jid total msgIndex rest w = (o, w')
    ∧ stepsTo w evs w' ∧ progressOf evs = []
    ∧ match o with
      | Ret _ => sendsOf evs = map (λ m, (jid, m, true)) rest
      | Throw =>
          ∃ sent m skipped,
            rest = sent ++ m :: skipped
            ∧ sendsOf evs = map (λ m, (jid, m, true)) sent ++ [(jid, m, false)]
      end.
Proof.
  revert msgIndex w. induction rest as [|m rest IH]; intros msgIndex w.
  - exists (Ret tt), [], w. simpl.
    split; [done|]. split; [apply stepsTo_refl|done].
  - simpl. unfold bind at 1, call.
    destruct (sendMessage provider jid m (ext w)) as [[[]|] x] eqn:Hsend.
    + set (w1 := mkWorld _ _ _ _).
      assert (stepsTo w [EvSendMessage jid m true] w1) as H1 by by split.
      unfold bind at 1.
      destruct (pause_steps (msgIndex <? total - 1)%nat 2000 1000 w1)
        as (e2 & w2 & -> & H2 & Hs2 & Hp2).
      destruct (IH (S msgIndex) w2) as (o & e3 & w3 & -> & H3 & Hp3 & Ho).
      exists o, ([EvSendMessage jid m true] ++ e2 ++ e3), w3.
      split; [done|].
      split; [eauto using stepsTo_trans|].
      split; [by rewrite !progressOf_app, Hp2, Hp3|].
      rewrite !sendsOf_app, Hs2. simpl.
      destruct o as [[]|].
      * by rewrite Ho.
      * destruct Ho as (sent & m' & skipped & -> & ->).
        by exists (m :: sent), m', skipped.
    + eexists Throw, [EvSendMessage jid m false], _.
      split; [reflexivity|]. split; [by split|]. split; [done|].
      by exists [], m, rest.
Qed.

(** The existence check never throws; with no check available it
    answers "reachable" and calls nothing. *)
Lemma checkWhatsApp_run (number : string) (w : World Ext) :
  checkWhatsApp provider number w =
    match vendor_onWhatsApp provider with
    | None => (Ret true, w)
    | Some onWhatsApp =>
        let '(answer, x) := onWhatsApp number (ext w) in
        (Ret (reachableBy answer),
         mkWorld (authenticatedUsers w) (userStates w) x
           (trace w ++ [EvOnWhatsApp number answer]))
    end.
Proof.
  unfold checkWhatsApp, tryCatch.
  destruct (vendor_onWhatsApp provider) as [onWhatsApp|]; [|done].
  unfold bind, call.
  destruct (onWhatsApp number (ext w)) as [[[[|first others]|]|] x]; done.
Qed.

Lemma checkWhatsApp_steps (number : string) (w : World Ext) :
  ∃ has evs w', checkWhatsApp provider number w = (Ret has, w')
                ∧ stepsTo w evs w' ∧ sendsOf evs = [] ∧ progressOf evs = [].
Proof.
  rewrite checkWhatsApp_run.
  destruct (vendor_onWhatsApp provider) as [onWhatsApp|].
  - destruct (onWhatsApp number (ext w)) as [answer x].
    eexists _, [EvOnWhatsApp number answer], _.
    split; [reflexivity|]. by split.
  - exists true, [], w. split; [done|]. split; [apply stepsTo_refl|done].
Qed.

(** The [try] statement for one recipient, by the answer of the check. *)
Lemma attempt_run (messages : list string) (number : string) (c : Counters)
    (w : World Ext) :
  attempt provider messages number c w =
    match checkWhatsApp provider number w with
    | (Ret true, w1) =>
        match sendMessages provider (number +:+ "@s.whatsapp.net")
                (length messages) 0 messages w1 with
        | (Ret _, w2) => (Ret (bump Delivered c, Normal), w2)
        | (Throw, w2) => (Ret (bump Failed c, Normal), w2)
        end
    | (Ret false, w1) => (Ret (bump Unreachable c, Continue), w1)
    | (Throw, w1) => (Ret (bump Failed c, Normal), w1)
    end.
Proof.
  unfold attempt, tryCatch, bind at 1.
  destruct (checkWhatsApp provider number w) as [[[|]|] w1]; try done.
  cbn [negb]. unfold bind.
  by destruct (sendMessages _ _ _ _ _ w1) as [[[]|] w2].
Qed.

Lemma attempt_steps (messages : list string) (number : string) (c : Counters)
    (w : World Ext) :
  ∃ v evs w',
    attempt provider messages number c w = (Ret (bump v c, completionOf v), w')
    ∧ stepsTo w evs w' ∧ progressOf evs = [].
Proof.
  rewrite attempt_run.
  destruct (checkWhatsApp_steps number w) as (has & e1 & w1 & -> & H1 & _ & Hp1).
  destruct has.
  - destruct (sendMessages_steps (number +:+ "@s.whatsapp.net")
                (length messages) messages 0 w1)
      as (o & e2 & w2 & -> & H2 & Hp2 & _).
    destruct o as [[]|].
    + exists Delivered, (e1 ++ e2), w2. split; [done|].
      split; [eauto using stepsTo_trans|]. by rewrite progressOf_app, Hp1, Hp2.
    + exists Failed, (e1 ++ e2), w2. split; [done|].
      split; [eauto using stepsTo_trans|]. by rewrite progressOf_app, Hp1, Hp2.
  - by exists Unreachable, e1, w1.
Qed.

(** One iteration either counts its recipient under exactly one verdict,
    calling the sink unless the verdict is [Unreachable], or is cut short
    by a sink that throws. *)
Lemma iteration_steps (total : nat) (messages : list string)
    (onProgress : ProgressSink Ext) (index : nat) (number : string)
    (c : Counters) (w : World Ext) :
  ∃ o evs w',
    iteration provider total messages onProgress index number c w = (o, w')
    ∧ stepsTo w evs w'
    ∧ match o with
      | Ret c' =>
          ∃ v, c' = bump v c
               ∧ progressOf evs
                 = match onProgress with
                   | Some _ => progressFor total index [v]
                   | None => []
                   end
      | Throw =>
          ∃ sink sent x, onProgress = Some sink
                         ∧ (sink sent total x).1 = Throw
      end.
Proof.
  unfold iteration. unfold bind at 1.
  destruct (pause_steps (0 <? index)%nat 5000 3000 w)
    as (e1 & w1 & -> & H1 & _ & Hp1).
  unfold bind at 1.
  destruct (attempt_steps messages number c w1) as (v & e2 & w2 & -> & H2 & Hp2).
  pose proof (stepsTo_trans _ _ _ _ _ H1 H2) as H12.
  assert (progressOf (e1 ++ e2) = []) as Hp12
    by by rewrite progressOf_app, Hp1, Hp2.
  destruct (decide (v = Unreachable)) as [->|Hv].
  { exists (Ret (bump Unreachable c)), (e1 ++ e2), w2.
    split; [done|]. split; [done|]. exists Unreachable.
    split; [done|]. rewrite Hp12. by destruct onProgress. }
  assert (completionOf v = Normal) as -> by by destruct v.
  assert (progressFor total index [v] = [(index + 1, total)]) as Hpf
    by by destruct v.
  unfold bind at 1, reportProgress.
  destruct onProgress as [sink|].
  - unfold call. destruct (sink (index + 1) total (ext w2)) as [[[]|] x] eqn:Hs.
    + eexists (Ret (bump v c)), ((e1 ++ e2) ++ [EvProgress (index + 1) total]), _.
      split; [reflexivity|].
      split; [eapply stepsTo_trans; [exact H12|by split]|].
      exists v. split; [done|]. by rewrite progressOf_app, Hp12, Hpf.
    + eexists Throw, ((e1 ++ e2) ++ [EvProgress (index + 1) total]), _.
      split; [reflexivity|].
      split; [eapply stepsTo_trans; [exact H12|by split]|].
      exists sink, (index + 1), (ext w2). by rewrite Hs.
  - exists (Ret (bump v c)), (e1 ++ e2), w2.
    split; [done|]. split; [done|]. by exists v.
Qed.

Lemma tallyFrom_sum (vs : list Verdict) (c : Counters) :
  success (tallyFrom c vs) + failed (tallyFrom c vs)
  + notOnWhatsApp (tallyFrom c vs)
  = success c + failed c + notOnWhatsApp c + length vs.
Proof.
  revert c. induction vs as [|v vs IH]; intros c; simpl; [lia|].
  rewrite IH. destruct v; simpl; lia.
Qed.

(** The loop gives every remaining recipient one verdict, and calls the
    sink for those whose verdict is not [Unreachable]; only a sink that
    throws ends it early. *)
Lemma dispatchFrom_steps (total : nat) (messages : list string)
    (onProgress : ProgressSink Ext) (rest : list string) (index : nat)
    (c : Counters) (w : World Ext) :
  ∃ o evs w',
    dispatchFrom provider total messages onProgress index rest c w = (o, w')
    ∧ stepsTo w evs w'
    ∧ match o with
      | Ret c' =>
          ∃ vs, length vs = length rest ∧ c' = tallyFrom c vs
                ∧ progressOf evs
                  = match onProgress with
                    | Some _ => progressFor total index vs
                    | None => []
                    end
      | Throw =>
          ∃ sink sent x, onProgress = Some sink
                         ∧ (sink sent total x).1 = Throw
      end.
Proof.
  revert index c w. induction rest as [|number rest IH]; intros index c w.
  - exists (Ret c), [], w. split; [done|]. split; [apply stepsTo_refl|].
    exists []. by destruct onProgress.
  - simpl. unfold bind.
    destruct (iteration_steps total messages onProgress index number c w)
      as (o1 & e1 & w1 & -> & H1 & Ho1).
    destruct o1 as [c1|].
    + destruct Ho1 as (v & -> & Hp1).
      destruct (IH (S index) (bump v c) w1) as (o & e2 & w2 & -> & H2 & Ho).
      exists o, (e1 ++ e2), w2. split; [done|].
      split; [eauto using stepsTo_trans|].
      destruct o as [c2|]; [|done].
      destruct Ho as (vs & Hlen & -> & Hp2).
      exists (v :: vs). split; [by simpl; rewrite Hlen|]. split; [done|].
      rewrite progressOf_app, Hp1, Hp2.
      destruct onProgress; [|done]. simpl. by rewrite app_nil_r.
    + by exists Throw, e1, w1.
Qed.

(** With a sink that returns (or none) every iteration returns. *)
Lemma dispatchFrom_returns (total : nat) (messages : list string)
    (onProgress : ProgressSink Ext) (rest : list string) (index : nat)
    (c : Counters) (w : World Ext) :
  sinkReturns onProgress ->
  ∃ c' w', dispatchFrom provider total messages onProgress index rest c w
           = (Ret c', w').
Proof.
  intros Hsink.
  destruct (dispatchFrom_steps total messages onProgress rest index c w)
    as (o & evs & w' & Hrun & _ & Ho).
  destruct o as [c'|]; [by eauto|].
  destruct Ho as (sink & sent & x & Hs & Hthrow).
  by rewrite (Hsink sink Hs) in Hthrow.
Qed.

(** C1. A run of [sendBulkWhatsApp] that completes has given each of
    the K recipients exactly one of the three verdicts, so that its
    counters add up to K.  No failure of a recipient ends the loop: the
    run completes whenever the progress sink returns, whatever the
    transport does, and a run that does not complete was ended by the
    sink throwing. *)
Theorem dispatch_counts_each_recipient_once (numbers messages : list string)
    (onProgress : ProgressSink Ext) (w : World Ext) :
  match sendBulkWhatsApp provider numbers messages onProgress w with
  | (Ret c, _) =>
      (∃ vs, length vs = length numbers
             ∧ c = tallyFrom (mkCounters 0 0 0) vs)
      ∧ success c + failed c + notOnWhatsApp c = length numbers
  | (Throw, _) =>
      ∃ sink sent x, onProgress = Some sink
                     ∧ (sink sent (length numbers) x).1 = Throw
  end
  ∧ (sinkReturns onProgress ->
     ∃ c w', sendBulkWhatsApp provider numbers messages onProgress w
             = (Ret c, w')).
Proof.
  unfold sendBulkWhatsApp. split; [|apply dispatchFrom_returns].
  destruct (dispatchFrom_steps (length numbers) messages onProgress numbers 0
              (mkCounters 0 0 0) w) as (o & evs & w' & -> & _ & Ho).
  destruct o as [c|]; [|done].
  destruct Ho as (vs & Hlen & -> & _).
  split; [by exists vs|]. rewrite tallyFrom_sum. simpl. lia.
Qed.

(** C6. The recipient is treated as reachable, and its payloads are
    sent, when the existence check is absent, when the check throws and
    when its answer has no first entry; only an answer whose first entry
    says the number does not exist counts the recipient as unreachable,
    and then nothing is sent: the check is the only call logged.  A
    delivery starts by sending the first payload. *)
Theorem existence_check_fails_open (messages : list string) (number : string)
    (c : Counters) (w : World Ext) :
  let jid := number +:+ "@s.whatsapp.net" in
  let deliver := λ w1 : World Ext,
    match sendMessages provider jid (length messages) 0 messages w1 with
    | (Ret _, w2) => (Ret (bump Delivered c, Normal), w2)
    | (Throw, w2) => (Ret (bump Failed c, Normal), w2)
    end in
  match vendor_onWhatsApp provider with
  | None => attempt provider messages number c w = deliver w
  | Some onWhatsApp =>
      let '(answer, x) := onWhatsApp number (ext w) in
      let w1 := mkWorld (authenticatedUsers w) (userStates w) x
                  (trace w ++ [EvOnWhatsApp number answer]) in
      match answer with
      | Ret (Some (first :: _)) =>
          if entry_exists first
          then attempt provider messages number c w = deliver w1
          else attempt provider messages number c w
               = (Ret (mkCounters (success c) (failed c)
                         (S (notOnWhatsApp c)), Continue), w1)
      | _ => attempt provider messages number c w = deliver w1
      end
  end
  ∧ (∀ total m rest w1,
       ∃ ok evs,
         trace (sendMessages provider jid total 0 (m :: rest) w1).2
         = trace w1 ++ EvSendMessage jid m ok :: evs).
Proof.
  intros jid deliver. split.
  - rewrite attempt_run, checkWhatsApp_run. fold jid.
    destruct (vendor_onWhatsApp provider) as [onWhatsApp|]; [|done].
    destruct (onWhatsApp number (ext w)) as [[[[|first others]|]|] x];
      try done.
    simpl. by destruct (entry_exists first).
  - intros total m rest w1. simpl. unfold bind at 1, call.
    destruct (sendMessage provider jid m (ext w1)) as [[[]|] x].
    + set (w2 := mkWorld _ _ _ _). unfold bind at 1.
      destruct (pause_steps (0 <? total - 1)%nat 2000 1000 w2)
        as (e2 & w3 & -> & [_ H2] & _).
      destruct (sendMessages_steps jid total rest 1 w3)
        as (o & e3 & w4 & -> & [_ H3] & _).
      exists true, (e2 ++ e3). simpl. rewrite H3, H2. subst w2. simpl.
      by rewrite <- !app_assoc.
    + by exists false, [].
Qed.

End Dispatch.


(** C2, at an input where the code departs from it.  The second of three
    recipients is answered "does not exist" by the check: the run counts
    it as unreachable and the sink, which is supplied, is called for the
    first and the third recipient only. *)
Theorem progress_skipped_for_unreachable :
  (sendBulkWhatsApp (Demo.scripted ["51912345678"] [] [])
     ["51987654321"; "51912345678"; "51999999999"] ["hola"]
     Demo.quietSink Demo.emptyWorld).1
  = Ret (mkCounters 2 0 1)
  ∧ progressOf (trace (sendBulkWhatsApp (Demo.scripted ["51912345678"] [] [])
                         ["51987654321"; "51912345678"; "51999999999"]
                         ["hola"] Demo.quietSink Demo.emptyWorld).2)
    = [(1, 3); (3, 3)].
Proof. by vm_compute. Qed.

(** ** The conversation handlers *)

Section Conversation.

Context {Ext : Type}.
Variable provider : Transport Ext.
Variable BOT_SECRET_KEY : string.













(** C7. For an authorised session at the step [waiting_messages] or
    [confirming_messages] whose list of messages is empty, the text
    "Enviar" has one effect: the reply that asks for a message.  The
    session record, the authorised set and the collaborators are as they
    were, and nothing was dispatched. *)
Theorem send_trigger_without_messages (from body : string) (st : UserState)
    (w : World Ext) :
  from ∈ authenticatedUsers w ->
  userStates w !! from = Some st ->
  step st = waiting_messages ∨ step st = confirming_messages ->
  messages st = [] ->
  JS.trim body = "Enviar" ->
  catchAllFlow provider BOT_SECRET_KEY from body w
  = (Ret tt,
     mkWorld (authenticatedUsers w) (userStates w) (ext w)
       (trace w ++ [EvReply from noMessagesPrompt])).
Proof.
  intros Hauth Hst Hstep Hmsgs Htrim.
  unfold catchAllFlow, bind at 1, getState. rewrite Hst, Htrim.
  change (JS.includes _ (JS.toLowerCase "Enviar")) with false. cbv iota.
  unfold bind at 1, isAuthenticated. rewrite bool_decide_true by done.
  cbn [negb]. unfold bind at 1, readState. rewrite Hst.
  cbn [default from_option]. unfold id.
  assert (messagesStep provider from "Enviar" st w
          = (Ret tt,
             mkWorld (authenticatedUsers w) (userStates w) (ext w)
               (trace w ++ [EvReply from noMessagesPrompt]))) as Hm.
  { unfold messagesStep. rewrite bool_decide_true by done. by rewrite Hmsgs. }
  by destruct Hstep as [-> | ->].
Qed.

(** C8, as the code has it.  On a cancellation keyword from a session
    that is not authorised no reply is sent and neither the authorised
    set nor any record of the session map changes: [cancelFlow] leaves
    the world as it is, and [catchAllFlow] does so too but for the
    default record it creates for a key that had none.  From an
    authorised session both handlers replace the record of the session
    by the default one, take the key out of the authorised set and send
    the cancellation notice. *)
Theorem cancel_effects (from body : string) (w : World Ext) :
  JS.includes ["cancel"; "cancelar"] (JS.toLowerCase (JS.trim body)) = true ->
  let cancelled :=
    mkWorld (authenticatedUsers w ∖ {[ from ]})
      (<[from := freshState]> (userStates w)) (ext w)
      (trace w ++ [EvReply from cancelNotice]) in
  cancelFlow from w
  = (if bool_decide (from ∈ authenticatedUsers w)
     then (Ret tt, cancelled) else (Ret tt, w))
  ∧ catchAllFlow provider BOT_SECRET_KEY from body w
    = (if bool_decide (from ∈ authenticatedUsers w)
       then (Ret tt, cancelled)
       else (Ret tt,
             mkWorld (authenticatedUsers w)
               match userStates w !! from with
               | Some _ => userStates w
               | None => <[from := freshState]> (userStates w)
               end (ext w) (trace w))).
Proof.
  intros Hkw cancelled. split.
  - unfold cancelFlow, cancelIfAuthenticated, bind, isAuthenticated.
    by case_bool_decide.
  - unfold catchAllFlow, bind at 1, getState. rewrite Hkw.
    unfold cancelIfAuthenticated, bind, isAuthenticated.
    destruct (userStates w !! from) as [st|] eqn:Hst; simpl.
    + case_bool_decide; [done|by destruct w].
    + case_bool_decide; [|done].
      subst cancelled. unfold resetState, revoke, flowDynamic, emit. simpl.
      by rewrite insert_insert_eq.
Qed.

(** A text from a sender that is not authorised: the session record is
    looked up, and created when missing; the secret, unless it reads as
    a cancellation, authorises the sender and is answered; any other
    text has no further effect. *)
Lemma catchAllFlow_unauthorized (from body : string) (w : World Ext) :
  from ∉ authenticatedUsers w ->
  catchAllFlow provider BOT_SECRET_KEY from body w
  = (Ret tt,
     let w1 := (getState from w).2 in
     if negb (JS.includes ["cancel"; "cancelar"]
                (JS.toLowerCase (JS.trim body)))
        && bool_decide (JS.trim body = BOT_SECRET_KEY)
     then mkWorld ({[ from ]} ∪ authenticatedUsers w) (userStates w1) (ext w)
            (trace w ++ [EvReply from accessGranted])
     else w1).
Proof.
  intros Hauth.
  assert (∀ w1 : World Ext, authenticatedUsers w1 = authenticatedUsers w ->
            isAuthenticated from w1 = (Ret false, w1)) as Hno.
  { intros w1 Hw1. unfold isAuthenticated.
    by rewrite Hw1, bool_decide_false by done. }
  unfold catchAllFlow, bind at 1.
  assert (∃ st w1, getState from w = (Ret st, w1)
                   ∧ authenticatedUsers w1 = authenticatedUsers w
                   ∧ ext w1 = ext w ∧ trace w1 = trace w)
    as (st & w1 & -> & Ha & He & Ht).
  { unfold getState. destruct (userStates w !! from); by eexists _, _. }
  cbn [snd]. cbv zeta.
  destruct (JS.includes _ _); cbn [negb andb].
  - unfold cancelIfAuthenticated, bind. by rewrite (Hno w1 Ha).
  - unfold bind at 1. rewrite (Hno w1 Ha). cbn [negb].
    case_bool_decide; [|done].
    unfold bind, authenticate, flowDynamic, emit. by rewrite Ha, He, Ht.
Qed.


End Conversation.

(** ** Concrete instances *)

Lemma dispatch_counts_witness :
  ∃ c w',
    sendBulkWhatsApp
      (Demo.scripted ["51912345678"] ["51999999999"]
         ["51987654321@s.whatsapp.net"])
      ["51987654321"; "51912345678"; "51999999999"] ["hola"; "adios"]
      Demo.quietSink Demo.emptyWorld
    = (Ret c, w').
Proof.
  apply (proj2 (dispatch_counts_each_recipient_once
                  (Demo.scripted ["51912345678"] ["51999999999"]
                     ["51987654321@s.whatsapp.net"])
                  ["51987654321"; "51912345678"; "51999999999"]
                  ["hola"; "adios"] Demo.quietSink Demo.emptyWorld)).
  intros sink [= <-] sent total x. reflexivity.
Defined.

Lemma send_trigger_without_messages_witness :
  catchAllFlow (Demo.bare []) Demo.secret "u" " Enviar" Demo.waitingForMessages
  = (Ret tt,
     mkWorld (authenticatedUsers Demo.waitingForMessages)
       (userStates Demo.waitingForMessages) tt
       (trace Demo.waitingForMessages ++ [EvReply "u" noMessagesPrompt])).
Proof.
  apply (send_trigger_without_messages (Demo.bare []) Demo.secret "u"
           " Enviar"
           (mkUserState waiting_messages ["51987654321"; "51912345678"] [])).
  - apply (bool_decide_unpack _). vm_compute. exact I.
  - vm_compute. reflexivity.
  - left. reflexivity.
  - reflexivity.
  - vm_compute. reflexivity.
Defined.

(** C8 as stated fails for [catchAllFlow]: the text "cancel" from a
    sender that is not authorised and has no session record changes the
    state, the session map gaining a record for the sender. *)
Lemma cancel_unauthorized_creates_record :
  JS.includes ["cancel"; "cancelar"] (JS.toLowerCase (JS.trim "cancel")) = true
  ∧ ("u" ∉ authenticatedUsers Demo.emptyWorld)
  ∧ userStates Demo.emptyWorld !! "u" = None
  ∧ userStates (catchAllFlow (Demo.bare []) Demo.secret "u" "cancel"
                  Demo.emptyWorld).2 !! "u" = Some freshState
  ∧ (catchAllFlow (Demo.bare []) Demo.secret "u" "cancel" Demo.emptyWorld).2
    ≠ Demo.emptyWorld.
Proof.
  split; [by vm_compute|]. split; [set_solver|].
  split; [by vm_compute|]. split; [by vm_compute|].
  intros H. apply (f_equal (λ w, userStates w !! "u")) in H.
  vm_compute in H. discriminate H.
Qed.

Lemma cancel_effects_witness :
  cancelFlow "u" Demo.waitingForMessages
  = (Ret tt,
     mkWorld (authenticatedUsers Demo.waitingForMessages ∖ {[ "u" ]})
       (<["u" := freshState]> (userStates Demo.waitingForMessages)) tt
       (trace Demo.waitingForMessages ++ [EvReply "u" cancelNotice]))
  ∧ catchAllFlow (Demo.bare []) Demo.secret "u" " Cancelar "
      Demo.waitingForMessages
    = (Ret tt,
       mkWorld (authenticatedUsers Demo.waitingForMessages ∖ {[ "u" ]})
         (<["u" := freshState]> (userStates Demo.waitingForMessages)) tt
         (trace Demo.waitingForMessages ++ [EvReply "u" cancelNotice])).
Proof.
  destruct (cancel_effects (Demo.bare []) Demo.secret "u" " Cancelar "
              Demo.waitingForMessages eq_refl) as [H1 H2].
  assert ("u" ∈ authenticatedUsers Demo.waitingForMessages) as Hin.
  { apply (bool_decide_unpack _). vm_compute. exact I. }
  rewrite (bool_decide_true _ Hin) in H1, H2. split; [exact H1|exact H2].
Defined.

Lemma addNumbers_idempotent_witness :
  addNumbersToState
    (mkUserState confirming_numbers ["51987654321"; "51912345678"] [])
    ["51912345678"; "51987654321"; "51912345678"]
  = (mkUserState confirming_numbers ["51987654321"; "51912345678"] [], 0).
Proof.
  apply (addNumbers_merge_idempotent
           (mkUserState confirming_numbers ["51987654321"; "51912345678"] [])
           ["51912345678"; "51987654321"; "51912345678"]).
  intros x Hx. simpl. set_solver.
Defined.


(** * Further properties of the code *)

(** ** The normaliser, continued *)

Lemma removeChars_fixed (p : ascii -> bool) (s : string) :
  JS.allChars (λ c, negb (p c)) s = true -> JS.removeChars p s = s.
Proof.
  induction s as [|c r IH]; simpl; [done|].
  intros [Hc Hr]%andb_true_iff. apply negb_true_iff in Hc.
  by rewrite Hc, IH.
Qed.

Lemma removeChars_twice (p q : ascii -> bool) (s : string) :
  (∀ c, q c = true -> p c = true) ->
  JS.removeChars p (JS.removeChars q s) = JS.removeChars p s.
Proof.
  intros Hqp. induction s as [|c r IH]; simpl; [done|].
  destruct (q c) eqn:Hq.
  - by rewrite (Hqp c Hq).
  - simpl. by rewrite IH.
Qed.

Lemma allChars_digits_fixed (s : string) :
  JS.allChars JS.isDigit s = true ->
  JS.removeChars (λ c, negb (JS.isDigit c)) s = s.
Proof.
  intros Hs. apply removeChars_fixed.
  erewrite <- Hs. clear Hs. induction s as [|c r IH]; simpl; [done|].
  by rewrite negb_involutive, IH.
Qed.

(** Whatever [normalizePeruNumber] returns is a canonical Identifier,
    and normalising it again returns it unchanged. *)
Theorem normalize_result_is_fixed_point (raw r : string) :
  normalizePeruNumber raw = Some r ->
  isIdentifier r = true ∧ normalizePeruNumber r = Some r.
Proof.
  intros Hr. pose proof (normalize_identifier _ _ Hr) as Hid.
  split; [exact Hid|].
  unfold isIdentifier in Hid. apply andb_true_iff in Hid as [Hd H11].
  rewrite normalize_by_shape, (allChars_digits_fixed _ Hd), H11.
  unfold hasElevenDigitShape in H11. unfold hasNineDigitShape.
  destruct (String.length r =? 11)%nat eqn:Hl; [|done].
  apply Nat.eqb_eq in Hl. by rewrite Hl.
Qed.

(** What the earlier revision accepts, this one accepts with the same
    result; not the other way round: digits separated by dots are
    accepted by this revision only. *)
Theorem lenient_accepts_less :
  (∀ raw r, Lenient.normalizePeruNumber raw = Some r ->
            normalizePeruNumber raw = Some r)
  ∧ Lenient.normalizePeruNumber "987.654.321" = None
  ∧ normalizePeruNumber "987.654.321" = Some "51987654321".
Proof.
  split; [|by vm_compute].
  intros raw r. rewrite lenient_by_shape, normalize_by_shape.
  set (cleaned := JS.removeChars Lenient.isStripped raw).
  destruct (JS.allChars JS.isDigit cleaned) eqn:Hd; cbn [negb]; [|done].
  assert (JS.removeChars (λ c, negb (JS.isDigit c)) raw = cleaned) as ->; [|done].
  rewrite <- (allChars_digits_fixed cleaned Hd). subst cleaned.
  symmetry. apply removeChars_twice.
  intros c Hc. by destruct c as [[] [] [] [] [] [] [] []].
Qed.

(** ** Merging and deduplicating, continued *)

Lemma addNumbersToState_firstSeen (state : UserState) (news : list string) :
  addNumbersToState state news
  = (mkUserState (step state)
       (numbers state ++ firstSeen (numbers state) news) (messages state),
     length (firstSeen (numbers state) news)).
Proof.
  unfold addNumbersToState.
  destruct (addOne_fold news
              (mkMerge (numbers state) (list_to_set (numbers state)) 0))
    as (Hm & Ha & _).
  { intros x. simpl. apply elem_of_list_to_set. }
  simpl in Hm, Ha. by rewrite Hm, Ha.
Qed.

(** A list of numbers without duplicates stays without duplicates when
    identifiers are merged into it, and afterwards holds exactly the old
    numbers and the given ones. *)
Theorem addNumbers_keeps_no_duplicates (state : UserState)
    (newNumbers : list string) :
  NoDup (numbers state) ->
  NoDup (numbers (addNumbersToState state newNumbers).1)
  ∧ (∀ x, x ∈ numbers (addNumbersToState state newNumbers).1
          ↔ x ∈ numbers state ∨ x ∈ newNumbers).
Proof.
  intros Hnd. rewrite addNumbersToState_firstSeen. simpl. split.
  - apply NoDup_app. split; [done|]. split; [|apply firstSeen_NoDup].
    intros x Hx Hx'. by apply firstSeen_elem in Hx' as [_ Hx'].
  - intros x. rewrite elem_of_app, firstSeen_elem.
    destruct (decide (x ∈ numbers state)); naive_solver.
Qed.

(** Merging the same list a second time adds nothing and leaves the
    state of the first merge. *)
Theorem addNumbers_twice_adds_nothing (state : UserState)
    (newNumbers : list string) :
  addNumbersToState (addNumbersToState state newNumbers).1 newNumbers
  = ((addNumbersToState state newNumbers).1, 0).
Proof.
  rewrite (addNumbersToState_firstSeen state). cbn [fst].
  rewrite addNumbersToState_firstSeen. cbn [step numbers messages].
  rewrite (firstSeen_present newNumbers
             (numbers state ++ firstSeen (numbers state) newNumbers));
    [by rewrite app_nil_r|].
  intros x Hx. rewrite elem_of_app, firstSeen_elem.
  destruct (decide (x ∈ numbers state)); naive_solver.
Qed.

(** The snapshot [[...new Set(numbers)]] has no duplicates and the same
    elements, is never longer, and is the list itself when the list has
    no duplicates. *)
Theorem arrayFromSet_deduplicates (arr : list string) :
  NoDup (arrayFromSet arr)
  ∧ (∀ x, x ∈ arrayFromSet arr ↔ x ∈ arr)
  ∧ length (arrayFromSet arr) ≤ length arr
  ∧ (NoDup arr -> arrayFromSet arr = arr).
Proof.
  rewrite arrayFromSet_firstSeen.
  split; [apply firstSeen_NoDup|].
  split; [intros x; rewrite firstSeen_elem; set_solver|].
  split; [apply sublist_length, firstSeen_sublist|apply firstSeen_fixed].
Qed.

(** ** The dispatch loop, continued *)

Section DispatchEvents.

Context {Ext : Type}.
Variable provider : Transport Ext.
Variables numbers messages : list string.

Let allowed := Forall (dispatchEvent numbers messages).

Lemma pause_allowed (b : bool) (n base : nat) (w : World Ext) :
  1000 ≤ base ->
  ∃ evs w', when b (randomDelay provider n base) w = (Ret tt, w')
            ∧ stepsTo w evs w' ∧ allowed evs.
Proof.
  intros Hbase. destruct b; simpl.
  - unfold randomDelay, bind, draw, emit.
    destruct (randomBelow provider n (ext w)) as [r x].
    eexists [EvSleep (r + base)], _. split; [reflexivity|].
    split; [by split|]. apply Forall_singleton. simpl. lia.
  - exists [], w. split; [done|]. split; [apply stepsTo_refl|constructor].
Qed.

Lemma sendMessages_allowed (number : string) (total : nat)
    (rest : list string) (msgIndex : nat) (w : World Ext) :
  number ∈ numbers -> rest ⊆ messages ->
  ∃ o evs w',
    sendMessages provider (number +:+ "@s.whatsapp.net") total msgIndex rest w
    = (o, w')
    ∧ stepsTo w evs w' ∧ allowed evs.
Proof.
  intros Hn. revert msgIndex w.
  induction rest as [|m rest IH]; intros msgIndex w Hsub.
  - exists (Ret tt), [], w. split; [done|].
    split; [apply stepsTo_refl|constructor].
  - simpl. unfold bind at 1, call.
    assert (∀ ok, dispatchEvent numbers messages
                    (EvSendMessage (number +:+ "@s.whatsapp.net") m ok))
      as Hsend.
    { intros ok. exists number. split; [done|]. split; [done|].
      apply Hsub. left. }
    destruct (sendMessage provider _ m (ext w)) as [[[]|] x].
    + set (w1 := mkWorld _ _ _ _).
      assert (stepsTo w [EvSendMessage (number +:+ "@s.whatsapp.net") m true]
                w1) as H1 by by split.
      unfold bind at 1.
      destruct (pause_allowed (msgIndex <? total - 1)%nat 2000 1000 w1)
        as (e2 & w2 & -> & H2 & Ha2); [lia|].
      destruct (IH (S msgIndex) w2) as (o & e3 & w3 & -> & H3 & Ha3).
      { intros y Hy. apply Hsub. by right. }
      exists o, ([EvSendMessage (number +:+ "@s.whatsapp.net") m true]
                 ++ e2 ++ e3), w3.
      split; [done|]. split; [eauto using stepsTo_trans|].
      apply Forall_app. split; [by apply Forall_singleton|].
      by apply Forall_app.
    + eexists Throw, [EvSendMessage _ m false], _.
      split; [reflexivity|]. split; [by split|]. by apply Forall_singleton.
Qed.

Lemma attempt_allowed (number : string) (c : Counters) (w : World Ext) :
  number ∈ numbers ->
  ∃ r evs w', attempt provider messages number c w = (Ret r, w')
              ∧ stepsTo w evs w' ∧ allowed evs.
Proof.
  intros Hn. rewrite attempt_run, checkWhatsApp_run.
  assert (∃ has e1 w1,
            match vendor_onWhatsApp provider with
            | Some onWhatsApp =>
                let '(answer, x) := onWhatsApp number (ext w) in
                (Ret (reachableBy answer),
                 mkWorld (authenticatedUsers w) (userStates w) x
                   (trace w ++ [EvOnWhatsApp number answer]))
            | None => (Ret true, w)
            end = (Ret has, w1) ∧ stepsTo w e1 w1 ∧ allowed e1)
    as (has & e1 & w1 & -> & H1 & Ha1).
  { destruct (vendor_onWhatsApp provider) as [onWhatsApp|].
    - destruct (onWhatsApp number (ext w)) as [answer x].
      eexists _, [EvOnWhatsApp number answer], _.
      split; [reflexivity|]. split; [by split|]. by apply Forall_singleton.
    - exists true, [], w. split; [done|].
      split; [apply stepsTo_refl|constructor]. }
  destruct has; [|by eexists _, e1, w1].
  destruct (sendMessages_allowed number (length messages) messages 0 w1)
    as (o & e2 & w2 & -> & H2 & Ha2); [done|done|].
  destruct o as [[]|]; eexists _, (e1 ++ e2), w2;
    (split; [reflexivity|]);
    (split; [eauto using stepsTo_trans|by apply Forall_app]).
Qed.

Lemma iteration_allowed (onProgress : ProgressSink Ext) (index : nat)
    (number : string) (c : Counters) (w : World Ext) :
  number ∈ numbers -> index < length numbers ->
  ∃ o evs w',
    iteration provider (length numbers) messages onProgress index number c w
    = (o, w')
    ∧ stepsTo w evs w' ∧ allowed evs.
Proof.
  intros Hn Hi. unfold iteration. unfold bind at 1.
  destruct (pause_allowed (0 <? index)%nat 5000 3000 w)
    as (e1 & w1 & -> & H1 & Ha1); [lia|].
  unfold bind at 1.
  destruct (attempt_allowed number c w1) as ([c' k] & e2 & w2 & -> & H2 & Ha2);
    [done|].
  pose proof (stepsTo_trans _ _ _ _ _ H1 H2) as H12.
  assert (allowed (e1 ++ e2)) as Ha12 by by apply Forall_app.
  destruct k; [|by exists (Ret c'), (e1 ++ e2), w2].
  unfold bind, reportProgress. destruct onProgress as [sink|].
  - unfold call. destruct (sink (index + 1) (length numbers) (ext w2))
      as [[[]|] x];
      eexists _, ((e1 ++ e2) ++ [EvProgress (index + 1) (length numbers)]), _;
      (split; [reflexivity|]);
      (split; [eapply stepsTo_trans; [exact H12|by split]|]);
      (apply Forall_app; split; [done|]);
      apply Forall_singleton; simpl; lia.
  - by exists (Ret c'), (e1 ++ e2), w2.
Qed.

Lemma dispatchFrom_allowed (onProgress : ProgressSink Ext)
    (rest : list string) (index : nat) (c : Counters) (w : World Ext) :
  rest ⊆ numbers -> index + length rest = length numbers ->
  ∃ o evs w',
    dispatchFrom provider (length numbers) messages onProgress index rest c w
    = (o, w')
    ∧ stepsTo w evs w' ∧ allowed evs.
Proof.
  revert index c w. induction rest as [|number rest IH];
    intros index c w Hsub Hlen.
  - exists (Ret c), [], w. split; [done|].
    split; [apply stepsTo_refl|constructor].
  - simpl in *. unfold bind.
    destruct (iteration_allowed onProgress index number c w)
      as (o1 & e1 & w1 & -> & H1 & Ha1); [apply Hsub; left|lia|].
    destruct o1 as [c1|]; [|by exists Throw, e1, w1].
    destruct (IH (S index) c1 w1) as (o & e2 & w2 & -> & H2 & Ha2).
    { intros y Hy. apply Hsub. by right. }
    { lia. }
    exists o, (e1 ++ e2), w2. split; [done|].
    split; [eauto using stepsTo_trans|by apply Forall_app].
Qed.

End DispatchEvents.

(** The dispatch loop touches neither the authorised set nor the
    session map, keeps what was logged, and logs only: pauses of at
    least a second, existence checks of the given numbers, sends of the
    given messages to the addresses of the given numbers, and calls of
    the sink with a position in the list and its length. *)
Theorem dispatch_stays_within_its_lists {Ext} (provider : Transport Ext)
    (numbers messages : list string) (onProgress : ProgressSink Ext)
    (w : World Ext) :
  ∃ evs,
    sameBot w (sendBulkWhatsApp provider numbers messages onProgress w).2
    ∧ trace (sendBulkWhatsApp provider numbers messages onProgress w).2
      = trace w ++ evs
    ∧ Forall (dispatchEvent numbers messages) evs.
Proof.
  unfold sendBulkWhatsApp.
  destruct (dispatchFrom_allowed provider numbers messages onProgress numbers
              0 (mkCounters 0 0 0) w)
    as (o & evs & w' & -> & [Hbot Htrace] & Hall); [done|done|].
  by exists evs.
Qed.

Section DispatchCases.

Context {Ext : Type}.
Variable provider : Transport Ext.

Lemma sendMessages_delivers (jid : string) (total : nat) (rest : list string)
    (msgIndex : nat) (w : World Ext) :
  deliversAll provider ->
  ∃ evs w',
    sendMessages provider jid total msgIndex rest w = (Ret tt, w')
    ∧ stepsTo w evs w' ∧ progressOf evs = []
    ∧ sendsOf evs = map (λ m, (jid, m, true)) rest.
Proof.
  intros Hdel. revert msgIndex w.
  induction rest as [|m rest IH]; intros msgIndex w.
  - exists [], w. split; [done|]. split; [apply stepsTo_refl|done].
  - simpl. unfold bind at 1, call.
    pose proof (Hdel jid m (ext w)) as Hm.
    destruct (sendMessage provider jid m (ext w)) as [o x].
    simpl in Hm. subst o.
    set (w1 := mkWorld _ _ _ _).
    assert (stepsTo w [EvSendMessage jid m true] w1) as H1 by by split.
    unfold bind at 1.
    destruct (pause_steps provider (msgIndex <? total - 1)%nat 2000 1000 w1)
      as (e2 & w2 & -> & H2 & Hs2 & Hp2).
    destruct (IH (S msgIndex) w2) as (e3 & w3 & -> & H3 & Hp3 & Hs3).
    exists ([EvSendMessage jid m true] ++ e2 ++ e3), w3.
    split; [done|]. split; [eauto using stepsTo_trans|].
    split; [by rewrite !progressOf_app, Hp2, Hp3|].
    by rewrite !sendsOf_app, Hs2, Hs3.
Qed.

Lemma iteration_delivers (total : nat) (messages : list string)
    (onProgress : ProgressSink Ext) (index : nat) (number : string)
    (c : Counters) (w : World Ext) :
  deliversAll provider -> neverAbsent provider -> sinkReturns onProgress ->
  ∃ evs w',
    iteration provider total messages onProgress index number c w
    = (Ret (bump Delivered c), w')
    ∧ stepsTo w evs w'
    ∧ sendsOf evs
      = map (λ m, (number +:+ "@s.whatsapp.net", m, true)) messages
    ∧ progressOf evs
      = match onProgress with
        | Some _ => [(index + 1, total)]
        | None => []
        end.
Proof.
  intros Hdel Hnever Hsink. unfold iteration. unfold bind at 1.
  destruct (pause_steps provider (0 <? index)%nat 5000 3000 w)
    as (e1 & w1 & -> & H1 & Hs1 & Hp1).
  unfold bind at 1. rewrite attempt_run.
  destruct (checkWhatsApp_steps provider number w1)
    as (has & e2 & w2 & Hcheck & H2 & Hs2 & Hp2).
  assert (has = true) as ->.
  { rewrite checkWhatsApp_run in Hcheck.
    destruct (vendor_onWhatsApp provider) as [onWhatsApp|] eqn:Hv;
      [|congruence].
    pose proof (Hnever onWhatsApp Hv number (ext w1)) as Hr.
    destruct (onWhatsApp number (ext w1)) as [answer x]. simpl in Hr.
    congruence. }
  rewrite Hcheck.
  destruct (sendMessages_delivers (number +:+ "@s.whatsapp.net")
              (length messages) messages 0 w2 Hdel)
    as (e3 & w3 & -> & H3 & Hp3 & Hs3).
  assert (stepsTo w (e1 ++ e2 ++ e3) w3) as H123
    by eauto using stepsTo_trans.
  assert (sendsOf (e1 ++ e2 ++ e3)
          = map (λ m, (number +:+ "@s.whatsapp.net", m, true)) messages)
    as Hs by by rewrite !sendsOf_app, Hs1, Hs2, Hs3.
  assert (progressOf (e1 ++ e2 ++ e3) = []) as Hp
    by by rewrite !progressOf_app, Hp1, Hp2, Hp3.
  unfold bind, reportProgress. destruct onProgress as [sink|].
  - unfold call. pose proof (Hsink sink eq_refl (index + 1) total (ext w3))
      as Hret.
    destruct (sink (index + 1) total (ext w3)) as [o x]. simpl in Hret.
    subst o.
    eexists ((e1 ++ e2 ++ e3) ++ [EvProgress (index + 1) total]), _.
    split; [reflexivity|].
    split; [eapply stepsTo_trans; [exact H123|by split]|].
    split; [by rewrite sendsOf_app, Hs, app_nil_r|].
    by rewrite progressOf_app, Hp.
  - by exists (e1 ++ e2 ++ e3), w3.
Qed.

Lemma dispatchFrom_delivers (total : nat) (messages : list string)
    (onProgress : ProgressSink Ext) (rest : list string) (index : nat)
    (c : Counters) (w : World Ext) :
  deliversAll provider -> neverAbsent provider -> sinkReturns onProgress ->
  ∃ evs w',
    dispatchFrom provider total messages onProgress index rest c w
    = (Ret (mkCounters (success c + length rest) (failed c)
              (notOnWhatsApp c)), w')
    ∧ stepsTo w evs w'
    ∧ sendsOf evs
      = flat_map (λ n, map (λ m, (n +:+ "@s.whatsapp.net", m, true)) messages)
          rest
    ∧ progressOf evs
      = match onProgress with
        | Some _ => map (λ i, (i + 1, total)) (seq index (length rest))
        | None => []
        end.
Proof.
  intros Hdel Hnever Hsink. revert index c w.
  induction rest as [|number rest IH]; intros index c w.
  - exists [], w. simpl. rewrite Nat.add_0_r.
    split; [by destruct c|]. split; [apply stepsTo_refl|].
    by destruct onProgress.
  - simpl. unfold bind.
    destruct (iteration_delivers total messages onProgress index number c w
                Hdel Hnever Hsink) as (e1 & w1 & -> & H1 & Hs1 & Hp1).
    destruct (IH (S index) (bump Delivered c) w1)
      as (e2 & w2 & -> & H2 & Hs2 & Hp2).
    exists (e1 ++ e2), w2. simpl.
    split; [by rewrite Nat.add_succ_r|].
    split; [eauto using stepsTo_trans|].
    split; [by rewrite sendsOf_app, Hs1, Hs2|].
    rewrite progressOf_app, Hp1, Hp2. by destruct onProgress.
Qed.

(** With no messages to send, sending never fails. *)
Lemma dispatchFrom_nothing_to_send (total : nat)
    (onProgress : ProgressSink Ext) (rest : list string) (index : nat)
    (c : Counters) (w : World Ext) :
  ∃ o evs w',
    dispatchFrom provider total [] onProgress index rest c w = (o, w')
    ∧ stepsTo w evs w' ∧ sendsOf evs = []
    ∧ match o with
      | Ret c' =>
          failed c' = failed c
          ∧ success c' + notOnWhatsApp c'
            = success c + notOnWhatsApp c + length rest
      | Throw => True
      end.
Proof.
  revert index c w. induction rest as [|number rest IH]; intros index c w.
  - exists (Ret c), [], w. split; [done|]. split; [apply stepsTo_refl|].
    split; [done|]. simpl. lia.
  - simpl. unfold bind at 1, iteration. unfold bind at 1.
    destruct (pause_steps provider (0 <? index)%nat 5000 3000 w)
      as (e1 & w1 & -> & H1 & Hs1 & _).
    unfold bind at 1. rewrite attempt_run.
    destruct (checkWhatsApp_steps provider number w1)
      as (has & e2 & w2 & -> & H2 & Hs2 & _).
    assert (stepsTo w (e1 ++ e2) w2) as H12 by eauto using stepsTo_trans.
    assert (sendsOf (e1 ++ e2) = []) as Hs12
      by by rewrite sendsOf_app, Hs1, Hs2.
    destruct has; simpl.
    + unfold bind at 1, reportProgress.
      destruct onProgress as [sink|].
      * unfold call.
        destruct (sink (index + 1) total (ext w2)) as [[[]|] x].
        -- set (w3 := mkWorld _ _ _ _). cbv beta iota delta [ret bind].
           destruct (IH (S index)
                       (mkCounters (S (success c)) (failed c)
                          (notOnWhatsApp c)) w3)
             as (o & e3 & w4 & -> & H3 & Hs3 & Ho).
           exists o, ((e1 ++ e2) ++ [EvProgress (index + 1) total] ++ e3), w4.
           split; [done|].
           split; [eapply stepsTo_trans; [exact H12|];
                   eapply stepsTo_trans; [|exact H3]; by split|].
           split; [by rewrite !sendsOf_app, Hs1, Hs2, Hs3|].
           destruct o as [c'|]; [|done]. simpl in Ho. lia.
        -- eexists Throw, ((e1 ++ e2) ++ [EvProgress (index + 1) total]), _.
           split; [reflexivity|].
           split; [eapply stepsTo_trans; [exact H12|by split]|].
           split; [by rewrite sendsOf_app, Hs12|done].
      * cbv beta iota delta [ret bind].
        destruct (IH (S index)
                    (mkCounters (S (success c)) (failed c) (notOnWhatsApp c))
                    w2)
          as (o & e3 & w3 & -> & H3 & Hs3 & Ho).
        exists o, ((e1 ++ e2) ++ e3), w3. split; [done|].
        split; [eauto using stepsTo_trans|].
        split; [by rewrite sendsOf_app, Hs12, Hs3|].
        destruct o as [c'|]; [|done]. simpl in Ho. lia.
    + cbv beta iota delta [ret bind].
      destruct (IH (S index)
                  (mkCounters (success c) (failed c) (S (notOnWhatsApp c)))
                  w2)
        as (o & e3 & w3 & -> & H3 & Hs3 & Ho).
      exists o, ((e1 ++ e2) ++ e3), w3. split; [done|].
      split; [eauto using stepsTo_trans|].
      split; [by rewrite sendsOf_app, Hs12, Hs3|].
      destruct o as [c'|]; [|done]. simpl in Ho. lia.
Qed.

End DispatchCases.

(** When every send resolves, the existence check reports no number as
    missing and the sink returns, all K recipients are counted as
    successes, every message was sent to every recipient, recipient by
    recipient in the order of the lists, and the sink was called with
    1 to K in turn. *)
Theorem dispatch_delivers_everything {Ext} (provider : Transport Ext)
    (numbers messages : list string) (onProgress : ProgressSink Ext)
    (w : World Ext) :
  deliversAll provider -> neverAbsent provider -> sinkReturns onProgress ->
  ∃ evs w',
    sendBulkWhatsApp provider numbers messages onProgress w
    = (Ret (mkCounters (length numbers) 0 0), w')
    ∧ trace w' = trace w ++ evs
    ∧ sendsOf evs
      = flat_map (λ n, map (λ m, (n +:+ "@s.whatsapp.net", m, true)) messages)
          numbers
    ∧ progressOf evs
      = match onProgress with
        | Some _ =>
            map (λ i, (i + 1, length numbers)) (seq 0 (length numbers))
        | None => []
        end.
Proof.
  intros Hdel Hnever Hsink. unfold sendBulkWhatsApp.
  destruct (dispatchFrom_delivers provider (length numbers) messages
              onProgress numbers 0 (mkCounters 0 0 0) w Hdel Hnever Hsink)
    as (evs & w' & -> & [_ Ht] & Hs & Hp).
  by exists evs, w'.
Qed.

(** With an empty list of messages nothing is sent and no recipient is
    counted as failed: each one is a success or unreachable. *)
Theorem dispatch_without_messages {Ext} (provider : Transport Ext)
    (numbers : list string) (onProgress : ProgressSink Ext) (w : World Ext) :
  ∃ o evs w',
    sendBulkWhatsApp provider numbers [] onProgress w = (o, w')
    ∧ trace w' = trace w ++ evs ∧ sendsOf evs = []
    ∧ match o with
      | Ret c =>
          failed c = 0 ∧ success c + notOnWhatsApp c = length numbers
      | Throw => True
      end.
Proof.
  unfold sendBulkWhatsApp.
  destruct (dispatchFrom_nothing_to_send provider (length numbers) onProgress
              numbers 0 (mkCounters 0 0 0) w)
    as (o & evs & w' & -> & [_ Ht] & Hs & Ho).
  exists o, evs, w'. split; [done|]. split; [done|]. split; [done|].
  destruct o as [c|]; [|done]. simpl in Ho. lia.
Qed.

(** ** The conversation as a state machine *)

Section StateMachine.

Context {Ext : Type}.
Variable provider : Transport Ext.
Variable BOT_SECRET_KEY : string.

(** [getState] returns the session of the key and leaves it in the
    map. *)
Lemma getState_sessionOf (from : string) (w : World Ext) :
  getState from w
  = (Ret (sessionOf w from),
     mkWorld (authenticatedUsers w)
       (<[from := sessionOf w from]> (userStates w)) (ext w) (trace w)).
Proof.
  unfold getState, sessionOf.
  destruct (userStates w !! from) as [st|] eqn:Hst; simpl; [|done].
  rewrite insert_id by done. by destruct w.
Qed.

Lemma numbersStep_bot (from userMessage : string) (st : UserState)
    (w : World Ext) :
  userStates w !! from = Some st ->
  ∃ text,
    numbersStep from userMessage st w
    = (Ret tt,
       mkWorld (authenticatedUsers w)
         (<[from := afterNumbersText st userMessage]> (userStates w))
         (ext w) (trace w ++ [EvReply from text])).
Proof.
  intros Hst.
  assert (∀ text, flowDynamic from text w
                  = (Ret tt,
                     mkWorld (authenticatedUsers w)
                       (<[from := st]> (userStates w))
                       (ext w) (trace w ++ [EvReply from text]))) as Hsame.
  { intros text. by rewrite insert_id by done. }
  unfold afterNumbersText, numbersStep.
  fold (readsAsConfirm userMessage).
  destruct (readsAsConfirm userMessage).
  - destruct (numbers st) as [|n ns] eqn:Hn; simpl; [by eexists|].
    eexists. unfold bind, writeState, flowDynamic, emit. reflexivity.
  - destruct (extractNumbers userMessage) as [|n ns] eqn:He;
      [simpl; by eexists|].
    cbn [length Nat.eqb]. rewrite addNumbersToState_firstSeen.
    cbn [numbers messages].
    eexists. unfold bind, writeState, flowDynamic, emit. reflexivity.
Qed.

(** The send trigger with messages in the queue: the first reply, the
    record of the session replaced by the default one, the dispatch to
    the deduplicated numbers, and the summary. *)
Lemma messagesStep_send (from : string) (st : UserState) (w : World Ext) :
  messages st ≠ [] ->
  messagesStep provider from "Enviar" st w
  = match sendBulkWhatsApp provider (arrayFromSet (numbers st)) (messages st)
            None
            (mkWorld (authenticatedUsers w)
               (<[from := freshState]> (userStates w)) (ext w)
               (trace w ++ [EvReply from (dispatchStarting st)])) with
    | (Ret result, w2) =>
        (Ret tt,
         mkWorld (authenticatedUsers w2) (userStates w2) (ext w2)
           (trace w2 ++ [EvReply from (dispatchSummary result)]))
    | (Throw, w2) => (Throw, w2)
    end.
Proof.
  intros Hm.
  assert ((length (messages st) =? 0)%nat = false) as Hlen
    by by destruct (messages st).
  unfold messagesStep. rewrite bool_decide_true by done. rewrite Hlen.
  unfold bind, flowDynamic, emit, resetState.
  cbn [authenticatedUsers userStates ext trace].
  by destruct (sendBulkWhatsApp _ _ _ _ _) as [[c|] w2].
Qed.

Lemma messagesStep_bot (from userMessage : string) (st : UserState)
    (w : World Ext) :
  userStates w !! from = Some st ->
  authenticatedUsers (messagesStep provider from userMessage st w).2
  = authenticatedUsers w
  ∧ userStates (messagesStep provider from userMessage st w).2
    = <[from := afterMessagesText st userMessage]> (userStates w).
Proof.
  intros Hst. unfold afterMessagesText.
  case_bool_decide as Hsend.
  - subst userMessage. destruct (messages st) as [|m ms] eqn:Hm.
    + unfold messagesStep. rewrite bool_decide_true by done. rewrite Hm.
      simpl. by rewrite insert_id by done.
    + rewrite messagesStep_send by by rewrite Hm.
      unfold sendBulkWhatsApp. rewrite Hm.
      set (w1 := mkWorld _ _ _ _).
      destruct (dispatchFrom_steps provider
                  (length (arrayFromSet (numbers st))) (m :: ms) None
                  (arrayFromSet (numbers st)) 0 (mkCounters 0 0 0) w1)
        as (o & evs & w2 & -> & [[Ha Hs] _] & Ho).
      destruct o as [c|]; [|by destruct Ho as (sink & _ & _ & [=] & _)].
      simpl. by rewrite Ha, Hs.
  - unfold messagesStep. by rewrite bool_decide_false by done.
Qed.

(** [catchAllFlow] as a state machine: the record of the sender and the
    authorised set after it are those the transition gives, and nothing
    else of the two changes. *)
Lemma catchAllFlow_bot (from body : string) (w : World Ext) :
  let authorised := bool_decide (from ∈ authenticatedUsers w) in
  let userMessage := JS.trim body in
  let w' := (catchAllFlow provider BOT_SECRET_KEY from body w).2 in
  userStates w'
  = <[from := nextSession (sessionOf w from) authorised userMessage]>
      (userStates w)
  ∧ authenticatedUsers w'
    = (if nextAuthorised BOT_SECRET_KEY authorised userMessage
       then {[ from ]} ∪ authenticatedUsers w
       else authenticatedUsers w ∖ {[ from ]}).
Proof.
  intros authorised userMessage w'. subst w'.
  destruct (catchAllFlow provider BOT_SECRET_KEY from body w) as [o w']
    eqn:Hrun.
  cbn [snd]. revert Hrun.
  unfold catchAllFlow, bind at 1. rewrite getState_sessionOf.
  set (st := sessionOf w from). fold userMessage.
  set (w1 := mkWorld _ (<[from := st]> (userStates w)) _ _).
  assert (userStates w1 !! from = Some st) as Hst1
    by apply lookup_insert_eq.
  fold (readsAsCancel userMessage).
  unfold nextSession, nextAuthorised.
  destruct (readsAsCancel userMessage) eqn:Hcancel.
  - unfold cancelIfAuthenticated, bind, isAuthenticated. simpl.
    fold authorised. subst authorised.
    case_bool_decide as Hauth; simpl; intros [= <- <-]; simpl.
    + by rewrite insert_insert_eq.
    + split; [done|]. set_solver.
  - unfold bind at 1, isAuthenticated. cbn [authenticatedUsers w1].
    fold authorised. subst authorised.
    case_bool_decide as Hauth; cbn [negb orb].
    + unfold bind at 1, readState. rewrite Hst1. cbn [default from_option].
      unfold id.
      assert ({[from]} ∪ authenticatedUsers w = authenticatedUsers w) as ->
        by set_solver.
      destruct (step st) eqn:Hstep.
      * intros [= <- <-]. simpl. done.
      * destruct (numbersStep_bot from userMessage st w1) as (text & ->);
          [done|]. intros [= <- <-]. simpl. by rewrite insert_insert_eq.
      * destruct (numbersStep_bot from userMessage st w1) as (text & ->);
          [done|]. intros [= <- <-]. simpl. by rewrite insert_insert_eq.
      * destruct (messagesStep_bot from userMessage st w1) as [Ha Hs];
          [done|]. intros Hrun. rewrite Hrun in Ha, Hs. simpl in Ha, Hs.
        by rewrite Ha, Hs, insert_insert_eq.
      * destruct (messagesStep_bot from userMessage st w1) as [Ha Hs];
          [done|]. intros Hrun. rewrite Hrun in Ha, Hs. simpl in Ha, Hs.
        by rewrite Ha, Hs, insert_insert_eq.
    + case_bool_decide as Hkey; simpl; intros [= <- <-]; simpl; [done|].
      split; [done|]. set_solver.
Qed.

End StateMachine.

(** ** Reading a file *)

Lemma string_app_empty (s : string) : s +:+ "" = s.
Proof.
  induction s as [|c s IH]; [done|].
  change (String c s +:+ "") with (String c (s +:+ "")). by rewrite IH.
Qed.

Lemma string_app_assoc (s t u : string) : (s +:+ t) +:+ u = s +:+ t +:+ u.
Proof.
  induction s as [|c s IH]; [done|].
  change (String c (s +:+ t) +:+ u = String c (s +:+ t +:+ u)).
  by rewrite <- IH.
Qed.

Lemma splitEach_head (p : ascii -> bool) (cur col rest : string) (sep : ascii) :
  JS.allChars (λ c, negb (p c)) col = true -> p sep = true ->
  hd EmptyString (JSText.splitEach p cur (col +:+ String sep rest))
  = cur +:+ col.
Proof.
  revert cur. induction col as [|c col IH]; intros cur Hcol Hsep.
  - change ("" +:+ String sep rest) with (String sep rest). simpl.
    by rewrite Hsep, string_app_empty.
  - simpl in Hcol. apply andb_true_iff in Hcol as [Hc Hcol].
    apply negb_true_iff in Hc.
    change (String c col +:+ String sep rest)
      with (String c (col +:+ String sep rest)).
    simpl. rewrite Hc, IH by done. by rewrite string_app_assoc.
Qed.

Lemma csv_lines_fold (lines : list string) :
  validNumbers (foldl collectCsvLine (mkCollected [] ∅) lines)
  = firstSeen [] (csvCandidates lines).
Proof.
  destruct (collect_fold collectCsvLine
              (λ line, normalizePeruNumber (JS.trim (firstColumnOf line)))
              lines (mkCollected [] ∅)) as [Hv _].
  - intros a line. unfold collectCsvLine.
    by destruct (JS.trim (firstColumnOf line)).
  - intros i r. apply normalize_nonempty.
  - intros x. simpl. set_solver.
  - exact Hv.
Qed.

Lemma csvCandidates_identifiers (lines : list string) :
  Forall (λ n, isIdentifier n = true) (firstSeen [] (csvCandidates lines)).
Proof.
  apply Forall_forall. intros n [Hn _]%firstSeen_elem.
  apply list_elem_of_omap in Hn as (line & _ & Hline).
  by apply normalize_identifier in Hline.
Qed.

(** What [parseCSVFile] resolves with comes from the lines of a file. *)
Lemma parseCSVFile_core {Ext} (files : Files Ext) (filePath : string)
    (x : Ext) :
  (∀ numbers x',
     parseCSVFile files filePath x = (Ok numbers, x') ->
     ∃ lines, numbers = firstSeen [] (csvCandidates lines))
  ∧ (fileExists files filePath x = false ->
     parseCSVFile files filePath x = (Err "Archivo no encontrado", x)).
Proof.
  unfold parseCSVFile. split.
  - intros numbers x'. destruct (fileExists files filePath x); [|done].
    cbn [negb]. destruct (readLines files filePath x) as [stream x2].
    rewrite csv_lines_fold.
    destruct (stream_error stream); intros [= <- <-].
    by exists (stream_lines stream).
  - by intros ->.
Qed.

(** [parseCSVFile] rejects a path that does not exist without reading;
    otherwise it reads the lines, and rejects with the error of the
    reader or resolves with the identifiers of the first columns, each
    once, in order of first sight.  What follows the first comma,
    semicolon or tab of a line is not looked at. *)
Theorem parseCSVFile_reads_first_columns {Ext} (files : Files Ext)
    (filePath : string) (x : Ext) :
  parseCSVFile files filePath x
  = (if fileExists files filePath x then
       match stream_error (readLines files filePath x).1 with
       | None =>
           (Ok (firstSeen []
                  (csvCandidates
                     (stream_lines (readLines files filePath x).1))),
            (readLines files filePath x).2)
       | Some message => (Err message, (readLines files filePath x).2)
       end
     else (Err "Archivo no encontrado", x))
  ∧ (∀ lines,
       NoDup (firstSeen [] (csvCandidates lines))
       ∧ Forall (λ n, isIdentifier n = true)
           (firstSeen [] (csvCandidates lines)))
  ∧ (∀ col sep rest,
       JS.allChars (λ c, negb (isColumnSeparator c)) col = true ->
       isColumnSeparator sep = true ->
       firstColumnOf (col +:+ String sep rest) = col).
Proof.
  split; [|split].
  - unfold parseCSVFile.
    destruct (fileExists files filePath x); [|done]. cbn [negb].
    destruct (readLines files filePath x) as [stream x'].
    rewrite csv_lines_fold. cbn [fst snd]. by destruct (stream_error stream).
  - intros lines. split; [apply firstSeen_NoDup|].
    apply csvCandidates_identifiers.
  - intros col sep rest Hcol Hsep. unfold firstColumnOf.
    by rewrite splitEach_head.
Qed.

(** ** The handler of uploaded documents *)

Section DocumentProofs.

Context {Ext : Type}.
Variable files : Files Ext.

Lemma receiveDocument_bot (ctx : DocumentCtx) (st : UserState)
    (w : World Ext) :
  ∃ o w',
    receiveDocument files ctx st w = (o, w')
    ∧ authenticatedUsers w' = authenticatedUsers w
    ∧ (userStates w' = userStates w
       ∨ ∃ lines,
           firstSeen [] (csvCandidates lines) ≠ [] ∧ o = Ok tt
           ∧ userStates w'
             = <[doc_from ctx
                 := afterFile st (firstSeen [] (csvCandidates lines))]>
                 (userStates w)).
Proof.
  unfold receiveDocument.
  destruct (isValidType _ _); cbn [negb];
    [|eexists _, _; split; [reflexivity|]; split; [done|by left]].
  unfold bindR at 1, liftR at 1, flowDynamic at 1, emit.
  set (w1 := mkWorld _ _ _ (trace w ++ _)).
  unfold bindR at 1, readExt.
  assert (∃ o2 w2,
            (if negb (tmpDirExists files (ext w1))
             then callR (mkdirTmp files) else retR tt) w1 = (o2, w2)
            ∧ sameBot w w2) as (o2 & w2 & H2 & Ha2 & Hs2).
  { destruct (tmpDirExists files (ext w1)); cbn [negb].
    - by eexists _, _.
    - unfold callR. destruct (mkdirTmp files (ext w1)) as [o x].
      by eexists _, _. }
  unfold bindR at 1. rewrite H2.
  destruct o2 as [[]|message]; [|by eexists _, _; split; [|split; [|left]]].
  unfold bindR at 1, callR at 1.
  destruct (saveFile files ctx (ext w2)) as [[savedPath|message] x3];
    [|by eexists _, _; split; [|split; [|left]]].
  set (w3 := mkWorld _ _ x3 _).
  destruct (JSText.truthy savedPath) as [path|];
    [|by eexists _, _; split; [|split; [|left]]].
  unfold bindR at 1, callR at 1. cbn [ext w3].
  pose proof (proj1 (parseCSVFile_core files path x3)) as Hparse.
  destruct (parseCSVFile files path x3) as [[extracted|message] x4];
    [|by eexists _, _; split; [|split; [|left]]].
  unfold bindR at 1, callR at 1.
  cbn [ext authenticatedUsers userStates trace].
  destruct (Hparse extracted x4 eq_refl) as (lines & ->).
  set (found := firstSeen [] (csvCandidates lines)).
  destruct found as [|n ns] eqn:Hfound.
  - by eexists _, _; split; [|split; [|left]].
  - cbn [length Nat.eqb]. rewrite addNumbersToState_firstSeen.
    eexists _, _. split; [reflexivity|]. simpl. split; [done|].
    right. exists lines. fold found. rewrite Hfound.
    split; [done|]. split; [done|]. by rewrite Hs2.
Qed.

End DocumentProofs.

(** ** All four handlers *)

Section Handlers.

Context {Ext : Type}.
Variable provider : Transport Ext.
Variable BOT_SECRET_KEY : string.
Variable files : Files Ext.

Lemma spamFlow_run (from : string) (w : World Ext) :
  ∃ text,
    spamFlow from w
    = (if bool_decide (from ∈ authenticatedUsers w)
       then (Ret tt,
             mkWorld (authenticatedUsers w)
               (<[from := mkUserState waiting_numbers [] []]> (userStates w))
               (ext w) (trace w ++ [EvReply from text]))
       else (Ret tt, w)).
Proof.
  eexists. unfold spamFlow, bind at 1, isAuthenticated.
  case_bool_decide as Hauth; cbn [negb]; [|done].
  unfold bind at 1. rewrite getState_sessionOf.
  unfold bind, writeState, flowDynamic, emit. simpl.
  by rewrite insert_insert_eq.
Qed.

Lemma cancelFlow_run (from : string) (w : World Ext) :
  cancelFlow from w
  = (if bool_decide (from ∈ authenticatedUsers w)
     then (Ret tt,
           mkWorld (authenticatedUsers w ∖ {[ from ]})
             (<[from := freshState]> (userStates w)) (ext w)
             (trace w ++ [EvReply from cancelNotice]))
     else (Ret tt, w)).
Proof.
  unfold cancelFlow, cancelIfAuthenticated, bind, isAuthenticated.
  by case_bool_decide.
Qed.

(** [documentFlow] never throws and leaves the authorised set alone; it
    does nothing for a sender that is not authorised, and otherwise
    keeps the record of the sender or, at a step that collects numbers,
    merges into it the identifiers found in a file. *)
Lemma documentFlow_bot (ctx : DocumentCtx) (w : World Ext) :
  ∃ w',
    documentFlow files ctx w = (Ret tt, w')
    ∧ authenticatedUsers w' = authenticatedUsers w
    ∧ (doc_from ctx ∉ authenticatedUsers w -> w' = w)
    ∧ (doc_from ctx ∈ authenticatedUsers w ->
       ∃ st',
         userStates w' = <[doc_from ctx := st']> (userStates w)
         ∧ (st' = sessionOf w (doc_from ctx)
            ∨ collectsNumbers (sessionOf w (doc_from ctx))
              ∧ ∃ lines,
                  firstSeen [] (csvCandidates lines) ≠ []
                  ∧ st' = afterFile (sessionOf w (doc_from ctx))
                            (firstSeen [] (csvCandidates lines)))).
Proof.
  unfold documentFlow, bind at 1, isAuthenticated.
  case_bool_decide as Hauth; cbn [negb].
  2: { exists w. split; [done|]. split; [done|]. by split. }
  unfold bind at 1. rewrite getState_sessionOf.
  set (st := sessionOf w (doc_from ctx)).
  set (w1 := mkWorld _ _ _ _).
  assert (∃ w',
            match step st with
            | waiting_numbers | confirming_numbers =>
                catching (receiveDocument files ctx st)
                  (λ message,
                     flowDynamic (doc_from ctx)
                       ("Hubo un error: " +:+ message))
            | _ => flowDynamic (doc_from ctx) notExpectingDocument
            end w1 = (Ret tt, w')
            ∧ authenticatedUsers w' = authenticatedUsers w1
            ∧ (userStates w' = userStates w1
               ∨ collectsNumbers st
                 ∧ ∃ lines,
                     firstSeen [] (csvCandidates lines) ≠ []
                     ∧ userStates w'
                       = <[doc_from ctx
                           := afterFile st
                                (firstSeen [] (csvCandidates lines))]>
                           (userStates w1)))
    as (w' & -> & Ha & Hs).
  { assert (∀ text, ∃ w',
              flowDynamic (doc_from ctx) text w1 = (Ret tt, w')
              ∧ authenticatedUsers w' = authenticatedUsers w1
              ∧ (userStates w' = userStates w1
                 ∨ collectsNumbers st
                   ∧ ∃ lines,
                       firstSeen [] (csvCandidates lines) ≠ []
                       ∧ userStates w'
                         = <[doc_from ctx
                             := afterFile st
                                  (firstSeen [] (csvCandidates lines))]>
                             (userStates w1))) as Hreply.
    { intros text. eexists. split; [reflexivity|]. split; [done|by left]. }
    assert (collectsNumbers st ->
            ∃ w',
              catching (receiveDocument files ctx st)
                (λ message,
                   flowDynamic (doc_from ctx) ("Hubo un error: " +:+ message))
                w1 = (Ret tt, w')
              ∧ authenticatedUsers w' = authenticatedUsers w1
              ∧ (userStates w' = userStates w1
                 ∨ collectsNumbers st
                   ∧ ∃ lines,
                       firstSeen [] (csvCandidates lines) ≠ []
                       ∧ userStates w'
                         = <[doc_from ctx
                             := afterFile st
                                  (firstSeen [] (csvCandidates lines))]>
                             (userStates w1))) as Hreceive.
    { intros Hcollect. unfold catching.
      destruct (receiveDocument_bot files ctx st w1)
        as (o & w2 & -> & Ha2 & Hs2).
      destruct o as [[]|message].
      - exists w2. split; [done|]. split; [done|].
        destruct Hs2 as [Hs2|(lines & Hne & _ & Hs2)]; [by left|].
        right. split; [done|]. by exists lines.
      - destruct Hs2 as [Hs2|(lines & _ & [=] & _)].
        eexists. split; [reflexivity|]. simpl. split; [done|by left]. }
    destruct (step st) eqn:Hstep; try apply Hreply.
    - apply Hreceive. by left.
    - apply Hreceive. by right. }
  exists w'. split; [done|]. split; [by rewrite Ha|].
  split; [done|]. intros _.
  destruct Hs as [Hs|(Hcollect & lines & Hne & Hs)].
  - exists st. split; [by rewrite Hs|by left].
  - eexists. split; [|right; split; [done|by exists lines]].
    rewrite Hs. simpl. by rewrite insert_insert_eq.
Qed.

Lemma coherent_fresh : coherent freshState.
Proof. split; [constructor|done]. Qed.

Lemma coherent_sessionOf (w : World Ext) (from : string) :
  wellFormed w -> coherent (sessionOf w from).
Proof.
  intros [Hco _]. unfold sessionOf.
  destruct (userStates w !! from) as [st|] eqn:Hst; simpl.
  - by eapply Hco.
  - apply coherent_fresh.
Qed.

Lemma merged_numbers_fine (ns extracted : list string) :
  NoDup ns ->
  NoDup (ns ++ firstSeen ns extracted)
  ∧ (extracted ≠ [] -> ns ++ firstSeen ns extracted ≠ []).
Proof.
  intros Hnd. split.
  - apply NoDup_app. split; [done|]. split; [|apply firstSeen_NoDup].
    intros x Hx Hx'. by apply firstSeen_elem in Hx' as [_ Hx'].
  - intros Hne Hnil. apply app_eq_nil in Hnil as [-> Hnil].
    apply firstSeen_nil_inv in Hnil. done.
Qed.

Lemma coherent_afterFile (st : UserState) (extracted : list string) :
  coherent st -> collectsNumbers st -> extracted ≠ [] ->
  coherent (afterFile st extracted).
Proof.
  intros [Hnd Hst] Hcollect Hne. unfold afterFile.
  destruct (merged_numbers_fine (numbers st) extracted Hnd) as [Hnd' Hne'].
  split; [done|]. simpl. split; [by apply Hne'|].
  destruct Hcollect as [Hs|Hs]; rewrite Hs in Hst; by destruct Hst.
Qed.

Lemma coherent_afterNumbersText (st : UserState) (userMessage : string) :
  coherent st -> collectsNumbers st ->
  coherent (afterNumbersText st userMessage).
Proof.
  intros Hst Hcollect. unfold afterNumbersText.
  destruct (readsAsConfirm userMessage).
  - destruct (numbers st) as [|n ns] eqn:Hn; [done|].
    destruct Hst as [Hnd Hlists]. rewrite Hn in Hnd.
    split; [done|]. simpl. split; [done|].
    destruct Hcollect as [Hs|Hs]; rewrite Hs in Hlists; by destruct Hlists.
  - destruct (extractNumbers userMessage) as [|n ns] eqn:He; [done|].
    by apply (coherent_afterFile st (n :: ns)).
Qed.

Lemma coherent_afterMessagesText (st : UserState) (userMessage : string) :
  coherent st -> collectsMessages st ->
  coherent (afterMessagesText st userMessage).
Proof.
  intros Hst Hcollect. unfold afterMessagesText.
  case_bool_decide.
  - destruct (messages st); [done|apply coherent_fresh].
  - destruct Hst as [Hnd Hlists]. split; [done|]. simpl.
    split; [|by intros [_ [=]]%app_eq_nil].
    destruct Hcollect as [Hs|Hs]; rewrite Hs in Hlists; by destruct Hlists.
Qed.

Lemma coherent_nextSession (st : UserState) (authorised : bool)
    (userMessage : string) :
  coherent st -> coherent (nextSession st authorised userMessage).
Proof.
  intros Hst. unfold nextSession.
  destruct (readsAsCancel userMessage).
  { destruct authorised; [apply coherent_fresh|done]. }
  destruct authorised; cbn [negb]; [|done].
  destruct (step st) eqn:Hstep; [done|..].
  - apply coherent_afterNumbersText; [done|by left].
  - apply coherent_afterNumbersText; [done|by right].
  - apply coherent_afterMessagesText; [done|by left].
  - apply coherent_afterMessagesText; [done|by right].
Qed.

Lemma wellFormed_step (w w' : World Ext) (from : string) (st' : UserState) :
  wellFormed w -> coherent st' ->
  userStates w' = <[from := st']> (userStates w) ->
  (∀ k, k ∈ authenticatedUsers w' -> k = from ∨ k ∈ authenticatedUsers w) ->
  wellFormed w'.
Proof.
  intros [Hco Hreg] Hst' Hs Ha. split.
  - intros k st. rewrite Hs. destruct (decide (k = from)) as [->|Hk].
    + rewrite lookup_insert_eq. by intros [= <-].
    + rewrite lookup_insert_ne by done. apply Hco.
  - intros k Hk. rewrite Hs. destruct (decide (k = from)) as [->|Hne].
    + rewrite lookup_insert_eq. by eexists.
    + rewrite lookup_insert_ne by done. apply Hreg.
      by destruct (Ha k Hk).
Qed.

End Handlers.

(** [catchAllFlow] is a state machine over the session of the sender:
    after a text, the record of the sender is the one the transition
    [nextSession] gives from the record before (the default one when
    there was none), the sender is authorised exactly when
    [nextAuthorised] says so, and no other record or authorisation has
    changed. *)
Theorem catchAllFlow_is_a_state_machine {Ext} (provider : Transport Ext)
    (BOT_SECRET_KEY from body : string) (w : World Ext) :
  let authorised := bool_decide (from ∈ authenticatedUsers w) in
  let w' := (catchAllFlow provider BOT_SECRET_KEY from body w).2 in
  userStates w'
  = <[from := nextSession (sessionOf w from) authorised (JS.trim body)]>
      (userStates w)
  ∧ (from ∈ authenticatedUsers w'
     ↔ nextAuthorised BOT_SECRET_KEY authorised (JS.trim body) = true)
  ∧ (∀ k, k ≠ from ->
       (k ∈ authenticatedUsers w' ↔ k ∈ authenticatedUsers w)).
Proof.
  intros authorised w'.
  destruct (catchAllFlow_bot provider BOT_SECRET_KEY from body w) as [Hs Ha].
  fold authorised w' in Hs, Ha. split; [exact Hs|]. rewrite Ha.
  destruct (nextAuthorised _ _ _); split; try intros k Hk; set_solver.
Qed.

(** Every handler keeps the session store well formed: each record has
    numbers without duplicates and lists that fit its step (none at
    [idle] and [waiting_numbers], numbers from [confirming_numbers] on,
    messages only at [confirming_messages]), and each authorised key
    has a record. *)
Theorem handlers_keep_sessions_well_formed {Ext} (provider : Transport Ext)
    (files : Files Ext) (BOT_SECRET_KEY from body : string)
    (ctx : DocumentCtx) (w : World Ext) :
  wellFormed w ->
  wellFormed (catchAllFlow provider BOT_SECRET_KEY from body w).2
  ∧ wellFormed (spamFlow from w).2
  ∧ wellFormed (cancelFlow from w).2
  ∧ wellFormed (documentFlow files ctx w).2.
Proof.
  intros Hw. split; [|split; [|split]].
  - destruct (catchAllFlow_bot provider BOT_SECRET_KEY from body w)
      as [Hs Ha].
    eapply wellFormed_step; [exact Hw| |exact Hs|].
    + by apply coherent_nextSession, coherent_sessionOf.
    + intros k. rewrite Ha. destruct (nextAuthorised _ _ _); set_solver.
  - destruct (spamFlow_run from w) as [text ->].
    case_bool_decide; [|done].
    eapply wellFormed_step; [exact Hw| |reflexivity|by right].
    split; [constructor|done].
  - rewrite cancelFlow_run. case_bool_decide; [|done].
    eapply wellFormed_step; [exact Hw|apply coherent_fresh|reflexivity|].
    simpl. set_solver.
  - destruct (documentFlow_bot files ctx w) as (w' & -> & Ha & Hout & Hin).
    simpl. destruct (decide (doc_from ctx ∈ authenticatedUsers w)) as [Hauth|Hauth];
      [|by rewrite Hout].
    destruct (Hin Hauth) as (st' & Hs & Hst').
    eapply wellFormed_step; [exact Hw| |exact Hs|rewrite Ha; by right].
    destruct Hst' as [->|(Hcollect & lines & Hne & ->)].
    + by apply coherent_sessionOf.
    + apply coherent_afterFile;
        [by apply coherent_sessionOf|exact Hcollect|exact Hne].
Qed.

(** No handler changes the record or the authorisation of a session
    other than the sender's. *)
Theorem handlers_touch_only_the_sender {Ext} (provider : Transport Ext)
    (files : Files Ext) (BOT_SECRET_KEY from body : string)
    (ctx : DocumentCtx) (w : World Ext) (k : string) :
  (k ≠ from ->
   let w' := (catchAllFlow provider BOT_SECRET_KEY from body w).2 in
   userStates w' !! k = userStates w !! k
   ∧ (k ∈ authenticatedUsers w' ↔ k ∈ authenticatedUsers w))
  ∧ (k ≠ from ->
     userStates (spamFlow from w).2 !! k = userStates w !! k
     ∧ (k ∈ authenticatedUsers (spamFlow from w).2
        ↔ k ∈ authenticatedUsers w))
  ∧ (k ≠ from ->
     userStates (cancelFlow from w).2 !! k = userStates w !! k
     ∧ (k ∈ authenticatedUsers (cancelFlow from w).2
        ↔ k ∈ authenticatedUsers w))
  ∧ (k ≠ doc_from ctx ->
     userStates (documentFlow files ctx w).2 !! k = userStates w !! k
     ∧ (k ∈ authenticatedUsers (documentFlow files ctx w).2
        ↔ k ∈ authenticatedUsers w)).
Proof.
  split; [|split; [|split]]; intros Hk.
  - destruct (catchAllFlow_bot provider BOT_SECRET_KEY from body w)
      as [Hs Ha].
    cbv zeta. rewrite Hs, Ha, lookup_insert_ne by done.
    split; [done|]. destruct (nextAuthorised _ _ _); set_solver.
  - destruct (spamFlow_run from w) as [text ->].
    case_bool_decide; [|done]. simpl. by rewrite lookup_insert_ne.
  - rewrite cancelFlow_run. case_bool_decide; [|done]. simpl.
    rewrite lookup_insert_ne by done. split; [done|]. set_solver.
  - destruct (documentFlow_bot files ctx w) as (w' & -> & Ha & Hout & Hin).
    simpl. destruct (decide (doc_from ctx ∈ authenticatedUsers w)) as [Hauth|Hauth];
      [|by rewrite Hout].
    destruct (Hin Hauth) as (st' & Hs & _).
    by rewrite Hs, Ha, lookup_insert_ne.
Qed.

(** ** Single transitions of the conversation *)

Section Transitions.

Context {Ext : Type}.
Variable provider : Transport Ext.
Variable BOT_SECRET_KEY : string.

(** A text that is no cancellation, from an authorised sender with a
    record: the branch of the step of the record runs on the world as
    it is. *)
Lemma catchAllFlow_authorised (from body : string) (st : UserState)
    (w : World Ext) :
  from ∈ authenticatedUsers w ->
  userStates w !! from = Some st ->
  readsAsCancel (JS.trim body) = false ->
  catchAllFlow provider BOT_SECRET_KEY from body w
  = match step st with
    | waiting_numbers | confirming_numbers =>
        numbersStep from (JS.trim body) st w
    | waiting_messages | confirming_messages =>
        messagesStep provider from (JS.trim body) st w
    | idle =>
        flowDynamic from (JS.join nl [
          "*Sesion activa*";
          "";
          "Comandos disponibles:";
          "- *spam* - Enviar mensajes masivos";
          "- *Cancel* - Cerrar sesion"]) w
    end.
Proof.
  intros Hauth Hst Hcancel.
  unfold catchAllFlow, bind at 1, getState. rewrite Hst.
  fold (readsAsCancel (JS.trim body)). rewrite Hcancel.
  unfold bind at 1, isAuthenticated. rewrite bool_decide_true by done.
  cbn [negb]. unfold bind at 1, readState. rewrite Hst.
  cbn [default from_option]. unfold id. by destruct (step st).
Qed.

End Transitions.

(** The send trigger with messages in the queue answers that the
    dispatch starts, replaces the record of the session by the default
    one, dispatches the messages to the numbers of the session, each
    number once, and answers with the counters of the dispatch, which
    add up to the number of distinct numbers.  The sender stays
    authorised. *)
Theorem send_trigger_dispatches_snapshot {Ext} (provider : Transport Ext)
    (BOT_SECRET_KEY from body : string) (st : UserState) (w : World Ext) :
  from ∈ authenticatedUsers w ->
  userStates w !! from = Some st ->
  collectsMessages st ->
  messages st ≠ [] ->
  JS.trim body = "Enviar" ->
  ∃ result evs w',
    catchAllFlow provider BOT_SECRET_KEY from body w = (Ret tt, w')
    ∧ trace w'
      = trace w ++ [EvReply from (dispatchStarting st)] ++ evs
        ++ [EvReply from (dispatchSummary result)]
    ∧ Forall (dispatchEvent (arrayFromSet (numbers st)) (messages st)) evs
    ∧ success result + failed result + notOnWhatsApp result
      = length (arrayFromSet (numbers st))
    ∧ userStates w' = <[from := freshState]> (userStates w)
    ∧ authenticatedUsers w' = authenticatedUsers w.
Proof.
  intros Hauth Hst Hstep Hm Htrim.
  rewrite (catchAllFlow_authorised provider BOT_SECRET_KEY from body st w)
    by (done || by rewrite Htrim).
  rewrite Htrim.
  assert (messagesStep provider from "Enviar" st w
          = match sendBulkWhatsApp provider (arrayFromSet (numbers st))
                    (messages st) None
                    (mkWorld (authenticatedUsers w)
                       (<[from := freshState]> (userStates w)) (ext w)
                       (trace w ++ [EvReply from (dispatchStarting st)])) with
            | (Ret result, w2) =>
                (Ret tt,
                 mkWorld (authenticatedUsers w2) (userStates w2) (ext w2)
                   (trace w2 ++ [EvReply from (dispatchSummary result)]))
            | (Throw, w2) => (Throw, w2)
            end) as Hsend by by apply messagesStep_send.
  assert (match step st with
          | waiting_numbers | confirming_numbers =>
              numbersStep from "Enviar" st w
          | waiting_messages | confirming_messages =>
              messagesStep provider from "Enviar" st w
          | idle =>
              flowDynamic from (JS.join nl [
                "*Sesion activa*"; ""; "Comandos disponibles:";
                "- *spam* - Enviar mensajes masivos";
                "- *Cancel* - Cerrar sesion"]) w
          end = messagesStep provider from "Enviar" st w) as ->
    by by destruct Hstep as [-> | ->].
  rewrite Hsend. unfold sendBulkWhatsApp.
  set (w1 := mkWorld _ _ _ _).
  set (recipients := arrayFromSet (numbers st)).
  destruct (dispatchFrom_steps provider (length recipients) (messages st) None
              recipients 0 (mkCounters 0 0 0) w1)
    as (o & evs & w2 & Hrun & [[Ha Hs] Ht] & Ho).
  destruct (dispatchFrom_allowed provider recipients (messages st) None
              recipients 0 (mkCounters 0 0 0) w1)
    as (o' & evs' & w2' & Hrun' & [_ Ht'] & Hall); [done|done|].
  rewrite Hrun in Hrun'. injection Hrun' as <- <-.
  rewrite Ht in Ht'. apply app_inv_head in Ht'. subst evs'.
  rewrite Hrun.
  destruct o as [result|]; [|by destruct Ho as (sink & _ & _ & [=] & _)].
  destruct Ho as (vs & Hlen & -> & _).
  eexists (tallyFrom (mkCounters 0 0 0) vs), evs, _.
  split; [reflexivity|]. cbn [trace userStates authenticatedUsers].
  split; [by rewrite Ht; subst w1; simpl; rewrite <- !app_assoc|].
  split; [done|].
  split; [rewrite tallyFrom_sum; simpl; lia|].
  by rewrite Hs, Ha.
Qed.

(** A sender that is not authorised gets one answer at most, and only
    for the secret; the handler calls no collaborator, so that nothing
    is sent.  A secret that reads as a cancellation is not accepted. *)
Theorem unauthorised_sender_gets_no_service {Ext} (provider : Transport Ext)
    (BOT_SECRET_KEY from body : string) (w : World Ext) :
  from ∉ authenticatedUsers w ->
  ∃ w',
    catchAllFlow provider BOT_SECRET_KEY from body w = (Ret tt, w')
    ∧ ext w' = ext w
    ∧ trace w'
      = trace w
        ++ (if nextAuthorised BOT_SECRET_KEY false (JS.trim body)
            then [EvReply from accessGranted] else []).
Proof.
  intros Hauth.
  rewrite (catchAllFlow_unauthorized provider BOT_SECRET_KEY from body w Hauth).
  eexists. split; [reflexivity|].
  unfold nextAuthorised, readsAsCancel. cbn [orb].
  assert (ext (getState from w).2 = ext w
          ∧ trace (getState from w).2 = trace w) as [He Ht].
  { unfold getState. by destruct (userStates w !! from). }
  destruct (JS.includes _ _); cbn [negb andb].
  - by rewrite He, Ht, app_nil_r.
  - case_bool_decide; [done|]. by rewrite He, Ht, app_nil_r.
Qed.

(** Logging in and cancelling is a round trip: the authorised set is
    the one before, and the session has the default record. *)
Theorem login_then_cancel_round_trip {Ext} (provider : Transport Ext)
    (BOT_SECRET_KEY from body : string) (w : World Ext) :
  from ∉ authenticatedUsers w ->
  JS.trim body = BOT_SECRET_KEY ->
  readsAsCancel BOT_SECRET_KEY = false ->
  let w1 := (catchAllFlow provider BOT_SECRET_KEY from body w).2 in
  let w2 := (cancelFlow from w1).2 in
  from ∈ authenticatedUsers w1
  ∧ authenticatedUsers w2 = authenticatedUsers w
  ∧ userStates w2 = <[from := freshState]> (userStates w).
Proof.
  intros Hauth Hkey Hcancel w1 w2. subst w2.
  destruct (catchAllFlow_bot provider BOT_SECRET_KEY from body w) as [Hs Ha].
  fold w1 in Hs, Ha. rewrite Hkey in Hs, Ha.
  unfold nextAuthorised in Ha. rewrite Hcancel in Ha.
  rewrite (bool_decide_true (BOT_SECRET_KEY = BOT_SECRET_KEY)) in Ha by done.
  rewrite orb_true_r in Ha.
  assert (from ∈ authenticatedUsers w1) as Hin by (rewrite Ha; set_solver).
  split; [done|].
  rewrite cancelFlow_run, (bool_decide_true _ Hin). simpl.
  rewrite Hs, Ha, insert_insert_eq. split; [set_solver|done].
Qed.

(** After the start keyword what the session had collected has no
    influence: the next text is handled as for a session without
    numbers and messages. *)
Theorem spam_discards_what_was_collected {Ext} (provider : Transport Ext)
    (BOT_SECRET_KEY from body : string) (w : World Ext) :
  from ∈ authenticatedUsers w ->
  readsAsCancel (JS.trim body) = false ->
  userStates (catchAllFlow provider BOT_SECRET_KEY from body
                (spamFlow from w).2).2
  = <[from := afterNumbersText (mkUserState waiting_numbers [] [])
                (JS.trim body)]> (userStates w).
Proof.
  intros Hauth Hcancel.
  destruct (spamFlow_run from w) as [text Hspam].
  rewrite (bool_decide_true _ Hauth) in Hspam. rewrite Hspam. cbn [snd].
  set (w1 := mkWorld _ _ _ _).
  destruct (catchAllFlow_bot provider BOT_SECRET_KEY from body w1) as [Hs _].
  rewrite Hs. subst w1. unfold sessionOf. simpl.
  rewrite lookup_insert_eq, insert_insert_eq. simpl.
  rewrite (bool_decide_true _ Hauth). unfold nextSession.
  by rewrite Hcancel.
Qed.

(** ** Uploaded documents, continued *)

(** [documentFlow] never throws and never changes who is authorised.
    For a sender that is not authorised it does nothing at all.
    Otherwise the record of the sender stays as it is, or, at a step
    that collects numbers, gets the identifiers found in the first
    columns of a file merged into its numbers and moves to
    [confirming_numbers]. *)
Theorem document_upload_effect {Ext} (files : Files Ext) (ctx : DocumentCtx)
    (w : World Ext) :
  ∃ w',
    documentFlow files ctx w = (Ret tt, w')
    ∧ authenticatedUsers w' = authenticatedUsers w
    ∧ (doc_from ctx ∉ authenticatedUsers w -> w' = w)
    ∧ (doc_from ctx ∈ authenticatedUsers w ->
       ∃ st',
         userStates w' = <[doc_from ctx := st']> (userStates w)
         ∧ (st' = sessionOf w (doc_from ctx)
            ∨ collectsNumbers (sessionOf w (doc_from ctx))
              ∧ ∃ lines,
                  firstSeen [] (csvCandidates lines) ≠ []
                  ∧ st' = afterFile (sessionOf w (doc_from ctx))
                            (firstSeen [] (csvCandidates lines)))).
Proof. apply documentFlow_bot. Qed.

Section Uploads.

Context {Ext : Type}.
Variable files : Files Ext.

(** An accepted upload at a step that collects numbers, up to the
    [try] block. *)
Lemma documentFlow_collecting (ctx : DocumentCtx) (st : UserState)
    (w : World Ext) :
  doc_from ctx ∈ authenticatedUsers w ->
  userStates w !! doc_from ctx = Some st ->
  collectsNumbers st ->
  documentFlow files ctx w
  = catching (receiveDocument files ctx st)
      (λ message,
         flowDynamic (doc_from ctx) ("Hubo un error: " +:+ message)) w.
Proof.
  intros Hauth Hst Hcollect.
  unfold documentFlow, bind at 1, isAuthenticated.
  rewrite bool_decide_true by done. cbn [negb].
  unfold bind at 1, getState. rewrite Hst.
  by destruct Hcollect as [-> | ->].
Qed.

End Uploads.

(** An upload of an accepted type whose file is saved and read to the
    end: the identifiers of its first columns that the session did not
    have are appended to the numbers of the session, the step becomes
    [confirming_numbers], the saved file is removed, and the answer
    reports how many were added and how many there are. *)
Theorem document_upload_merges_first_columns {Ext} (files : Files Ext)
    (ctx : DocumentCtx) (st : UserState) (path : string)
    (lines : list string) (x1 x2 : Ext) (w : World Ext) :
  doc_from ctx ∈ authenticatedUsers w ->
  userStates w !! doc_from ctx = Some st ->
  collectsNumbers st ->
  isValidType (JSText.orElse (doc_mimetype ctx) "")
    (JSText.orElse (doc_fileName ctx) "documento") = true ->
  tmpDirExists files (ext w) = true ->
  saveFile files ctx (ext w) = (Ok (Some path), x1) ->
  path ≠ "" ->
  fileExists files path x1 = true ->
  readLines files path x1 = (mkLineStream lines None, x2) ->
  firstSeen [] (csvCandidates lines) ≠ [] ->
  let found := firstSeen [] (csvCandidates lines) in
  documentFlow files ctx w
  = (Ret tt,
     mkWorld (authenticatedUsers w)
       (<[doc_from ctx := afterFile st found]> (userStates w))
       (unlinkQuietly files path x2)
       (trace w
        ++ [EvReply (doc_from ctx) "Procesando archivo...";
            EvReply (doc_from ctx)
              (fileReport (afterFile st found)
                 (length (firstSeen (numbers st) found)))])).
Proof.
  intros Hauth Hst Hcollect Hvalid Htmp Hsave Hpath Hexists Hread Hfound found.
  rewrite (documentFlow_collecting files ctx st w) by done.
  unfold catching, receiveDocument. rewrite Hvalid. cbn [negb].
  unfold bindR at 1, liftR at 1, flowDynamic at 1, emit.
  unfold bindR at 1, readExt. cbn [ext]. rewrite Htmp. cbn [negb].
  unfold bindR at 1, retR. unfold bindR at 1, callR at 1. cbn [ext].
  rewrite Hsave.
  assert (JSText.truthy (Some path) = Some path) as ->
    by (by destruct path).
  unfold bindR at 1, callR at 1. cbn [ext].
  assert (parseCSVFile files path x1 = (Ok found, x2)) as ->.
  { unfold parseCSVFile. rewrite Hexists, Hread. cbn [negb].
    by rewrite csv_lines_fold. }
  unfold bindR at 1, callR at 1. cbn [ext].
  fold found in Hfound. destruct found as [|n ns] eqn:Hf; [done|].
  cbn [length Nat.eqb]. rewrite addNumbersToState_firstSeen.
  unfold bindR, liftR, writeState, flowDynamic, emit. simpl.
  by rewrite <- app_assoc.
Qed.

(** Three uploads that fail leave the session as it was and are
    answered each in its way: a file of a type that is not accepted
    (nothing is saved: the collaborators are not called), a download
    that gives no path, and a saved file that is not found, of which
    the error message is passed on. *)
Theorem document_upload_failures {Ext} (files : Files Ext)
    (ctx : DocumentCtx) (st : UserState) (w : World Ext) :
  doc_from ctx ∈ authenticatedUsers w ->
  userStates w !! doc_from ctx = Some st ->
  collectsNumbers st ->
  (isValidType (JSText.orElse (doc_mimetype ctx) "")
     (JSText.orElse (doc_fileName ctx) "documento") = false ->
   documentFlow files ctx w
   = (Ret tt,
      mkWorld (authenticatedUsers w) (userStates w) (ext w)
        (trace w
         ++ [EvReply (doc_from ctx)
               "El archivo debe ser un CSV o TXT. Intenta de nuevo."])))
  ∧ (∀ savedPath x1,
       isValidType (JSText.orElse (doc_mimetype ctx) "")
         (JSText.orElse (doc_fileName ctx) "documento") = true ->
       tmpDirExists files (ext w) = true ->
       saveFile files ctx (ext w) = (Ok savedPath, x1) ->
       JSText.truthy savedPath = None ->
       documentFlow files ctx w
       = (Ret tt,
          mkWorld (authenticatedUsers w) (userStates w) x1
            (trace w
             ++ [EvReply (doc_from ctx) "Procesando archivo...";
                 EvReply (doc_from ctx)
                   "No pude descargar el archivo. Intenta enviarlo de nuevo."])))
  ∧ (∀ path x1,
       isValidType (JSText.orElse (doc_mimetype ctx) "")
         (JSText.orElse (doc_fileName ctx) "documento") = true ->
       tmpDirExists files (ext w) = true ->
       saveFile files ctx (ext w) = (Ok (Some path), x1) ->
       path ≠ "" ->
       fileExists files path x1 = false ->
       documentFlow files ctx w
       = (Ret tt,
          mkWorld (authenticatedUsers w) (userStates w) x1
            (trace w
             ++ [EvReply (doc_from ctx) "Procesando archivo...";
                 EvReply (doc_from ctx)
                   "Hubo un error: Archivo no encontrado"]))).
Proof.
  intros Hauth Hst Hcollect.
  rewrite (documentFlow_collecting files ctx st w) by done.
  unfold catching, receiveDocument.
  split; [|split].
  - intros ->. done.
  - intros savedPath x1 -> Htmp Hsave Hnone. cbn [negb].
    unfold bindR at 1, liftR at 1, flowDynamic at 1, emit.
    unfold bindR at 1, readExt. cbn [ext]. rewrite Htmp. cbn [negb].
    unfold bindR at 1, retR. unfold bindR at 1, callR at 1. cbn [ext].
    rewrite Hsave, Hnone. unfold liftR, flowDynamic, emit. simpl.
    by rewrite <- app_assoc.
  - intros path x1 -> Htmp Hsave Hpath Hmissing. cbn [negb].
    unfold bindR at 1, liftR at 1, flowDynamic at 1, emit.
    unfold bindR at 1, readExt. cbn [ext]. rewrite Htmp. cbn [negb].
    unfold bindR at 1, retR. unfold bindR at 1, callR at 1. cbn [ext].
    rewrite Hsave.
    assert (JSText.truthy (Some path) = Some path) as ->
      by (by destruct path).
    unfold bindR at 1, callR at 1. cbn [ext].
    unfold parseCSVFile. rewrite Hmissing. cbn [negb].
    unfold flowDynamic, emit. simpl. by rewrite <- app_assoc.
Qed.

(** ** Bulk mail *)

Section MailProofs.

Context {MT : Type}.
Variable transporter : MailTransport MT.
Variables EMAIL_USER EMAIL_PASS : string.

Lemma sendBulkEmails_fold (subject text : string) (html : option string)
    (emails : list string) (r : MailResult) (s : MT) :
  let out := foldl (mailOne transporter EMAIL_USER subject text html) (r, s)
               emails in
  mail_success out.1 + mail_failed out.1
  = mail_success r + mail_failed r + length emails
  ∧ length (mail_errors out.1) + mail_failed r
    = length (mail_errors r) + mail_failed out.1
  ∧ (∃ new, mail_errors out.1 = mail_errors r ++ new
            ∧ Forall (λ err, ∃ email message,
                        email ∈ emails
                        ∧ err = email +:+ ": " +:+ message) new)
  ∧ out.2
    = foldl (λ s email,
               (sendMail transporter
                  (mkEnvelope EMAIL_USER email subject text
                     (default text html)) s).2) s emails.
Proof.
  revert r s. induction emails as [|email emails IH]; intros r s.
  - simpl. split; [lia|]. split; [lia|]. split; [|done].
    exists []. by rewrite app_nil_r.
  - cbn [foldl]. unfold mailOne at 2 4 6 8 10 12.
    destruct (sendMail transporter _ s) as [[[]|message] s'] eqn:Hsend.
    + destruct (IH (mkMailResult (S (mail_success r)) (mail_failed r)
                      (mail_errors r)) s') as (Hc & He & (new & Hn & Hall) & Hs).
      simpl in *. split; [lia|]. split; [lia|]. split; [|done].
      exists new. split; [done|].
      eapply Forall_impl; [exact Hall|].
      intros err (e & m & He' & ->). exists e, m. split; [by right|done].
    + destruct (IH (mkMailResult (mail_success r) (S (mail_failed r))
                      (mail_errors r ++ [email +:+ ": " +:+ message])) s')
        as (Hc & He & (new & Hn & Hall) & Hs).
      simpl in *. rewrite length_app in He. simpl in He.
      split; [lia|]. split; [lia|]. split; [|done].
      exists ((email +:+ ": " +:+ message) :: new).
      split; [by rewrite Hn, <- app_assoc|].
      constructor; [exists email, message; split; [by left|done]|].
      eapply Forall_impl; [exact Hall|].
      intros err (e & m & He' & ->). exists e, m. split; [by right|done].
Qed.

End MailProofs.

(** [sendBulkEmails] attempts every address once, in order, whatever
    fails: the transport is used for each address in turn, every address
    is counted as a success or as a failure, and there is one error
    line per failure, which starts with the address it is about. *)
Theorem sendBulkEmails_accounts_for_every_address {MT}
    (transporter : MailTransport MT) (EMAIL_USER : string)
    (emails : list string) (subject text : string) (html : option string)
    (s : MT) :
  let out := sendBulkEmails transporter EMAIL_USER emails subject text html s in
  mail_success out.1 + mail_failed out.1 = length emails
  ∧ length (mail_errors out.1) = mail_failed out.1
  ∧ Forall (λ err, ∃ email message,
              email ∈ emails ∧ err = email +:+ ": " +:+ message)
      (mail_errors out.1)
  ∧ out.2
    = foldl (λ s email,
               (sendMail transporter
                  (mkEnvelope EMAIL_USER email subject text
                     (default text html)) s).2) s emails.
Proof.
  intros out. subst out. unfold sendBulkEmails.
  destruct (sendBulkEmails_fold transporter EMAIL_USER subject text html
              emails (mkMailResult 0 0 []) s)
    as (Hc & He & (new & Hn & Hall) & Hs).
  simpl in *. split; [lia|]. split; [lia|]. split; [|done].
  by rewrite Hn.
Qed.

(** The route for bulk mail uses the transport only for a request with
    at least one address and a subject and a text that are not empty,
    and only when the credentials are configured; every other request
    is refused with status 400 or 500 and nothing is sent.  A request
    that is served accounts for each of its addresses. *)
Theorem emailSendRoute_refuses_before_sending {MT}
    (transporter : MailTransport MT) (EMAIL_USER EMAIL_PASS : string)
    (body : MailBody) (s : MT) :
  match emailSendRoute transporter EMAIL_USER EMAIL_PASS body s with
  | (MailRefused status _, s') => s' = s ∧ (status = 400 ∨ status = 500)
  | (MailCompleted result, _) =>
      ∃ emails subject text,
        mb_emails body = Some emails ∧ emails ≠ []
        ∧ mb_subject body = Some subject ∧ subject ≠ ""
        ∧ mb_text body = Some text ∧ text ≠ ""
        ∧ EMAIL_USER ≠ "" ∧ EMAIL_PASS ≠ ""
        ∧ mail_success result + mail_failed result = length emails
  end.
Proof.
  unfold emailSendRoute.
  destruct (mb_emails body) as [[|email emails]|] eqn:He; [by auto..| |by auto].
  destruct (mb_subject body) as [subject|] eqn:Hsub; simpl; [|by auto].
  destruct subject as [|c subject]; simpl; [by auto|].
  destruct (mb_text body) as [text|] eqn:Htext; simpl; [|by auto].
  destruct text as [|d text]; simpl; [by auto|].
  destruct EMAIL_USER as [|u user]; simpl; [by auto|].
  destruct EMAIL_PASS as [|p pass]; simpl; [by auto|].
  pose proof (sendBulkEmails_fold transporter (String u user)
                (String c subject) (String d text) (mb_html body)
                (email :: emails) (mkMailResult 0 0 []) s) as (Hc & _).
  unfold sendBulkEmails.
  destruct (foldl _ _ _) as [result s'].
  exists (email :: emails), (String c subject), (String d text).
  simpl in Hc. repeat split; done.
Qed.

(** ** The route for bulk dispatch *)

Lemma sortNumbers_fold (numbers valid invalid : list string) :
  foldl sortNumber (valid, invalid) numbers
  = (valid ++ omap normalizePeruNumber numbers,
     invalid ++ filter (λ n, normalizePeruNumber n = None) numbers).
Proof.
  revert valid invalid.
  induction numbers as [|num numbers IH]; intros valid invalid.
  - by rewrite !app_nil_r.
  - cbn [foldl]. unfold sortNumber at 2. cbn [fst snd].
    destruct (normalizePeruNumber num) as [n|] eqn:Hn.
    + assert (JSText.truthy (Some n) = Some n) as ->.
      { unfold JSText.truthy. by rewrite (normalize_nonempty _ _ Hn). }
      rewrite IH. cbn [omap list_omap]. rewrite Hn.
      rewrite filter_cons_False by by rewrite Hn.
      by rewrite <- app_assoc.
    + cbn [JSText.truthy]. rewrite IH. cbn [omap list_omap]. rewrite Hn.
      rewrite filter_cons_True by done.
      by rewrite <- app_assoc.
Qed.

(** The route for bulk dispatch either refuses without touching
    anything, or accepts: then the numbers that are not valid are
    reported as they were given and in their order, the count of valid
    ones and they add up to the numbers given, there is at least one
    valid number and one message, and the dispatch serves each distinct
    valid number once, so that its counters add up to at most the count
    reported. *)
Theorem bulkRoute_sorts_and_dispatches {Ext} (provider : Transport Ext)
    (body : BulkBody) (w : World Ext) :
  match bulkRoute provider body w with
  | (Ret (BulkRefused _ _, dispatched), w') => dispatched = None ∧ w' = w
  | (Ret (BulkAccepted validCount messageCount invalid, dispatched), _) =>
      ∃ numbers result,
        body_numbers body = Some numbers
        ∧ dispatched = Some result
        ∧ invalid = filter (λ n, normalizePeruNumber n = None) numbers
        ∧ validCount + length invalid = length numbers
        ∧ 0 < validCount
        ∧ messageCount = length (messageListOf body) ∧ 0 < messageCount
        ∧ success result + failed result + notOnWhatsApp result
          = length (arrayFromSet (omap normalizePeruNumber numbers))
        ∧ success result + failed result + notOnWhatsApp result ≤ validCount
  | (Throw, _) => False
  end.
Proof.
  unfold bulkRoute.
  destruct (body_numbers body) as [[|num numbers]|] eqn:Hn; [done| |done].
  destruct (length (messageListOf body) =? 0)%nat eqn:Hm; [done|].
  apply Nat.eqb_neq in Hm.
  unfold sortNumbers. rewrite sortNumbers_fold. cbn [app].
  set (valid := omap normalizePeruNumber (num :: numbers)).
  set (invalid := filter _ (num :: numbers)).
  destruct (length valid =? 0)%nat eqn:Hv; [done|].
  apply Nat.eqb_neq in Hv.
  unfold bind, sendBulkWhatsApp.
  destruct (dispatchFrom_steps provider (length (arrayFromSet valid))
              (messageListOf body) None (arrayFromSet valid) 0
              (mkCounters 0 0 0) w) as (o & evs & w' & -> & _ & Ho).
  destruct o as [result|]; [|by destruct Ho as (sink & _ & _ & [=] & _)].
  destruct Ho as (vs & Hlen & -> & _).
  exists (num :: numbers), (tallyFrom (mkCounters 0 0 0) vs).
  assert (length valid + length invalid = length (num :: numbers)) as Hsplit.
  { subst valid invalid. clear.
    induction (num :: numbers) as [|a l IH]; [done|].
    cbn [omap list_omap]. destruct (normalizePeruNumber a) eqn:Ha.
    - rewrite filter_cons_False by by rewrite Ha. simpl in *. lia.
    - rewrite filter_cons_True by done. simpl in *. lia. }
  assert (length (arrayFromSet valid) ≤ length valid) as Hle.
  { rewrite arrayFromSet_firstSeen. apply sublist_length, firstSeen_sublist. }
  rewrite tallyFrom_sum. simpl.
  repeat split; try done; lia.
Qed.

(** ** The dispatch loop of the earlier revision *)

Section EarlierLoop.

Context {Ext : Type}.
Variable provider : Transport Ext.

Lemma earlier_send (jid message : string) (c : Earlier.Sent)
    (w : World Ext) :
  ∃ ok w',
    tryCatch
      (bind (call (λ o, EvSendMessage jid message (returned o))
               (sendMessage provider jid message))
         (λ _, ret (Earlier.mkSent (S (Earlier.sent_success c))
                      (Earlier.sent_failed c))))
      (ret (Earlier.mkSent (Earlier.sent_success c)
              (S (Earlier.sent_failed c)))) w
    = (Ret (if ok : bool
            then Earlier.mkSent (S (Earlier.sent_success c))
                   (Earlier.sent_failed c)
            else Earlier.mkSent (Earlier.sent_success c)
                   (S (Earlier.sent_failed c))), w')
    ∧ stepsTo w [EvSendMessage jid message ok] w'.
Proof.
  unfold tryCatch, bind, call.
  destruct (sendMessage provider jid message (ext w)) as [[[]|] x].
  - eexists true, _. split; [reflexivity|]. by split.
  - eexists false, _. split; [reflexivity|]. by split.
Qed.

Lemma earlier_iteration_steps (total : nat) (message : string)
    (onProgress : ProgressSink Ext) (index : nat) (number : string)
    (c : Earlier.Sent) (w : World Ext) :
  ∃ o evs w',
    Earlier.iteration provider total message onProgress index number c w
    = (o, w')
    ∧ stepsTo w evs w'
    ∧ match o with
      | Ret c' =>
          Earlier.sent_success c' + Earlier.sent_failed c'
          = S (Earlier.sent_success c + Earlier.sent_failed c)
          ∧ map (λ s, s.1.1) (sendsOf evs) = [number +:+ "@s.whatsapp.net"]
          ∧ progressOf evs
            = match onProgress with
              | Some _ => [(index + 1, total)]
              | None => []
              end
      | Throw =>
          ∃ sink sent x, onProgress = Some sink
                         ∧ (sink sent total x).1 = Throw
      end.
Proof.
  unfold Earlier.iteration. unfold bind at 1, draw.
  destruct (randomBelow provider 5 (ext w)) as [r x0].
  unfold bind at 1, emit. cbn [authenticatedUsers userStates ext trace].
  set (pause := EvSleep _). set (w0 := mkWorld _ _ x0 _).
  assert (stepsTo w [pause] w0) as H0 by by split.
  unfold bind at 1.
  destruct (pause_steps provider (0 <? index)%nat 5000 3000 w0)
    as (e1 & w1 & -> & H1 & Hs1 & Hp1).
  unfold bind at 1.
  destruct (earlier_send (number +:+ "@s.whatsapp.net") message c w1)
    as (ok & w2 & -> & H2).
  set (jid := number +:+ "@s.whatsapp.net") in *.
  set (c2 := if ok then _ else _).
  assert (Earlier.sent_success c2 + Earlier.sent_failed c2
          = S (Earlier.sent_success c + Earlier.sent_failed c)) as Hsum.
  { subst c2. destruct ok; simpl; lia. }
  assert (stepsTo w ([pause] ++ e1 ++ [EvSendMessage jid message ok]) w2)
    as H012 by eauto using stepsTo_trans.
  set (evs := [pause] ++ e1 ++ _) in H012.
  assert (map (λ s, s.1.1) (sendsOf evs) = [jid]) as Hsends.
  { subst evs pause. by rewrite !sendsOf_app, Hs1. }
  assert (progressOf evs = []) as Hprog.
  { subst evs pause. by rewrite !progressOf_app, Hp1. }
  unfold bind, reportProgress. destruct onProgress as [sink|].
  - unfold call.
    destruct (sink (index + 1) total (ext w2)) as [[[]|] x] eqn:Hsink.
    + eexists (Ret c2), (evs ++ [EvProgress (index + 1) total]), _.
      split; [reflexivity|].
      split; [eapply stepsTo_trans; [exact H012|by split]|].
      split; [done|].
      split; [by rewrite sendsOf_app, app_nil_r|].
      by rewrite progressOf_app, Hprog.
    + eexists Throw, (evs ++ [EvProgress (index + 1) total]), _.
      split; [reflexivity|].
      split; [eapply stepsTo_trans; [exact H012|by split]|].
      exists sink, (index + 1), (ext w2). by rewrite Hsink.
  - by exists (Ret c2), evs, w2.
Qed.

Lemma earlier_dispatchFrom_steps (total : nat) (message : string)
    (onProgress : ProgressSink Ext) (rest : list string) (index : nat)
    (c : Earlier.Sent) (w : World Ext) :
  ∃ o evs w',
    Earlier.dispatchFrom provider total message onProgress index rest c w
    = (o, w')
    ∧ stepsTo w evs w'
    ∧ match o with
      | Ret c' =>
          Earlier.sent_success c' + Earlier.sent_failed c'
          = Earlier.sent_success c + Earlier.sent_failed c + length rest
          ∧ map (λ s, s.1.1) (sendsOf evs)
            = map (λ n, n +:+ "@s.whatsapp.net") rest
          ∧ progressOf evs
            = match onProgress with
              | Some _ => map (λ i, (i + 1, total)) (seq index (length rest))
              | None => []
              end
      | Throw =>
          ∃ sink sent x, onProgress = Some sink
                         ∧ (sink sent total x).1 = Throw
      end.
Proof.
  revert index c w. induction rest as [|number rest IH]; intros index c w.
  - exists (Ret c), [], w. split; [done|]. split; [apply stepsTo_refl|].
    simpl. split; [lia|]. by destruct onProgress.
  - simpl. unfold bind.
    destruct (earlier_iteration_steps total message onProgress index number
                c w) as (o1 & e1 & w1 & -> & H1 & Ho1).
    destruct o1 as [c1|]; [|by exists Throw, e1, w1].
    destruct Ho1 as (Hc1 & Hs1 & Hp1).
    destruct (IH (S index) c1 w1) as (o & e2 & w2 & -> & H2 & Ho).
    exists o, (e1 ++ e2), w2. split; [done|].
    split; [eauto using stepsTo_trans|].
    destruct o as [c2|]; [|done].
    destruct Ho as (Hc2 & Hs2 & Hp2).
    split; [lia|].
    split; [by rewrite sendsOf_app, map_app, Hs1, Hs2|].
    rewrite progressOf_app, Hp1, Hp2. by destruct onProgress.
Qed.

End EarlierLoop.

(** The loop of the earlier revision, which has no existence check,
    sends the message once to each number in order, counts each number
    as a success or as a failure, and calls the sink after every
    recipient, with 1 to K in turn; only a sink that throws ends it
    early. *)
Theorem earlier_loop_reports_every_recipient {Ext}
    (provider : Transport Ext) (numbers : list string) (message : string)
    (onProgress : ProgressSink Ext) (w : World Ext) :
  match Earlier.sendBulkWhatsApp provider numbers message onProgress w with
  | (Ret c, w') =>
      ∃ evs,
        trace w' = trace w ++ evs
        ∧ Earlier.sent_success c + Earlier.sent_failed c = length numbers
        ∧ map (λ s, s.1.1) (sendsOf evs)
          = map (λ n, n +:+ "@s.whatsapp.net") numbers
        ∧ progressOf evs
          = match onProgress with
            | Some _ =>
                map (λ i, (i + 1, length numbers)) (seq 0 (length numbers))
            | None => []
            end
  | (Throw, _) =>
      ∃ sink sent x, onProgress = Some sink
                     ∧ (sink sent (length numbers) x).1 = Throw
  end.
Proof.
  unfold Earlier.sendBulkWhatsApp.
  destruct (earlier_dispatchFrom_steps provider (length numbers) message
              onProgress numbers 0 (Earlier.mkSent 0 0) w)
    as (o & evs & w' & -> & [_ Ht] & Ho).
  destruct o as [c|]; [|done].
  destruct Ho as (Hc & Hs & Hp). exists evs. simpl in Hc.
  repeat split; try done; lia.
Qed.

(** ** Histories *)

Lemma handle_wellFormed {Ext} (provider : Transport Ext) (files : Files Ext)
    (BOT_SECRET_KEY : string) (event : Inbound) (w : World Ext) :
  wellFormed w -> wellFormed (handle provider files BOT_SECRET_KEY event w).2.
Proof.
  intros Hw. destruct event as [from body|from|from|ctx]; simpl.
  - destruct (catchAllFlow_bot provider BOT_SECRET_KEY from body w)
      as [Hs Ha].
    eapply wellFormed_step; [exact Hw| |exact Hs|].
    + by apply coherent_nextSession, coherent_sessionOf.
    + intros k. rewrite Ha. destruct (nextAuthorised _ _ _); set_solver.
  - destruct (spamFlow_run from w) as [text ->].
    case_bool_decide; [|done].
    eapply wellFormed_step; [exact Hw| |reflexivity|by right].
    split; [constructor|done].
  - rewrite cancelFlow_run. case_bool_decide; [|done].
    eapply wellFormed_step; [exact Hw|apply coherent_fresh|reflexivity|].
    simpl. set_solver.
  - destruct (documentFlow_bot files ctx w) as (w' & -> & Ha & Hout & Hin).
    simpl.
    destruct (decide (doc_from ctx ∈ authenticatedUsers w)) as [Hauth|Hauth];
      [|by rewrite Hout].
    destruct (Hin Hauth) as (st' & Hs & Hst').
    eapply wellFormed_step; [exact Hw| |exact Hs|rewrite Ha; by right].
    destruct Hst' as [->|(Hcollect & lines & Hne & ->)].
    + by apply coherent_sessionOf.
    + apply coherent_afterFile;
        [by apply coherent_sessionOf|exact Hcollect|exact Hne].
Qed.

(** Whatever the history of texts, keywords and uploads that reached
    the handlers since the start, the session store is well formed.  So
    a session that collects messages has at least one number and no
    number twice: the dispatch it can trigger goes to exactly its
    numbers. *)
Theorem reachable_sessions_well_formed {Ext} (provider : Transport Ext)
    (files : Files Ext) (BOT_SECRET_KEY : string) (events : list Inbound)
    (x : Ext) :
  let w := replay provider files BOT_SECRET_KEY events (mkWorld ∅ ∅ x []) in
  wellFormed w
  ∧ (∀ from st,
       userStates w !! from = Some st -> collectsMessages st ->
       numbers st ≠ [] ∧ arrayFromSet (numbers st) = numbers st).
Proof.
  intros w.
  assert (wellFormed w) as Hw.
  { subst w. unfold replay.
    assert (wellFormed (mkWorld ∅ ∅ x [])) as H0.
    { split; [intros k st; simpl; by rewrite lookup_empty|simpl; set_solver]. }
    revert H0. generalize (mkWorld ∅ ∅ x []).
    induction events as [|event events IH]; intros w0 H0; [done|].
    simpl. apply IH. by apply handle_wellFormed. }
  split; [exact Hw|].
  intros from st Hst Hcollect. destruct Hw as [Hco _].
  destruct (Hco from st Hst) as [Hnd Hlists].
  split.
  - destruct Hcollect as [Hs|Hs]; rewrite Hs in Hlists; by destruct Hlists.
  - rewrite arrayFromSet_firstSeen. by apply firstSeen_fixed.
Qed.

(** ** Extraction round trip *)

Lemma concat_cons2 (sep a b : string) (l : list string) :
  JS.join sep (a :: b :: l) = a +:+ sep +:+ JS.join sep (b :: l).
Proof. reflexivity. Qed.

Lemma splitRuns_piece (p : ascii -> bool) (piece rest cur : string)
    (inRun : bool) :
  JS.allChars (λ c, negb (p c)) piece = true -> piece ≠ "" ->
  JS.splitRuns p cur inRun (piece +:+ rest)
  = JS.splitRuns p (cur +:+ piece) false rest.
Proof.
  revert cur inRun. induction piece as [|c piece IH]; intros cur inRun Hp Hne;
    [done|].
  simpl in Hp. apply andb_true_iff in Hp as [Hc Hp]. apply negb_true_iff in Hc.
  change (String c piece +:+ rest) with (String c (piece +:+ rest)).
  simpl. rewrite Hc.
  destruct piece as [|d piece'].
  - change ("" +:+ rest) with rest. done.
  - rewrite IH by done. by rewrite string_app_assoc.
Qed.

Lemma split_join_lines (ids : list string) (inRun : bool) :
  Forall (λ s, JS.allChars (λ c, negb (isLineSeparator c)) s = true
               ∧ s ≠ "") ids ->
  ids ≠ [] ->
  JS.splitRuns isLineSeparator "" inRun (JS.join nl ids) = ids.
Proof.
  intros Hall. revert inRun.
  induction Hall as [|a l [Ha Hne] Hl IH]; intros inRun Hnil; [done|].
  destruct l as [|b l].
  - change (JS.join nl [a]) with a.
    rewrite <- (string_app_empty a) at 1.
    rewrite splitRuns_piece by done. done.
  - rewrite concat_cons2, splitRuns_piece by done.
    change (nl +:+ JS.join nl (b :: l))
      with (String "010" (JS.join nl (b :: l))).
    simpl JS.splitRuns. change ("" +:+ a) with a.
    by rewrite IH.
Qed.

Lemma identifier_plain (n : string) :
  isIdentifier n = true ->
  JS.allChars (λ c, negb (isLineSeparator c)) n = true ∧ n ≠ ""
  ∧ JS.trim n = n ∧ normalizePeruNumber n = Some n.
Proof.
  intros Hid. pose proof Hid as Hid'. unfold isIdentifier in Hid.
  apply andb_true_iff in Hid as [Hd H11].
  assert (∀ c, JS.isDigit c = true ->
               negb (isLineSeparator c) = true ∧ JS.isSpace c = false) as Hc.
  { intros c. by destruct c as [[] [] [] [] [] [] [] []]. }
  split; [|split; [|split]].
  - clear -Hd Hc. induction n as [|c n IH]; [done|]. simpl in *.
    apply andb_true_iff in Hd as [H1 H2].
    rewrite (proj1 (Hc c H1)). by apply IH.
  - by destruct n.
  - unfold JS.trim.
    assert (∀ s, JS.allChars JS.isDigit s = true -> JS.trimEnd s = s) as Hend.
    { intros s. induction s as [|c s IH]; [done|]. simpl.
      intros [H1 H2]%andb_true_iff. rewrite (proj2 (Hc c H1)). simpl.
      by rewrite IH. }
    destruct n as [|c n]; [done|]. simpl in Hd.
    apply andb_true_iff in Hd as [H1 H2].
    simpl JS.trimStart. rewrite (proj2 (Hc c H1)).
    apply Hend. simpl. by rewrite H1, H2.
  - rewrite normalize_by_shape, (allChars_digits_fixed _ Hd), H11.
    unfold hasElevenDigitShape in H11. unfold hasNineDigitShape.
    destruct (String.length n =? 11)%nat eqn:Hl; [|done].
    apply Nat.eqb_eq in Hl. by rewrite Hl.
Qed.

(** Identifiers written one per line are read back as they are: for a
    list of canonical Identifiers without duplicates, extracting from
    the lines that list them returns the list. *)
Theorem extractNumbers_reads_back_its_output (ids : list string) :
  NoDup ids ->
  Forall (λ n, isIdentifier n = true) ids ->
  extractNumbers (JS.join nl ids) = ids.
Proof.
  intros Hnd Hall. rewrite extractNumbers_modes.
  destruct ids as [|a l]; [by vm_compute|].
  assert (lineCandidates (JS.join nl (a :: l)) = a :: l) as ->.
  { unfold lineCandidates, JS.split. rewrite split_join_lines; [|..|done].
    - clear Hnd. induction Hall as [|n ns Hn Hns IH]; [done|].
      cbn [omap list_omap]. destruct (identifier_plain n Hn) as (_ & _ & -> & ->).
      simpl. by f_equal.
    - eapply Forall_impl; [exact Hall|]. intros n Hn.
      by destruct (identifier_plain n Hn) as (? & ? & _). }
  by rewrite firstSeen_fixed.
Qed.

(** ** Concrete instances of the further properties *)

Lemma normalize_result_is_fixed_point_witness :
  isIdentifier "51987654321" = true
  ∧ normalizePeruNumber "51987654321" = Some "51987654321".
Proof.
  apply (normalize_result_is_fixed_point "+51 987-654-321" "51987654321").
  vm_compute. reflexivity.
Defined.

Lemma addNumbers_keeps_no_duplicates_witness :
  NoDup (numbers
           (addNumbersToState
              (mkUserState confirming_numbers ["51987654321"] [])
              ["51912345678"; "51987654321"; "51912345678"]).1).
Proof.
  apply (addNumbers_keeps_no_duplicates
           (mkUserState confirming_numbers ["51987654321"] [])
           ["51912345678"; "51987654321"; "51912345678"]).
  simpl. apply NoDup_singleton.
Defined.

Lemma dispatch_delivers_everything_witness :
  ∃ evs w',
    sendBulkWhatsApp (Demo.bare []) ["51987654321"; "51912345678"]
      ["hola"; "adios"] Demo.quietSink Demo.emptyWorld
    = (Ret (mkCounters 2 0 0), w')
    ∧ trace w' = [] ++ evs
    ∧ sendsOf evs
      = [("51987654321@s.whatsapp.net", "hola", true);
         ("51987654321@s.whatsapp.net", "adios", true);
         ("51912345678@s.whatsapp.net", "hola", true);
         ("51912345678@s.whatsapp.net", "adios", true)]
    ∧ progressOf evs = [(1, 2); (2, 2)].
Proof.
  apply (dispatch_delivers_everything (Demo.bare [])
           ["51987654321"; "51912345678"] ["hola"; "adios"] Demo.quietSink
           Demo.emptyWorld).
  - intros jid message x. reflexivity.
  - intros onWhatsApp Hnone. discriminate Hnone.
  - intros sink [= <-] sent total x. reflexivity.
Defined.

Lemma waitingForMessages_wellFormed : wellFormed Demo.waitingForMessages.
Proof.
  unfold Demo.waitingForMessages, Demo.exec.
  apply (handle_wellFormed (Demo.bare []) Samples.lossyDisk Demo.secret
           (InText "u" "ok")).
  apply (handle_wellFormed (Demo.bare []) Samples.lossyDisk Demo.secret
           (InText "u" "987654321, 912345678")).
  apply (handle_wellFormed (Demo.bare []) Samples.lossyDisk Demo.secret
           (InSpam "u")).
  apply (handle_wellFormed (Demo.bare []) Samples.lossyDisk Demo.secret
           (InText "u" " clave-whatsapp ")).
  split; [intros k st; simpl; by rewrite lookup_empty|simpl; set_solver].
Qed.

Lemma handlers_keep_sessions_well_formed_witness :
  wellFormed (catchAllFlow (Demo.bare []) Demo.secret "u" "hola a todos"
                Demo.waitingForMessages).2
  ∧ wellFormed (spamFlow "u" Demo.waitingForMessages).2
  ∧ wellFormed (cancelFlow "u" Demo.waitingForMessages).2
  ∧ wellFormed (documentFlow Samples.lossyDisk Samples.csvUpload
                  Demo.waitingForMessages).2.
Proof.
  apply (handlers_keep_sessions_well_formed (Demo.bare []) Samples.lossyDisk
           Demo.secret "u" "hola a todos" Samples.csvUpload
           Demo.waitingForMessages).
  exact waitingForMessages_wellFormed.
Defined.

Lemma send_trigger_dispatches_snapshot_witness :
  ∃ result evs w',
    catchAllFlow (Demo.bare []) Demo.secret "u" "Enviar" Samples.readyToSend
    = (Ret tt, w')
    ∧ success result + failed result + notOnWhatsApp result = 2
    ∧ userStates w' = <["u" := freshState]> (userStates Samples.readyToSend)
    ∧ Forall (dispatchEvent ["51987654321"; "51912345678"] ["hola a todos"])
        evs.
Proof.
  destruct (send_trigger_dispatches_snapshot (Demo.bare []) Demo.secret "u"
              "Enviar"
              (mkUserState confirming_messages
                 ["51987654321"; "51912345678"] ["hola a todos"])
              Samples.readyToSend)
    as (result & evs & w' & Hrun & _ & Hall & Hsum & Hs & _).
  - apply (bool_decide_unpack _). vm_compute. exact I.
  - vm_compute. reflexivity.
  - right. reflexivity.
  - discriminate.
  - vm_compute. reflexivity.
  - exists result, evs, w'. split; [exact Hrun|].
    split; [exact Hsum|]. split; [exact Hs|exact Hall].
Defined.

Lemma unauthorised_sender_gets_no_service_witness :
  ∃ w',
    catchAllFlow (Demo.bare []) Demo.secret "u" "spam por favor"
      Demo.emptyWorld = (Ret tt, w')
    ∧ ext w' = tt ∧ trace w' = [].
Proof.
  destruct (unauthorised_sender_gets_no_service (Demo.bare []) Demo.secret
              "u" "spam por favor" Demo.emptyWorld)
    as (w' & Hrun & He & Ht); [simpl; set_solver|].
  exists w'. split; [exact Hrun|]. split; [exact He|exact Ht].
Defined.

Lemma login_then_cancel_round_trip_witness :
  authenticatedUsers
    (cancelFlow "u"
       (catchAllFlow (Demo.bare []) Demo.secret "u" " clave-whatsapp "
          Demo.emptyWorld).2).2 = ∅
  ∧ userStates
      (cancelFlow "u"
         (catchAllFlow (Demo.bare []) Demo.secret "u" " clave-whatsapp "
            Demo.emptyWorld).2).2 = <["u" := freshState]> ∅.
Proof.
  destruct (login_then_cancel_round_trip (Demo.bare []) Demo.secret "u"
              " clave-whatsapp " Demo.emptyWorld) as (_ & Ha & Hs).
  - simpl. set_solver.
  - vm_compute. reflexivity.
  - vm_compute. reflexivity.
  - split; [exact Ha|exact Hs].
Defined.

Lemma spam_discards_what_was_collected_witness :
  userStates (catchAllFlow (Demo.bare []) Demo.secret "u" "999888777"
                (spamFlow "u" Samples.readyToSend).2).2
  = <["u" := afterNumbersText (mkUserState waiting_numbers [] [])
               (JS.trim "999888777")]> (userStates Samples.readyToSend).
Proof.
  apply (spam_discards_what_was_collected (Demo.bare []) Demo.secret "u"
           "999888777" Samples.readyToSend).
  - apply (bool_decide_unpack _). vm_compute. exact I.
  - vm_compute. reflexivity.
Defined.

Lemma document_upload_merges_first_columns_witness :
  documentFlow
    (Samples.disk "tmp/lista.csv"
       ["987654321,Ana"; "912345678;Luis"; "987654321"; "telefono"])
    Samples.csvUpload Samples.waitingForNumbers
  = (Ret tt,
     mkWorld (authenticatedUsers Samples.waitingForNumbers)
       (<["u" := mkUserState confirming_numbers
                   ["51987654321"; "51912345678"] []]>
          (userStates Samples.waitingForNumbers))
       tt
       (trace Samples.waitingForNumbers
        ++ [EvReply "u" "Procesando archivo...";
            EvReply "u"
              (fileReport
                 (mkUserState confirming_numbers
                    ["51987654321"; "51912345678"] []) 2)])).
Proof.
  apply (document_upload_merges_first_columns
           (Samples.disk "tmp/lista.csv"
              ["987654321,Ana"; "912345678;Luis"; "987654321"; "telefono"])
           Samples.csvUpload (mkUserState waiting_numbers [] [])
           "tmp/lista.csv"
           ["987654321,Ana"; "912345678;Luis"; "987654321"; "telefono"]
           tt tt Samples.waitingForNumbers).
  - apply (bool_decide_unpack _). vm_compute. exact I.
  - vm_compute. reflexivity.
  - left. reflexivity.
  - vm_compute. reflexivity.
  - reflexivity.
  - reflexivity.
  - discriminate.
  - vm_compute. reflexivity.
  - reflexivity.
  - vm_compute. discriminate.
Defined.

Lemma document_upload_failures_witness :
  documentFlow Samples.lossyDisk Samples.csvUpload Samples.waitingForNumbers
  = (Ret tt,
     mkWorld (authenticatedUsers Samples.waitingForNumbers)
       (userStates Samples.waitingForNumbers) tt
       (trace Samples.waitingForNumbers
        ++ [EvReply "u" "Procesando archivo...";
            EvReply "u" "Hubo un error: Archivo no encontrado"])).
Proof.
  destruct (document_upload_failures Samples.lossyDisk Samples.csvUpload
              (mkUserState waiting_numbers [] []) Samples.waitingForNumbers)
    as (_ & _ & Hmissing).
  - apply (bool_decide_unpack _). vm_compute. exact I.
  - vm_compute. reflexivity.
  - left. reflexivity.
  - apply (Hmissing "tmp/upload.csv" tt).
    + vm_compute. reflexivity.
    + reflexivity.
    + reflexivity.
    + discriminate.
    + reflexivity.
Defined.

Lemma extractNumbers_reads_back_its_output_witness :
  extractNumbers (JS.join nl ["51987654321"; "51912345678"])
  = ["51987654321"; "51912345678"].
Proof.
  apply (extractNumbers_reads_back_its_output ["51987654321"; "51912345678"]).
  - apply (bool_decide_unpack _). vm_compute. exact I.
  - repeat constructor.
Defined.
